(** * Dispatch engine of the Anthropic-to-Cloud-Code proxy

    A shallow embedding of the account selection policy, the quota tracker,
    the token counter and the two retry/failover dispatchers, with the
    properties the specification states about them.

    Conventions of the embedding:
    - a JavaScript number that takes part in score arithmetic is an IEEE
      754 binary64 number, the kernel's [float], with its rounding, its
      infinities and NaN; millisecond timestamps and durations are
      integers ([Z]).
    - a string is held as the UTF-8 encoding of the JavaScript string.
    - [null] and [undefined] are [None]; JavaScript truthiness is written
      out where the code relies on it ([truthy], [js_or]).
    - a [Map] keyed by strings is a [gmap string _].
    - asynchronous code is run to completion: an [await] is an ordinary
      call, calls to collaborators that are not part of the sources are
      answered by a [World] of oracles, and every call that changes the
      collaborator or the outside is recorded in a trace. *)

From Stdlib Require Import QArith Qminmax ZArith String Ascii DecimalString Lia Lqa.
From Stdlib Require Import Floats.
From Stdlib Require DecimalPos DecimalZ.
From stdpp Require Import gmap strings list.

#[local] Set Warnings "-inexact-float".

Open Scope string_scope.
Open Scope Z_scope.

(** ** JavaScript helpers *)

Module JS.

(** [x || d] on a number that may be absent: [null], [undefined] and [0]
    are falsy. *)
Definition truthy (x : option Z) : bool :=
  match x with
  | Some v => negb (v =? 0)
  | None => false
  end.

Definition js_or (x : option Z) (d : Z) : Z :=
  match x with
  | Some v => if v =? 0 then d else v
  | None => d
  end.

(** [String.prototype.includes]. *)
Fixpoint includes (needle hay : string) : bool :=
  String.prefix needle hay
  || match hay with
     | EmptyString => false
     | String _ rest => includes needle rest
     end.

(** [String.prototype.length], the number of UTF-16 code units: every
    byte that starts a character counts one, and one more when the
    character lies outside the basic plane (a four-byte sequence);
    continuation bytes count nothing. *)
Fixpoint length (s : string) : nat :=
  match s with
  | EmptyString => 0
  | String c rest =>
      let byte := nat_of_ascii c in
      ((if (128 <=? byte) && (byte <? 192) then 0
        else if 240 <=? byte then 2
        else 1) + length rest)%nat
  end.

(** A number inside a template literal. *)
Definition show (z : Z) : string := NilZero.string_of_int (Z.to_int z).

(** The number that holds an integer: the nearest double. *)
Definition of_Z (z : Z) : float :=
  SF2Prim (binary_normalize prec emax z 0 false).

(** [Number.isNaN]. *)
Definition isNaN (x : float) : bool := negb (x =? x)%float.

(** The real number a finite double stands for. *)
Definition exact (x : float) : Q :=
  match Prim2SF x with
  | S754_finite s m e =>
      let v := (inject_Z (Z.pos m) * Qpower 2 e)%Q in
      if s then (- v)%Q else v
  | _ => 0%Q
  end.

End JS.

(** ** The order of doubles *)

(** The place of a number on the line: its sign class, then exponent and
    mantissa, both signed.  NaN has none. *)
Definition rank (f : spec_float) : option (Z * Z * Z) :=
  match f with
  | S754_nan => None
  | S754_infinity true => Some (-2, 0, 0)
  | S754_finite true m e => Some (-1, - e, Z.neg m)
  | S754_zero _ => Some (0, 0, 0)
  | S754_finite false m e => Some (1, e, Z.pos m)
  | S754_infinity false => Some (2, 0, 0)
  end.

Definition rank_compare (a b : Z * Z * Z) : comparison :=
  match a.1.1 ?= b.1.1 with
  | Eq => match a.1.2 ?= b.1.2 with
          | Eq => a.2 ?= b.2
          | c => c
          end
  | c => c
  end.

(** A number that is not NaN. *)
Definition is_number (x : float) : Prop := (x =? x)%float = true.

(** A finite or infinite number of the given sign. *)
Definition signed (s : bool) (f : spec_float) : Prop :=
  match f with
  | S754_finite s' _ _ | S754_infinity s' => s' = s
  | _ => False
  end.

(** ** Accounts *)

Record RateLimitEntry := {
  isRateLimited : bool;
  resetTime : Z
}.

Record ModelQuota := {
  (** [None] when the stored value is not a number. *)
  remainingFraction : option float
}.

Record Quota := {
  lastChecked : option Z;
  models : gmap string ModelQuota
}.

Record Account := {
  email : string;
  enabled : bool;
  isInvalid : bool;
  lastUsed : option Z;
  modelRateLimits : gmap string RateLimitEntry;
  quota : option Quota
}.

Definition set_lastUsed (t : Z) (a : Account) : Account :=
  {| email := email a; enabled := enabled a; isInvalid := isInvalid a;
     lastUsed := Some t; modelRateLimits := modelRateLimits a;
     quota := quota a |}.

(** ** Quota tracker (trackers/quota-tracker.js) *)

Module QuotaTracker.

Record Config := {
  lowThreshold : float;
  criticalThreshold : float;
  staleMs : Z;
  unknownScore : float
}.

Definition DEFAULT_CONFIG : Config := {|
  lowThreshold := 0.10;
  criticalThreshold := 0.05;
  staleMs := 300000;
  unknownScore := 50
|}.

Section Tracker.
Variable config : Config.
(** The reading of [Date.now()] that [isQuotaFresh] makes, when it
    makes one. *)
Variable now : Z.

Definition getQuotaFraction (account : Account) (modelId : string)
  : option float :=
  match quota account with
  | None => None
  | Some q =>
      match models q !! modelId with
      | None => None
      | Some mq => remainingFraction mq
      end
  end.

Definition isQuotaFresh (account : Account) : bool :=
  match quota account with
  | None => false
  | Some q =>
      if negb (JS.truthy (lastChecked q)) then false
      else match lastChecked q with
           | Some t => now - t <? staleMs config
           | None => false
           end
  end.

Definition isQuotaCritical (account : Account) (modelId : string) : bool :=
  match getQuotaFraction account modelId with
  | None => false
  | Some fraction =>
      if negb (isQuotaFresh account) then false
      else (fraction <=? criticalThreshold config)%float
  end.

Definition isQuotaLow (account : Account) (modelId : string) : bool :=
  match getQuotaFraction account modelId with
  | None => false
  | Some fraction =>
      (fraction <=? lowThreshold config)%float
      && (criticalThreshold config <? fraction)%float
  end.

Definition getScore (account : Account) (modelId : string) : float :=
  match getQuotaFraction account modelId with
  | None => unknownScore config
  | Some fraction =>
      let score := (fraction * 100)%float in
      if negb (isQuotaFresh account) then (score * 0.9)%float else score
  end.

(** *** The specification's words *)

(** The fraction on record for the model, when it is a number. *)
Definition stored_fraction (account : Account) (modelId : string)
  : option float :=
  q ← quota account ; mq ← models q !! modelId ; remainingFraction mq.

(** Fresh: [now - lastChecked < staleMs]. *)
Definition fresh_by_age (account : Account) : Prop :=
  exists q t, quota account = Some q /\ lastChecked q = Some t
              /\ now - t < staleMs config.

(** Fresh as the code has it: the last check is on record, is not 0,
    and lies less than [staleMs] back. *)
Definition fresh_on_record (account : Account) : Prop :=
  exists q t, quota account = Some q /\ lastChecked q = Some t
              /\ t <> 0 /\ now - t < staleMs config.

End Tracker.

End QuotaTracker.

(** ** Trackers and base strategy the hybrid strategy builds on *)

(** Modelled from the spec: trackers/health-tracker.js is not among the
    sources.  Section 4.1: a per-account score, created with the initial
    value on first reference; an account is usable when its score is at
    least [minUsable]. *)
Module HealthTracker.

Record Config := {
  initial : float;
  minUsable : float
}.

Definition DEFAULT_CONFIG : Config := {| initial := 70; minUsable := 50 |}.

Definition getScore (config : Config) (scores : gmap string float)
  (email : string) : float :=
  default (initial config) (scores !! email).

Definition isUsable (config : Config) (scores : gmap string float)
  (email : string) : bool :=
  (minUsable config <=? getScore config scores email)%float.

End HealthTracker.

(** Modelled from the spec: trackers/token-bucket-tracker.js is not among
    the sources.  Section 4.2: [consume] returns true and takes one token
    when at least one is left, [hasTokens] is [tokens >= 1]. *)
Module TokenBucketTracker.

Record Config := {
  initialTokens : float;
  maxTokens : float
}.

Definition DEFAULT_CONFIG : Config :=
  {| initialTokens := 50; maxTokens := 50 |}.

Definition getTokens (config : Config) (buckets : gmap string float)
  (email : string) : float :=
  default (initialTokens config) (buckets !! email).

Definition getMaxTokens (config : Config) : float := maxTokens config.

Definition hasTokens (config : Config) (buckets : gmap string float)
  (email : string) : bool :=
  (1 <=? getTokens config buckets email)%float.

Definition consume (config : Config) (buckets : gmap string float)
  (email : string) : bool * gmap string float :=
  if hasTokens config buckets email
  then (true,
        <[email := (getTokens config buckets email - 1)%float]> buckets)
  else (false, buckets).

End TokenBucketTracker.

(** Modelled from the spec: strategies/base-strategy.js is not among the
    sources.  Section 3: a row is eligible only if it is enabled, not
    invalid, and not rate-limited for the model or past its reset time.
    [now] is the reading of [Date.now()]. *)
Module BaseStrategy.

Definition isAccountUsable (now : Z) (account : Account)
  (modelId : string) : bool :=
  enabled account
  && negb (isInvalid account)
  && match modelRateLimits account !! modelId with
     | None => true
     | Some limit => negb (isRateLimited limit) || (resetTime limit <=? now)
     end.

End BaseStrategy.

(** ** Hybrid strategy (strategies/hybrid-strategy.js) *)

Module HybridStrategy.

Record Weights := {
  w_health : float;
  w_tokens : float;
  w_quota : float;
  w_lru : float
}.

Definition DEFAULT_WEIGHTS : Weights :=
  {| w_health := 2; w_tokens := 5; w_quota := 3; w_lru := 0.1 |}.

Record Config := {
  healthScore : HealthTracker.Config;
  tokenBucket : TokenBucketTracker.Config;
  quotaConfig : QuotaTracker.Config;
  weights : Weights
}.

Definition DEFAULT_CONFIG : Config := {|
  healthScore := HealthTracker.DEFAULT_CONFIG;
  tokenBucket := TokenBucketTracker.DEFAULT_CONFIG;
  quotaConfig := QuotaTracker.DEFAULT_CONFIG;
  weights := DEFAULT_WEIGHTS
|}.

(** The private trackers' maps. *)
Record State := {
  healthTracker : gmap string float;
  tokenBucketTracker : gmap string float
}.

Record SelectionResult := {
  account : option Account;
  index : nat;
  waitMs : Z
}.

Record Candidate := {
  c_account : Account;
  c_index : nat
}.

Record Scored := {
  s_account : Account;
  s_index : nat;
  s_score : float
}.

(** The places where a selection reads [Date.now()], each time anew:
    for the account at [index] of the array, in the usability test and
    in the freshness test of the first filter, in the usability test of
    the fallback filter, in the freshness test and in the age of the
    last use of the score; and once for the [lastUsed] of the account
    selected. *)
Inductive Reading :=
| filter_usable (index : nat)
| filter_quota (index : nat)
| fallback_usable (index : nat)
| score_quota (index : nat)
| score_lru (index : nat)
| on_select.

Section Strategy.
Variable config : Config.
Variable Date_now : Reading -> Z.

Definition indexed (accounts : list Account) : list Candidate :=
  imap (fun index account =>
          {| c_account := account; c_index := index |}) accounts.

Definition getCandidates (st : State) (accounts : list Account)
  (modelId : string) : list Candidate :=
  let candidates :=
    List.filter (fun c =>
      let account := c_account c in
      if negb (BaseStrategy.isAccountUsable
                 (Date_now (filter_usable (c_index c))) account modelId)
      then false
      else if negb (HealthTracker.isUsable (healthScore config)
                      (healthTracker st) (email account))
      then false
      else if negb (TokenBucketTracker.hasTokens (tokenBucket config)
                      (tokenBucketTracker st) (email account))
      then false
      else if QuotaTracker.isQuotaCritical (quotaConfig config)
                (Date_now (filter_quota (c_index c))) account modelId
      then false
      else true) (indexed accounts) in
  match candidates with
  | [] =>
      let fallback :=
        List.filter (fun c =>
          let account := c_account c in
          if negb (BaseStrategy.isAccountUsable
                     (Date_now (fallback_usable (c_index c))) account
                     modelId)
          then false
          else if negb (HealthTracker.isUsable (healthScore config)
                          (healthTracker st) (email account))
          then false
          else if negb (TokenBucketTracker.hasTokens (tokenBucket config)
                          (tokenBucketTracker st) (email account))
          then false
          else true) (indexed accounts) in
      match fallback with
      | [] => candidates
      | _ :: _ => fallback
      end
  | _ :: _ => candidates
  end.

(** [#calculateScore]; [nowQuota] and [nowLru] are its two readings of
    the clock, the first inside [getScore] of the quota tracker. *)
Definition calculateScore (st : State) (nowQuota nowLru : Z)
  (account : Account) (modelId : string) : float :=
  let health :=
    HealthTracker.getScore (healthScore config) (healthTracker st)
      (email account) in
  let healthComponent := (health * w_health (weights config))%float in
  let tokens :=
    TokenBucketTracker.getTokens (tokenBucket config)
      (tokenBucketTracker st) (email account) in
  let maxTokens := TokenBucketTracker.getMaxTokens (tokenBucket config) in
  let tokenRatio := (tokens / maxTokens)%float in
  let tokenComponent :=
    ((tokenRatio * 100) * w_tokens (weights config))%float in
  let quotaScore :=
    QuotaTracker.getScore (quotaConfig config) nowQuota account modelId in
  let quotaComponent := (quotaScore * w_quota (weights config))%float in
  let lastUsed := JS.js_or (lastUsed account) 0 in
  let timeSinceLastUse := Z.min (nowLru - lastUsed) 3600000 in
  let lruMinutes := (JS.of_Z timeSinceLastUse / 60000)%float in
  let lruComponent := (lruMinutes * w_lru (weights config))%float in
  (healthComponent + tokenComponent + quotaComponent + lruComponent)%float.

(** [scored.sort((a, b) => b.score - a.score)].  [Array.prototype.sort]
    is stable and reads a comparator result that is NaN as 0.  When no
    score is NaN the comparator is consistent and every stable sort
    returns the same array; it is written here as an insertion sort
    that moves an element behind the ones the comparator puts strictly
    before it. *)
Definition compareFn (a b : Scored) : float :=
  (s_score b - s_score a)%float.

Fixpoint insert_sorted (x : Scored) (l : list Scored) : list Scored :=
  match l with
  | [] => [x]
  | y :: rest =>
      if (0 <? compareFn x y)%float then y :: insert_sorted x rest
      else x :: y :: rest
  end.

Definition sort (l : list Scored) : list Scored :=
  foldr insert_sorted [] l.

Definition selectAccount (st : State) (accounts : list Account)
  (modelId : string) : SelectionResult * list Account * State :=
  let none := {| account := None; index := 0%nat; waitMs := 0 |} in
  if (length accounts =? 0)%nat then (none, accounts, st)
  else
    let candidates := getCandidates st accounts modelId in
    if (length candidates =? 0)%nat then (none, accounts, st)
    else
      let scored :=
        map (fun c => {| s_account := c_account c; s_index := c_index c;
                         s_score :=
                           calculateScore st
                             (Date_now (score_quota (c_index c)))
                             (Date_now (score_lru (c_index c)))
                             (c_account c) modelId |}) candidates in
      match sort scored with
      | [] => (none, accounts, st)
      | best :: _ =>
          (* best.account.lastUsed = Date.now(): the object is the one
             held by the caller's array *)
          let chosen := set_lastUsed (Date_now on_select) (s_account best) in
          let accounts' := <[s_index best := chosen]> accounts in
          let buckets' :=
            snd (TokenBucketTracker.consume (tokenBucket config)
                   (tokenBucketTracker st) (email (s_account best))) in
          ({| account := Some chosen; index := s_index best; waitMs := 0 |},
           accounts',
           {| healthTracker := healthTracker st;
              tokenBucketTracker := buckets' |})
      end.

(** *** The specification's words *)

(** Candidate set: sticky-usable, health-usable, holding a token and
    not quota-critical, or the same set without the quota filter when
    that leaves nobody. *)
Definition eligible (st : State) (modelId : string) (quota_filter : bool)
  (c : Candidate) : bool :=
  BaseStrategy.isAccountUsable
    (Date_now (if quota_filter then filter_usable (c_index c)
               else fallback_usable (c_index c)))
    (c_account c) modelId
  && HealthTracker.isUsable (healthScore config) (healthTracker st)
       (email (c_account c))
  && TokenBucketTracker.hasTokens (tokenBucket config)
       (tokenBucketTracker st) (email (c_account c))
  && (negb quota_filter
      || negb (QuotaTracker.isQuotaCritical (quotaConfig config)
                 (Date_now (filter_quota (c_index c)))
                 (c_account c) modelId)).

Definition candidate_set (st : State) (accounts : list Account)
  (modelId : string) : list Candidate :=
  match List.filter (eligible st modelId true) (indexed accounts) with
  | [] => List.filter (eligible st modelId false) (indexed accounts)
  | strict => strict
  end.

(** The score of a candidate as the selection computes it. *)
Definition computed_score (st : State) (modelId : string) (c : Candidate)
  : float :=
  calculateScore st (Date_now (score_quota (c_index c)))
    (Date_now (score_lru (c_index c))) (c_account c) modelId.

(** [c] is the best of [l] by the computed scores: nobody scores
    higher, and everybody before it in insertion order scores strictly
    lower. *)
Definition first_best (st : State) (modelId : string)
  (c : Candidate) (l : list Candidate) : Prop :=
  exists before after,
    l = (before ++ c :: after)%list
    /\ Forall (fun d => (computed_score st modelId d
                         <? computed_score st modelId c)%float = true)
         before
    /\ Forall (fun d => (computed_score st modelId d
                         <=? computed_score st modelId c)%float = true)
         after.

(** The score of the specification over the reals:
    2 H + 5 (tokens / maxTokens) 100 + 3 Q + 0.1 minutes, the minutes
    capped at 60, where Q is the unknown score for an unknown
    fraction and otherwise 100 times the fraction, with the penalty
    of a tenth when the data is stale. *)
Definition exact_quota_score (modelId : string) (c : Candidate) : Q :=
  match QuotaTracker.getQuotaFraction (c_account c) modelId with
  | None => JS.exact (QuotaTracker.unknownScore (quotaConfig config))
  | Some fraction =>
      if QuotaTracker.isQuotaFresh (quotaConfig config)
           (Date_now (score_quota (c_index c))) (c_account c)
      then (JS.exact fraction * 100)%Q
      else (JS.exact fraction * 100 * 0.9)%Q
  end.

Definition exact_score (st : State) (modelId : string) (c : Candidate)
  : Q :=
  (2 * JS.exact (HealthTracker.getScore (healthScore config)
                   (healthTracker st) (email (c_account c)))
   + 5 * (JS.exact (TokenBucketTracker.getTokens (tokenBucket config)
                      (tokenBucketTracker st) (email (c_account c)))
          / JS.exact (TokenBucketTracker.getMaxTokens
                        (tokenBucket config))) * 100
   + 3 * exact_quota_score modelId c
   + 0.1 * Qmin (inject_Z (Date_now (score_lru (c_index c))
                           - JS.js_or (lastUsed (c_account c)) 0)
                 / 60000) 60)%Q.

End Strategy.

End HybridStrategy.

(** ** Requests, errors and upstream calls *)

(** An [Error] object: its message and the structured fields deeper layers
    may attach ([is429], [resetMs], [errorText]). *)
Record Error := {
  message : string;
  is429 : bool;
  err_resetMs : option Z;
  err_errorText : option string
}.

(** [new Error(message)]. *)
Definition new_Error (msg : string) : Error :=
  {| message := msg; is429 := false; err_resetMs := None;
     err_errorText := None |}.

(** A content block inside a [tool_result] or a [system] array: only its
    [type] and [text] are read. *)
Record InnerBlock := {
  ib_type : string;
  ib_text : option string
}.

Inductive InnerContent :=
| InnerString (s : string)
| InnerArray (blocks : list InnerBlock)
| InnerOther.

(** A content block of a message.  JSON values ([input]) are kept as their
    [JSON.stringify] text, [None] when the field is missing. *)
Record Block := {
  b_type : string;
  b_text : option string;
  b_name : option string;
  b_input : option string;
  b_content : InnerContent;
  b_thinking : option string
}.

Inductive Content :=
| ContentString (s : string)
| ContentArray (blocks : list Block)
| ContentOther.

Record Message := {
  role : string;
  content : Content
}.

Inductive System :=
| SystemAbsent
| SystemString (s : string)
| SystemArray (blocks : list InnerBlock).

Record Tool := {
  t_name : option string;
  t_description : option string;
  (** [JSON.stringify(tool.input_schema || {})]. *)
  t_input_schema : string
}.

Record Request := {
  model : string;
  messages : list Message;
  system : System;
  tools : list Tool;
  max_tokens : option Z;
  stream : option bool
}.

(** [{ ...request, model: m }]. *)
Definition with_model (m : string) (r : Request) : Request :=
  {| model := m; messages := messages r; system := system r;
     tools := tools r; max_tokens := max_tokens r; stream := stream r |}.

(** [buildHeaders(token, model, accept)]. *)
Record Headers := {
  h_token : string;
  h_model : string;
  h_accept : string
}.

(** The second argument of [fetch].  The sources pass [method], [headers]
    and [body]; [signal] is the slot of the Fetch API that would carry a
    cancellation signal. *)
Record FetchInit := {
  fi_method : string;
  fi_headers : Headers;
  fi_body : string;
  fi_signal : option string
}.

Definition post (h : Headers) (body : string) : FetchInit :=
  {| fi_method := "POST"; fi_headers := h; fi_body := body;
     fi_signal := None |}.

(** ** Token counter (cloudcode/count-tokens.js) *)

Module CountTokens.

Record Usage := {
  promptTokenCount : option Z
}.

(** The parsed body of a [generateContent] answer, as far as it is read:
    [data.usageMetadata] and [data.response?.usageMetadata]. *)
Record Data := {
  usageMetadata : option Usage;
  response_usageMetadata : option Usage
}.

Record Response := {
  ok : bool;
  status : Z;
  (** [await response.json()], which may throw. *)
  json : Error + Data
}.

Inductive FetchResult :=
| Rejected (e : Error)
| Resolved (r : Response).

(** The account manager as the counter uses it. *)
Record AccountManager := {
  pickNext : string -> option Account;
  getTokenForAccount : Account -> Error + string;
  getProjectForAccount : Account -> string -> Error + string
}.

Record Result := {
  input_tokens : Z
}.

Section Counter.
(** [encode] of gpt-tokenizer; [None] when it throws. *)
Variable encode : string -> option (list Z).
(** [JSON.stringify(buildCloudCodeRequest(request, project))]. *)
Variable buildCloudCodeRequest : Request -> string -> Error + string.
Variable ANTIGRAVITY_ENDPOINT_FALLBACKS : list string.
(** The answer to the [k]-th upstream call of a count. *)
Variable fetch : nat -> string -> FetchInit -> FetchResult.

Definition estimateTextTokens (text : option string) : Z :=
  match text with
  | None => 0
  | Some "" => 0
  | Some t =>
      match encode t with
      | Some tokens => Z.of_nat (length tokens)
      | None => (Z.of_nat (JS.length t) + 3) / 4
      end
  end.

Definition hasComplexContent (request : Request) : bool :=
  existsb (fun message =>
    match content message with
    | ContentArray blocks =>
        existsb (fun block =>
          String.eqb (b_type block) "image"
          || String.eqb (b_type block) "document") blocks
    | _ => false
    end) (messages request)
  || match system request with
     | SystemArray blocks =>
         existsb (fun block => negb (String.eqb (ib_type block) "text"))
           blocks
     | _ => false
     end.

(** [filter(text blocks).map(text).join('\n')]; a missing [text] joins
    as the empty string. *)
Definition join_texts (texts : list (option string)) : string :=
  String.concat (String (ascii_of_nat 10) EmptyString)
    (map (default "") texts).

Definition extractText_inner (c : InnerContent) : string :=
  match c with
  | InnerString s => s
  | InnerArray blocks =>
      join_texts (map ib_text
        (List.filter (fun b => String.eqb (ib_type b) "text") blocks))
  | InnerOther => ""
  end.

Definition extractText (c : Content) : string :=
  match c with
  | ContentString s => s
  | ContentArray blocks =>
      join_texts (map b_text
        (List.filter (fun b => String.eqb (b_type b) "text") blocks))
  | ContentOther => ""
  end.

Definition block_tokens (block : Block) : Z :=
  if String.eqb (b_type block) "tool_use" then
    estimateTextTokens (b_name block) + estimateTextTokens (b_input block)
  else if String.eqb (b_type block) "tool_result" then
    match b_content block with
    | InnerString s => estimateTextTokens (Some s)
    | InnerArray _ =>
        estimateTextTokens (Some (extractText_inner (b_content block)))
    | InnerOther => 0
    end
  else if String.eqb (b_type block) "thinking" then
    estimateTextTokens (b_thinking block)
  else 0.

Definition sum (l : list Z) : Z := foldr Z.add 0 l.

Definition countTokensLocally (request : Request) : Z :=
  let systemTokens :=
    match system request with
    | SystemAbsent => 0
    | SystemString s => estimateTextTokens (Some s)
    | SystemArray blocks =>
        sum (map (fun block =>
               if String.eqb (ib_type block) "text"
               then estimateTextTokens (ib_text block) else 0) blocks)
    end in
  let messageTokens :=
    sum (map (fun message =>
           4 + estimateTextTokens (Some (extractText (content message)))
           + match content message with
             | ContentArray blocks => sum (map block_tokens blocks)
             | _ => 0
             end) (messages request)) in
  let toolTokens :=
    sum (map (fun tool =>
           estimateTextTokens (t_name tool)
           + estimateTextTokens (Some (default "" (t_description tool)))
           + estimateTextTokens (Some (t_input_schema tool)))
         (tools request)) in
  systemTokens + messageTokens + toolTokens.

(** [{ ...anthropicRequest, max_tokens: 1, stream: false }]. *)
Definition countRequest (r : Request) : Request :=
  {| model := model r; messages := messages r; system := system r;
     tools := tools r; max_tokens := Some 1; stream := Some false |}.

Definition first_truthy (a b : option Usage) : Usage :=
  match a, b with
  | Some u, _ => u
  | None, Some u => u
  | None, None => {| promptTokenCount := None |}
  end.

(** The upstream calls made so far, oldest first. *)
Abbreviation Calls := (list (string * FetchInit)).

(** The [for (const endpoint of ...)] loop of [countTokensViaAPI];
    [k] counts the calls already made. *)
Fixpoint try_endpoints (headers : Headers) (body : string)
  (endpoints : list string) (k : nat) (calls : Calls)
  : (Error + Z) * Calls :=
  match endpoints with
  | [] => (inl (new_Error "Failed to count tokens via API"), calls)
  | endpoint :: rest =>
      let url := endpoint ++ "/v1internal:generateContent" in
      let init := post headers body in
      let calls' := (calls ++ [(url, init)])%list in
      match fetch k url init with
      | Rejected _ => try_endpoints headers body rest (S k) calls'
      | Resolved response =>
          if negb (ok response)
          then try_endpoints headers body rest (S k) calls'
          else
            match json response with
            | inl _ => try_endpoints headers body rest (S k) calls'
            | inr data =>
                let usage :=
                  first_truthy (usageMetadata data)
                    (response_usageMetadata data) in
                (inr (JS.js_or (promptTokenCount usage) 0), calls')
            end
      end
  end.

Definition countTokensViaAPI (anthropicRequest : Request)
  (accountManager : AccountManager) : (Error + Z) * Calls :=
  match pickNext accountManager (model anthropicRequest) with
  | None =>
      (inl (new_Error "No accounts available for token counting"), [])
  | Some account =>
      match getTokenForAccount accountManager account with
      | inl e => (inl e, [])
      | inr token =>
          match getProjectForAccount accountManager account token with
          | inl e => (inl e, [])
          | inr project =>
              match buildCloudCodeRequest (countRequest anthropicRequest)
                      project with
              | inl e => (inl e, [])
              | inr body =>
                  try_endpoints
                    {| h_token := token;
                       h_model := model anthropicRequest;
                       h_accept := "application/json" |}
                    body ANTIGRAVITY_ENDPOINT_FALLBACKS 0%nat []
              end
          end
      end
  end.

Definition countTokens (anthropicRequest : Request)
  (accountManager : option AccountManager) (useAPI : bool)
  : Result * Calls :=
  let attempt : (Error + Z) * Calls :=
    if useAPI || (hasComplexContent anthropicRequest
                  && bool_decide (is_Some accountManager))
    then
      match accountManager with
      | None =>
          (inl (new_Error
                  "Account manager required for API-based token counting"),
           [])
      | Some am => countTokensViaAPI anthropicRequest am
      end
    else (inr (countTokensLocally anthropicRequest), [])
  in
  match attempt with
  | (inr inputTokens, calls) => ({| input_tokens := inputTokens |}, calls)
  | (inl _, calls) =>
      ({| input_tokens := countTokensLocally anthropicRequest |}, calls)
  end.

(** *** The specification's words *)

(** No message block is an image or a document, and a [system] array
    holds only text blocks. *)
Definition text_only (request : Request) : Prop :=
  (forall message blocks block,
      In message (messages request) ->
      content message = ContentArray blocks ->
      In block blocks ->
      b_type block <> "image" /\ b_type block <> "document")
  /\ (forall blocks block,
      system request = SystemArray blocks ->
      In block blocks -> ib_type block = "text").

Definition has_image_or_document (request : Request) : Prop :=
  exists message blocks block,
    In message (messages request)
    /\ content message = ContentArray blocks
    /\ In block blocks
    /\ (b_type block = "image" \/ b_type block = "document").

(** The [k]-th call was answered with a readable body. *)
Definition answered (k : nat) (call : string * FetchInit) (data : Data)
  : Prop :=
  exists response,
    fetch k call.1 call.2 = Resolved response
    /\ ok response = true
    /\ json response = inr data.

(** [n] is the prompt token count of the usage metadata of an answer to
    one of the calls. *)
Definition read_from_upstream (calls : Calls) (n : Z) : Prop :=
  exists k call data usage,
    calls !! k = Some call
    /\ answered k call data
    /\ (usageMetadata data = Some usage
        \/ response_usageMetadata data = Some usage)
    /\ promptTokenCount usage = Some n.

(** The token and the body of a count, when an account, its token, its
    project and the body of the rebuilt request are all obtained. *)
Definition prepared (request : Request) (accountManager : AccountManager)
  : option (string * string) :=
  match pickNext accountManager (model request) with
  | None => None
  | Some account =>
      match getTokenForAccount accountManager account with
      | inl _ => None
      | inr token =>
          match getProjectForAccount accountManager account token with
          | inl _ => None
          | inr project =>
              match buildCloudCodeRequest (countRequest request) project
              with
              | inl _ => None
              | inr body => Some (token, body)
              end
          end
      end
  end.

(** The call of a count to an endpoint. *)
Definition count_call (request : Request) (token body endpoint : string)
  : string * FetchInit :=
  (endpoint ++ "/v1internal:generateContent",
   post {| h_token := token; h_model := model request;
           h_accept := "application/json" |} body).

(** A call is a POST of the request rebuilt with [max_tokens = 1] to the
    [generateContent] method of one of the endpoints. *)
Definition is_count_call (request : Request) (call : string * FetchInit)
  : Prop :=
  exists endpoint project,
    In endpoint ANTIGRAVITY_ENDPOINT_FALLBACKS
    /\ call.1 = endpoint ++ "/v1internal:generateContent"
    /\ fi_method call.2 = "POST"
    /\ max_tokens (countRequest request) = Some 1
    /\ buildCloudCodeRequest (countRequest request) project
       = inr (fi_body call.2).

End Counter.

End CountTokens.

(** ** Constants *)

(** Modelled from the spec: constants.js is not among the sources; these
    are the defaults of section 6. *)
Module Constants.
Definition MAX_RETRIES : Z := 3.
Definition MAX_EMPTY_RESPONSE_RETRIES : Z := 3.
Definition MAX_WAIT_BEFORE_ERROR_MS : Z := 120000.
Definition DEFAULT_COOLDOWN_MS : Z := 10000.
Definition RATE_LIMIT_DEDUP_WINDOW_MS : Z := 2000.
Definition MAX_CONSECUTIVE_FAILURES : Z := 3.
Definition EXTENDED_COOLDOWN_MS : Z := 300000.
Definition CAPACITY_RETRY_DELAY_MS : Z := 2000.
Definition MAX_CAPACITY_RETRIES : Z := 3.
End Constants.

(** ** The world around a dispatch *)

(** An upstream answer: its status and [await response.text()]. *)
Record Response := {
  status : Z;
  text : string
}.

Definition ok (r : Response) : bool := (200 <=? status r) && (status r <=? 299).

Inductive FetchResult :=
| Rejected (e : Error)
| Resolved (r : Response).

(** Events of an Anthropic message stream. *)
Inductive StreamEvent :=
| message_start (id model : string) (input_tokens output_tokens : Z)
| content_block_start (index : Z) (block_type text : string)
| content_block_delta (index : Z) (delta_type text : string)
| content_block_stop (index : Z)
| message_delta (stop_reason : option string) (output_tokens : Z)
| message_stop.

(** What a dispatch does to its collaborators and to the outside, in the
    order it does it.  [getAvailableAccounts] is the first call on the
    account manager that reads the pool in each turn of the outer loop. *)
Inductive Effect :=
| clearExpiredLimits
| getAvailableAccounts (model : string)
| markRateLimited (email : string) (ms : option Z) (model : string)
| markInvalid (email reason : string)
| clearTokenCache (email : string)
| clearProjectCache (email : string)
| notifySuccess (email model : string)
| notifyRateLimit (email model : string)
| notifyFailure (email model : string)
| sleep (ms : Z)
| fetch (url : string) (init : FetchInit)
| yield (event : StreamEvent).

(** The collaborators that are not part of the sources, as oracles.  An
    oracle that can answer differently from call to call takes the number
    of oracle calls made before it (the tick) as its first argument;
    [upstream] takes the number of upstream calls made before it. *)
Class World := {
  (** [String.prototype.toLowerCase], with the runtime's tables. *)
  toLowerCase : string -> string;
  ANTIGRAVITY_ENDPOINT_FALLBACKS : list string;
  isThinkingModel : string -> bool;
  (** [None] stands for every falsy answer. *)
  getFallbackModel : string -> option string;
  isRateLimitError : Error -> bool;
  isAuthError : Error -> bool;
  isEmptyResponseError : Error -> bool;
  parseResetTime : Response -> string -> option Z;
  (** [JSON.stringify(buildCloudCodeRequest(request, project))]. *)
  buildCloudCodeRequest : Request -> string -> Error + string;
  parseThinkingSSEResponse : Response -> string -> Error + string;
  (** [await response.json()]. *)
  response_json : Response -> Error + string;
  convertGoogleToAnthropic : string -> string -> Error + string;
  (** The events [streamSSEResponse] yields, and the error it ends with
      if it throws. *)
  streamSSEResponse : Response -> string -> list StreamEvent * option Error;
  (** [new Date(ms).toISOString()]. *)
  toISOString : Z -> string;
  Date_now : nat -> Z;
  (** The [i]-th byte of [crypto.randomBytes]. *)
  randomByte : nat -> nat -> Byte.byte;
  upstream : nat -> string -> FetchInit -> FetchResult;
  (** The account manager. *)
  getAccountCount : nat -> Z;
  availableAccounts : nat -> string -> list Account;
  isAllRateLimited : nat -> string -> bool;
  getMinWaitTimeMs : nat -> string -> Z;
  selectAccount : nat -> string -> option Account * Z;
  getTokenForAccount : nat -> Account -> Error + string;
  getProjectForAccount : nat -> Account -> string -> Error + string;
  (** [getHealthTracker()?.getConsecutiveFailures(email) || 0]. *)
  getConsecutiveFailures : nat -> string -> Z
}.

(** The state a dispatch runs in: the tick, the number of upstream calls
    made, the trace, and the two module-level [lastRateLimitTimestamps]
    maps, one per handler module. *)
Record State := {
  tick : nat;
  calls : nat;
  trace : list Effect;
  message_dedup : gmap string Z;
  stream_dedup : gmap string Z
}.

Definition initial_state : State :=
  {| tick := 0; calls := 0; trace := []; message_dedup := ∅;
     stream_dedup := ∅ |}.

(** ** A state and exception monad *)

Inductive Outcome (A : Type) :=
| Ok (a : A)
| Thrown (e : Error)
| OutOfFuel.
Arguments Ok {A} a.
Arguments Thrown {A} e.
Arguments OutOfFuel {A}.

Definition M (A : Type) : Type := State -> Outcome A * State.

#[global] Instance M_ret : MRet M := fun A a s => (Ok a, s).

#[global] Instance M_bind : MBind M := fun A B f m s =>
  match m s with
  | (Ok a, s') => f a s'
  | (Thrown e, s') => (Thrown e, s')
  | (OutOfFuel, s') => (OutOfFuel, s')
  end.

Definition throw {A} (e : Error) : M A := fun s => (Thrown e, s).

Definition out_of_fuel {A} : M A := fun s => (OutOfFuel, s).

(** [try { m } catch (e) { handler e }]. *)
Definition try_catch {A} (m : M A) (handler : Error -> M A) : M A := fun s =>
  match m s with
  | (Thrown e, s') => handler e s'
  | other => other
  end.

(** A value that was computed or thrown by a collaborator. *)
Definition lift {A} (r : Error + A) : M A :=
  match r with
  | inl e => throw e
  | inr a => mret a
  end.

(** One call of an oracle. *)
Definition ask {A} (oracle : nat -> A) : M A := fun s =>
  (Ok (oracle (tick s)),
   {| tick := S (tick s); calls := calls s; trace := trace s;
      message_dedup := message_dedup s; stream_dedup := stream_dedup s |}).

Definition emit (e : Effect) : M unit := fun s =>
  (Ok tt,
   {| tick := tick s; calls := calls s; trace := (trace s ++ [e])%list;
      message_dedup := message_dedup s; stream_dedup := stream_dedup s |}).

(** One upstream call: the answer is that of the call's number. *)
Definition call_upstream `{World} (url : string) (init : FetchInit)
  : M FetchResult := fun s =>
  (Ok (upstream (calls s) url init),
   {| tick := tick s; calls := S (calls s); trace := trace s;
      message_dedup := message_dedup s; stream_dedup := stream_dedup s |}).

Definition do_fetch `{World} (url : string) (init : FetchInit) : M Response :=
  emit (fetch url init) ;;
  result ← call_upstream url init ;
  match result with
  | Rejected e => throw e
  | Resolved r => mret r
  end.

(** ** Shared helpers (utils/helpers.js) *)

Module Helpers.

(** [formatDuration]: [Math.floor] is [Z.div], [%] is [Z.rem]. *)
Definition formatDuration (ms : Z) : string :=
  let seconds := ms / 1000 in
  let hours := seconds / 3600 in
  let minutes := Z.rem seconds 3600 / 60 in
  let secs := Z.rem seconds 60 in
  if hours >? 0 then
    JS.show hours ++ "h" ++ JS.show minutes ++ "m" ++ JS.show secs ++ "s"
  else if minutes >? 0 then
    JS.show minutes ++ "m" ++ JS.show secs ++ "s"
  else JS.show secs ++ "s".

Definition isNetworkError `{World} (error : Error) : bool :=
  let msg := toLowerCase (message error) in
  JS.includes "fetch failed" msg
  || JS.includes "network error" msg
  || JS.includes "econnreset" msg
  || JS.includes "etimedout" msg
  || JS.includes "socket hang up" msg
  || JS.includes "timeout" msg.

End Helpers.

(** The variables of the endpoint loop. *)
Record LoopVars := {
  lastError : option Error;
  retriedOnce : bool;
  capacityRetryCount : Z;
  endpointIndex : nat
}.

Definition initial_vars : LoopVars :=
  {| lastError := None; retriedOnce := false; capacityRetryCount := 0;
     endpointIndex := 0 |}.

(** How one turn of the endpoint loop leaves the [try] body. *)
Inductive Ctl (R : Type) :=
| Return (r : R)
| Continue (vars : LoopVars).
Arguments Return {R} r.
Arguments Continue {R} vars.

(** [endpointIndex++; continue], with [lastError] as given. *)
Definition next_endpoint (e : option Error) (vars : LoopVars) : LoopVars :=
  {| lastError := e; retriedOnce := retriedOnce vars;
     capacityRetryCount := capacityRetryCount vars;
     endpointIndex := S (endpointIndex vars) |}.

(** [capacityRetryCount++; continue]. *)
Definition retry_capacity (vars : LoopVars) : LoopVars :=
  {| lastError := lastError vars; retriedOnce := retriedOnce vars;
     capacityRetryCount := capacityRetryCount vars + 1;
     endpointIndex := endpointIndex vars |}.

(** [retriedOnce = true; continue]. *)
Definition retry_short (vars : LoopVars) : LoopVars :=
  {| lastError := lastError vars; retriedOnce := true;
     capacityRetryCount := capacityRetryCount vars;
     endpointIndex := endpointIndex vars |}.

(** [${x}] for a string that may be undefined. *)
Definition show_string (x : option string) : string := default "undefined" x.

(** The wait of a 429 as the specification words it: [resetMs] when it is
    known, the given default when it is unknown. *)
Definition wait_when_known (resetMs : option Z) (otherwise : Z) : Z :=
  default otherwise resetMs.

(** ** Message handler: the non-streaming dispatcher (unnamed/part_000) *)

Module MessageHandler.
Import Constants.

Section Handler.
Context `{W : World}.

(** *** The module's dedup map *)

Definition set_dedup (m : gmap string Z) : M unit := fun s =>
  (Ok tt,
   {| tick := tick s; calls := calls s; trace := trace s;
      message_dedup := m; stream_dedup := stream_dedup s |}).

Definition get_dedup : M (gmap string Z) := fun s =>
  (Ok (message_dedup s), s).

Definition shouldSkipRetryDueToDedup (model : string) : M bool :=
  lastRateLimitTimestamps ← get_dedup ;
  let lastTimestamp := lastRateLimitTimestamps !! model in
  if negb (JS.truthy lastTimestamp) then mret false
  else
    now ← ask Date_now ;
    let elapsed := now - default 0 lastTimestamp in
    if elapsed <? RATE_LIMIT_DEDUP_WINDOW_MS then mret true
    else mret false.

Definition recordRateLimitTimestamp (model : string) : M unit :=
  now ← ask Date_now ;
  lastRateLimitTimestamps ← get_dedup ;
  set_dedup (<[model := now]> lastRateLimitTimestamps).

Definition clearRateLimitTimestamp (model : string) : M unit :=
  lastRateLimitTimestamps ← get_dedup ;
  set_dedup (delete model lastRateLimitTimestamps).

(** The body of the [setInterval] sweeper. *)
Definition sweep : M unit :=
  now ← ask Date_now ;
  let cutoff := now - 60000 in
  lastRateLimitTimestamps ← get_dedup ;
  set_dedup (filter (fun entry => ~ (entry.2 < cutoff))
               lastRateLimitTimestamps).

(** *** Classification of error texts *)

Definition isPermanentAuthFailure (errorText : string) : bool :=
  let lower := toLowerCase errorText in
  JS.includes "invalid_grant" lower
  || JS.includes "token revoked" lower
  || JS.includes "token has been expired or revoked" lower
  || JS.includes "token_revoked" lower
  || JS.includes "invalid_client" lower
  || JS.includes "credentials are invalid" lower.

Definition isModelCapacityExhausted (errorText : string) : bool :=
  let lower := toLowerCase errorText in
  JS.includes "model_capacity_exhausted" lower
  || JS.includes "capacity_exhausted" lower
  || JS.includes "model is currently overloaded" lower
  || JS.includes "service temporarily unavailable" lower.

(** *** The endpoint loop *)

(** After the capacity branch: dedup, long or short rate limit. *)
Definition rate_limit_decision (account : Account) (model : string)
  (vars : LoopVars) (resetMs : option Z) (errorText : string)
  : M (Ctl string) :=
  skip ← shouldSkipRetryDueToDedup model ;
  if (skip : bool) then
    emit (markRateLimited (email account)
            (Some (JS.js_or resetMs DEFAULT_COOLDOWN_MS)) model) ;;
    throw (new_Error ("RATE_LIMITED_DEDUP: " ++ errorText))
  else if JS.truthy resetMs && (default 0 resetMs >? DEFAULT_COOLDOWN_MS)
  then
    emit (markRateLimited (email account) resetMs model) ;;
    throw (new_Error ("QUOTA_EXHAUSTED: " ++ errorText))
  else
    let waitMs := JS.js_or resetMs DEFAULT_COOLDOWN_MS in
    if negb (retriedOnce vars) then
      recordRateLimitTimestamp model ;;
      emit (sleep waitMs) ;;
      mret (Continue (retry_short vars))
    else
      emit (markRateLimited (email account) (Some waitMs) model) ;;
      throw (new_Error ("RATE_LIMITED: " ++ errorText)).

(** [if (response.status === 429) { ... }]. *)
Definition handle_429 (account : Account) (model : string)
  (vars : LoopVars) (response : Response) (errorText : string)
  : M (Ctl string) :=
  let resetMs := parseResetTime response errorText in
  if isModelCapacityExhausted errorText
     && (capacityRetryCount vars <? MAX_CAPACITY_RETRIES)
  then
    let waitMs := JS.js_or resetMs CAPACITY_RETRY_DELAY_MS in
    emit (sleep waitMs) ;;
    mret (Continue (retry_capacity vars))
  else rate_limit_decision account model vars resetMs errorText.

(** [if (response.status === 401) { ... }]. *)
Definition handle_401 (account : Account) (vars : LoopVars)
  (errorText : string) : M (Ctl string) :=
  if isPermanentAuthFailure errorText then
    emit (markInvalid (email account)
            "Token revoked - re-authentication required") ;;
    throw (new_Error ("AUTH_INVALID_PERMANENT: " ++ errorText))
  else
    emit (clearTokenCache (email account)) ;;
    emit (clearProjectCache (email account)) ;;
    mret (Continue (next_endpoint (lastError vars) vars)).

(** [if (response.status >= 400) { ... }]. *)
Definition handle_other_error (vars : LoopVars) (response : Response)
  (errorText : string) : M (Ctl string) :=
  let error :=
    new_Error ("API error " ++ JS.show (status response) ++ ": "
               ++ errorText) in
  (if (status response =? 403) || (status response =? 404) then mret tt
   else if status response >=? 500 then emit (sleep 1000)
   else mret tt) ;;
  mret (Continue (next_endpoint (Some error) vars)).

(** The success path: the body is parsed, the dedup entry cleared and
    the strategy notified. *)
Definition read_answer (account : Account) (request : Request)
  (response : Response) : M (Ctl string) :=
  let model := model request in
  if isThinkingModel model then
    result ← lift (parseThinkingSSEResponse response model) ;
    clearRateLimitTimestamp model ;;
    emit (notifySuccess (email account) model) ;;
    mret (Return result)
  else
    data ← lift (response_json response) ;
    clearRateLimitTimestamp model ;;
    emit (notifySuccess (email account) model) ;;
    result ← lift (convertGoogleToAnthropic data model) ;
    mret (Return result).

(** The [try] body of one turn of the [while] loop. *)
Definition endpoint_try (account : Account) (request : Request)
  (token body : string) (vars : LoopVars) : M (Ctl string) :=
  let model := model request in
  let isThinking := isThinkingModel model in
  let endpoint :=
    nth (endpointIndex vars) ANTIGRAVITY_ENDPOINT_FALLBACKS "" in
  let url :=
    if isThinking
    then endpoint ++ "/v1internal:streamGenerateContent?alt=sse"
    else endpoint ++ "/v1internal:generateContent" in
  let headers :=
    {| h_token := token; h_model := model;
       h_accept := if isThinking then "text/event-stream"
                   else "application/json" |} in
  response ← do_fetch url (post headers body) ;
  if negb (ok response) then
    let errorText := text response in
    if status response =? 401 then handle_401 account vars errorText
    else if status response =? 429
    then handle_429 account model vars response errorText
    else if status response >=? 400
    then handle_other_error vars response errorText
    else read_answer account request response
  else read_answer account request response.

(** One turn of the [while] loop: the [try] body and its [catch].  No
    statement of the body throws after it has changed a loop variable,
    so the handler sees the variables of the start of the turn. *)
Definition endpoint_turn (account : Account) (request : Request)
  (token body : string) (vars : LoopVars) : M (Ctl string) :=
  try_catch (endpoint_try account request token body vars)
    (fun endpointError =>
       if isRateLimitError endpointError then throw endpointError
       else mret (Continue (next_endpoint (Some endpointError) vars))).

(** [while (endpointIndex < ANTIGRAVITY_ENDPOINT_FALLBACKS.length)]. *)
Fixpoint endpoint_loop (fuel : nat) (account : Account)
  (request : Request) (token body : string) (vars : LoopVars)
  : M (Ctl string) :=
  if (endpointIndex vars <? length ANTIGRAVITY_ENDPOINT_FALLBACKS)%nat
  then
    match fuel with
    | O => out_of_fuel
    | S fuel' =>
        step ← endpoint_turn account request token body vars ;
        match step with
        | Return r => mret (Return r)
        | Continue vars' =>
            endpoint_loop fuel' account request token body vars'
        end
    end
  else mret (Continue vars).

(** Turns the loop can take: one per endpoint, one per capacity retry,
    one short retry. *)
Definition endpoint_fuel : nat :=
  (length ANTIGRAVITY_ENDPOINT_FALLBACKS
   + Z.to_nat MAX_CAPACITY_RETRIES + 1)%nat.

(** [if (lastError) { ... }] after the loop. *)
Definition after_endpoints (account : Account) (model : string)
  (vars : LoopVars) : M unit :=
  match lastError vars with
  | Some e =>
      if is429 e then
        emit (markRateLimited (email account) (err_resetMs e) model) ;;
        throw (new_Error ("Rate limited: "
                          ++ show_string (err_errorText e)))
      else throw e
  | None => mret tt
  end.

(** *** The outer loop *)

(** The [try] block of one attempt; [Some r] is [return r]. *)
Definition attempt_try (account : Account) (request : Request)
  : M (option string) :=
  token ← (r ← ask (fun t => getTokenForAccount t account) ; lift r) ;
  project ←
    (r ← ask (fun t => getProjectForAccount t account token) ; lift r) ;
  body ← lift (buildCloudCodeRequest request project) ;
  step ← endpoint_loop endpoint_fuel account request token body
           initial_vars ;
  match step with
  | Return r => mret (Some r)
  | Continue vars =>
      after_endpoints account (model request) vars ;; mret None
  end.

Definition extended_cooldown (account : Account) (model : string)
  : M unit :=
  consecutiveFailures ←
    ask (fun t => getConsecutiveFailures t (email account)) ;
  if consecutiveFailures >=? MAX_CONSECUTIVE_FAILURES
  then emit (markRateLimited (email account) (Some EXTENDED_COOLDOWN_MS)
               model)
  else mret tt.

(** The [catch] block of one attempt; returning is [continue]. *)
Definition attempt_catch (account : Account) (model : string)
  (error : Error) : M unit :=
  if isRateLimitError error then
    emit (notifyRateLimit (email account) model)
  else if isAuthError error then mret tt
  else if JS.includes "API error 5" (message error)
          || JS.includes "500" (message error)
          || JS.includes "503" (message error)
  then
    emit (notifyFailure (email account) model) ;;
    extended_cooldown account model
  else if Helpers.isNetworkError error then
    emit (notifyFailure (email account) model) ;;
    extended_cooldown account model ;;
    emit (sleep 1000)
  else throw error.

Definition resource_exhausted (model : string) (minWaitMs now : Z)
  : Error :=
  new_Error ("RESOURCE_EXHAUSTED: Rate limited on " ++ model
             ++ ". Quota will reset after "
             ++ Helpers.formatDuration minWaitMs
             ++ ". Next available: " ++ toISOString (now + minWaitMs)).

(** [if (availableAccounts.length === 0) { ... }]. *)
Definition no_accounts (self : Request -> bool -> M string)
  (request : Request) (fallbackEnabled : bool) : M (option string) :=
  let model := model request in
  allLimited ← ask (fun t => isAllRateLimited t model) ;
  if (allLimited : bool) then
    minWaitMs ← ask (fun t => getMinWaitTimeMs t model) ;
    now ← ask Date_now ;
    if minWaitMs >? MAX_WAIT_BEFORE_ERROR_MS then
      match (if fallbackEnabled then getFallbackModel model else None) with
      | Some fallbackModel =>
          r ← self (with_model fallbackModel request) false ;
          mret (Some r)
      | None => throw (resource_exhausted model minWaitMs now)
      end
    else
      _ ← ask getAccountCount ;
      emit (sleep (minWaitMs + 500)) ;;
      emit clearExpiredLimits ;;
      mret None
  else throw (new_Error "No accounts available").

(** One turn of the [for] loop; [Some r] is [return r], [None] is the
    next turn. *)
Definition attempt (self : Request -> bool -> M string)
  (request : Request) (fallbackEnabled : bool) : M (option string) :=
  let model := model request in
  emit clearExpiredLimits ;;
  emit (getAvailableAccounts model) ;;
  available ← ask (fun t => availableAccounts t model) ;
  if (length available =? 0)%nat
  then no_accounts self request fallbackEnabled
  else
    selection ← ask (fun t => selectAccount t model) ;
    match selection with
    | (None, waitMs) =>
        if waitMs >? 0 then emit (sleep (waitMs + 500)) ;; mret None
        else mret None
    | (Some account, _) =>
        try_catch (attempt_try account request)
          (fun error => attempt_catch account model error ;; mret None)
    end.

(** After the loop: the fallback model, or the terminal error. *)
Definition exhausted (self : Request -> bool -> M string)
  (request : Request) (fallbackEnabled : bool) : M string :=
  match (if fallbackEnabled then getFallbackModel (model request)
         else None) with
  | Some fallbackModel => self (with_model fallbackModel request) false
  | None => throw (new_Error "Max retries exceeded")
  end.

(** [for (let attempt = 0; attempt < maxAttempts; attempt++)], by the
    attempts that remain. *)
Fixpoint attempts (self : Request -> bool -> M string)
  (request : Request) (fallbackEnabled : bool) (remaining : nat)
  : M string :=
  match remaining with
  | O => exhausted self request fallbackEnabled
  | S remaining' =>
      step ← attempt self request fallbackEnabled ;
      match step with
      | Some r => mret r
      | None => attempts self request fallbackEnabled remaining'
      end
  end.

Definition maxAttempts (accountCount : Z) : Z :=
  Z.max MAX_RETRIES (accountCount + 1).

Definition sendMessage_body (self : Request -> bool -> M string)
  (anthropicRequest : Request) (fallbackEnabled : bool) : M string :=
  accountCount ← ask getAccountCount ;
  attempts self anthropicRequest fallbackEnabled
    (Z.to_nat (maxAttempts accountCount)).

(** [sendMessage]; [depth] bounds the nesting of its calls to
    itself. *)
Fixpoint sendMessage (depth : nat) (anthropicRequest : Request)
  (fallbackEnabled : bool) : M string :=
  match depth with
  | O => out_of_fuel
  | S depth' =>
      sendMessage_body (sendMessage depth') anthropicRequest
        fallbackEnabled
  end.

End Handler.

End MessageHandler.

(** ** Streaming handler: the streaming dispatcher (unnamed/part_001) *)

Module StreamingHandler.
Import Constants.

(** [Buffer.prototype.toString('hex')]. *)
Definition hex_digit (d : N) : ascii :=
  if (d <? 10)%N then ascii_of_N (48 + d) else ascii_of_N (87 + d).

Definition hex_of_byte (b : Byte.byte) : string :=
  let n := Byte.to_N b in
  String (hex_digit (n / 16)) (String (hex_digit (n mod 16)) EmptyString).

Definition toString_hex (bytes : list Byte.byte) : string :=
  foldr (fun b rest => hex_of_byte b ++ rest) "" bytes.

(** The events of [emitEmptyResponseFallback], for a message id. *)
Definition fallback_events (messageId model : string) : list StreamEvent :=
  [ message_start messageId model 0 0;
    content_block_start 0 "text" "";
    content_block_delta 0 "text_delta"
      "[No response after retries - please try again]";
    content_block_stop 0;
    message_delta (Some "end_turn") 0;
    message_stop ].

Section Handler.
Context `{W : World}.

(** *** The module's dedup map *)

Definition set_dedup (m : gmap string Z) : M unit := fun s =>
  (Ok tt,
   {| tick := tick s; calls := calls s; trace := trace s;
      message_dedup := message_dedup s; stream_dedup := m |}).

Definition get_dedup : M (gmap string Z) := fun s =>
  (Ok (stream_dedup s), s).

Definition shouldSkipRetryDueToDedup (model : string) : M bool :=
  lastRateLimitTimestamps ← get_dedup ;
  let lastTimestamp := lastRateLimitTimestamps !! model in
  if negb (JS.truthy lastTimestamp) then mret false
  else
    now ← ask Date_now ;
    let elapsed := now - default 0 lastTimestamp in
    if elapsed <? RATE_LIMIT_DEDUP_WINDOW_MS then mret true
    else mret false.

Definition recordRateLimitTimestamp (model : string) : M unit :=
  now ← ask Date_now ;
  lastRateLimitTimestamps ← get_dedup ;
  set_dedup (<[model := now]> lastRateLimitTimestamps).

Definition clearRateLimitTimestamp (model : string) : M unit :=
  lastRateLimitTimestamps ← get_dedup ;
  set_dedup (delete model lastRateLimitTimestamps).

(** The body of the [setInterval] sweeper. *)
Definition sweep : M unit :=
  now ← ask Date_now ;
  let cutoff := now - 60000 in
  lastRateLimitTimestamps ← get_dedup ;
  set_dedup (filter (fun entry => ~ (entry.2 < cutoff))
               lastRateLimitTimestamps).

(** *** Classification of error texts *)

Definition isPermanentAuthFailure (errorText : string) : bool :=
  let lower := toLowerCase errorText in
  JS.includes "invalid_grant" lower
  || JS.includes "token revoked" lower
  || JS.includes "token has been expired or revoked" lower
  || JS.includes "token_revoked" lower
  || JS.includes "invalid_client" lower
  || JS.includes "credentials are invalid" lower.

Definition isModelCapacityExhausted (errorText : string) : bool :=
  let lower := toLowerCase errorText in
  JS.includes "model_capacity_exhausted" lower
  || JS.includes "capacity_exhausted" lower
  || JS.includes "model is currently overloaded" lower
  || JS.includes "service temporarily unavailable" lower.

(** *** The empty-response fallback *)

Definition yield_all (events : list StreamEvent) : M unit :=
  foldr (fun event rest => emit (yield event) ;; rest) (mret tt) events.

Definition emitEmptyResponseFallback (model : string) : M unit :=
  bytes ← ask (fun t => map (randomByte t) (seq 0 16)) ;
  let messageId := "msg_" ++ toString_hex bytes in
  yield_all (fallback_events messageId model).

(** *** The endpoint loop *)

Definition rate_limit_decision (account : Account) (model : string)
  (vars : LoopVars) (resetMs : option Z) (errorText : string)
  : M (Ctl unit) :=
  skip ← shouldSkipRetryDueToDedup model ;
  if (skip : bool) then
    emit (markRateLimited (email account)
            (Some (JS.js_or resetMs DEFAULT_COOLDOWN_MS)) model) ;;
    throw (new_Error ("RATE_LIMITED_DEDUP: " ++ errorText))
  else if JS.truthy resetMs && (default 0 resetMs >? DEFAULT_COOLDOWN_MS)
  then
    emit (markRateLimited (email account) resetMs model) ;;
    throw (new_Error ("QUOTA_EXHAUSTED: " ++ errorText))
  else
    let waitMs := JS.js_or resetMs DEFAULT_COOLDOWN_MS in
    if negb (retriedOnce vars) then
      recordRateLimitTimestamp model ;;
      emit (sleep waitMs) ;;
      mret (Continue (retry_short vars))
    else
      emit (markRateLimited (email account) (Some waitMs) model) ;;
      throw (new_Error ("RATE_LIMITED: " ++ errorText)).

Definition handle_429 (account : Account) (model : string)
  (vars : LoopVars) (response : Response) (errorText : string)
  : M (Ctl unit) :=
  let resetMs := parseResetTime response errorText in
  if isModelCapacityExhausted errorText
     && (capacityRetryCount vars <? MAX_CAPACITY_RETRIES)
  then
    let waitMs := JS.js_or resetMs CAPACITY_RETRY_DELAY_MS in
    emit (sleep waitMs) ;;
    mret (Continue (retry_capacity vars))
  else rate_limit_decision account model vars resetMs errorText.

Definition handle_401 (account : Account) (vars : LoopVars)
  (errorText : string) : M (Ctl unit) :=
  if isPermanentAuthFailure errorText then
    emit (markInvalid (email account)
            "Token revoked - re-authentication required") ;;
    throw (new_Error ("AUTH_INVALID_PERMANENT: " ++ errorText))
  else
    emit (clearTokenCache (email account)) ;;
    emit (clearProjectCache (email account)) ;;
    mret (Continue (next_endpoint (lastError vars) vars)).

(** Every other status that is not ok. *)
Definition handle_other_error (vars : LoopVars) (response : Response)
  (errorText : string) : M (Ctl unit) :=
  let error :=
    new_Error ("API error " ++ JS.show (status response) ++ ": "
               ++ errorText) in
  (if (status response =? 403) || (status response =? 404) then mret tt
   else if status response >=? 500 then emit (sleep 1000)
   else mret tt) ;;
  mret (Continue (next_endpoint (Some error) vars)).

(** The answer to the POST re-issued after an empty response, when it
    is not ok; [Some r] is the response to go on with. *)
Definition retry_not_ok (account : Account) (model : string)
  (url : string) (init : FetchInit) (currentResponse : Response)
  : M Response :=
  let retryErrorText := text currentResponse in
  if status currentResponse =? 429 then
    let resetMs := parseResetTime currentResponse retryErrorText in
    emit (markRateLimited (email account) resetMs model) ;;
    throw (new_Error ("429 RESOURCE_EXHAUSTED during retry: "
                      ++ retryErrorText))
  else if status currentResponse =? 401 then
    if isPermanentAuthFailure retryErrorText then
      emit (markInvalid (email account)
              "Token revoked - re-authentication required") ;;
      throw (new_Error ("AUTH_INVALID_PERMANENT: " ++ retryErrorText))
    else
      emit (clearTokenCache (email account)) ;;
      emit (clearProjectCache (email account)) ;;
      throw (new_Error ("401 AUTH_INVALID during retry: "
                        ++ retryErrorText))
  else
    let failed (r : Response) : M Response :=
      throw (new_Error ("Empty response retry failed: "
                        ++ JS.show (status r) ++ " - " ++ retryErrorText))
    in
    if status currentResponse >=? 500 then
      emit (sleep 1000) ;;
      again ← do_fetch url init ;
      if ok again then mret again else failed again
    else failed currentResponse.

(** [for (let emptyRetries = 0; emptyRetries <= MAX_EMPTY_RESPONSE_RETRIES;
    emptyRetries++)], by the turns that remain; [Some tt] is [return],
    [None] is the end of the loop. *)
Fixpoint stream_with_retries (remaining : nat) (account : Account)
  (model : string) (url : string) (init : FetchInit)
  (currentResponse : Response) : M (option unit) :=
  match remaining with
  | O => mret None
  | S remaining' =>
      let emptyRetries :=
        MAX_EMPTY_RESPONSE_RETRIES - Z.of_nat remaining' in
      let (events, thrown) := streamSSEResponse currentResponse model in
      yield_all events ;;
      match thrown with
      | None =>
          clearRateLimitTimestamp model ;;
          emit (notifySuccess (email account) model) ;;
          mret (Some tt)
      | Some streamError =>
          if negb (isEmptyResponseError streamError)
          then throw streamError
          else if emptyRetries >=? MAX_EMPTY_RESPONSE_RETRIES then
            emitEmptyResponseFallback model ;;
            mret (Some tt)
          else
            let backoffMs := 500 * 2 ^ emptyRetries in
            emit (sleep backoffMs) ;;
            refetched ← do_fetch url init ;
            next ←
              (if negb (ok refetched)
               then retry_not_ok account model url init refetched
               else mret refetched) ;
            stream_with_retries remaining' account model url init next
      end
  end.

(** The [try] body of one turn of the [while] loop. *)
Definition endpoint_try (account : Account) (request : Request)
  (token body : string) (vars : LoopVars) : M (Ctl unit) :=
  let model := model request in
  let endpoint :=
    nth (endpointIndex vars) ANTIGRAVITY_ENDPOINT_FALLBACKS "" in
  let url := endpoint ++ "/v1internal:streamGenerateContent?alt=sse" in
  let init :=
    post {| h_token := token; h_model := model;
            h_accept := "text/event-stream" |} body in
  response ← do_fetch url init ;
  if negb (ok response) then
    let errorText := text response in
    if status response =? 401 then handle_401 account vars errorText
    else if status response =? 429
    then handle_429 account model vars response errorText
    else handle_other_error vars response errorText
  else
    done ← stream_with_retries
             (S (Z.to_nat MAX_EMPTY_RESPONSE_RETRIES)) account model url
             init response ;
    match done with
    | Some _ => mret (Return tt)
    | None => mret (Continue vars)
    end.

Definition endpoint_turn (account : Account) (request : Request)
  (token body : string) (vars : LoopVars) : M (Ctl unit) :=
  try_catch (endpoint_try account request token body vars)
    (fun endpointError =>
       if isRateLimitError endpointError then throw endpointError
       else if isEmptyResponseError endpointError
       then throw endpointError
       else mret (Continue (next_endpoint (Some endpointError) vars))).

Fixpoint endpoint_loop (fuel : nat) (account : Account)
  (request : Request) (token body : string) (vars : LoopVars)
  : M (Ctl unit) :=
  if (endpointIndex vars <? length ANTIGRAVITY_ENDPOINT_FALLBACKS)%nat
  then
    match fuel with
    | O => out_of_fuel
    | S fuel' =>
        step ← endpoint_turn account request token body vars ;
        match step with
        | Return r => mret (Return r)
        | Continue vars' =>
            endpoint_loop fuel' account request token body vars'
        end
    end
  else mret (Continue vars).

Definition endpoint_fuel : nat :=
  (length ANTIGRAVITY_ENDPOINT_FALLBACKS
   + Z.to_nat MAX_CAPACITY_RETRIES + 1)%nat.

Definition after_endpoints (account : Account) (model : string)
  (vars : LoopVars) : M unit :=
  match lastError vars with
  | Some e =>
      if is429 e then
        emit (markRateLimited (email account) (err_resetMs e) model) ;;
        throw (new_Error ("Rate limited: "
                          ++ show_string (err_errorText e)))
      else throw e
  | None => mret tt
  end.

(** *** The outer loop *)

Definition attempt_try (account : Account) (request : Request)
  : M (option unit) :=
  token ← (r ← ask (fun t => getTokenForAccount t account) ; lift r) ;
  project ←
    (r ← ask (fun t => getProjectForAccount t account token) ; lift r) ;
  body ← lift (buildCloudCodeRequest request project) ;
  step ← endpoint_loop endpoint_fuel account request token body
           initial_vars ;
  match step with
  | Return r => mret (Some r)
  | Continue vars =>
      after_endpoints account (model request) vars ;; mret None
  end.

Definition extended_cooldown (account : Account) (model : string)
  : M unit :=
  consecutiveFailures ←
    ask (fun t => getConsecutiveFailures t (email account)) ;
  if consecutiveFailures >=? MAX_CONSECUTIVE_FAILURES
  then emit (markRateLimited (email account) (Some EXTENDED_COOLDOWN_MS)
               model)
  else mret tt.

Definition attempt_catch (account : Account) (model : string)
  (error : Error) : M unit :=
  if isRateLimitError error then
    emit (notifyRateLimit (email account) model)
  else if isAuthError error then mret tt
  else if JS.includes "API error 5" (message error)
          || JS.includes "500" (message error)
          || JS.includes "503" (message error)
  then
    emit (notifyFailure (email account) model) ;;
    extended_cooldown account model
  else if Helpers.isNetworkError error then
    emit (notifyFailure (email account) model) ;;
    extended_cooldown account model ;;
    emit (sleep 1000)
  else throw error.

Definition resource_exhausted (model : string) (minWaitMs now : Z)
  : Error :=
  new_Error ("RESOURCE_EXHAUSTED: Rate limited on " ++ model
             ++ ". Quota will reset after "
             ++ Helpers.formatDuration minWaitMs
             ++ ". Next available: " ++ toISOString (now + minWaitMs)).

Definition no_accounts (self : Request -> bool -> M unit)
  (request : Request) (fallbackEnabled : bool) : M (option unit) :=
  let model := model request in
  allLimited ← ask (fun t => isAllRateLimited t model) ;
  if (allLimited : bool) then
    minWaitMs ← ask (fun t => getMinWaitTimeMs t model) ;
    now ← ask Date_now ;
    if minWaitMs >? MAX_WAIT_BEFORE_ERROR_MS then
      match (if fallbackEnabled then getFallbackModel model else None) with
      | Some fallbackModel =>
          self (with_model fallbackModel request) false ;;
          mret (Some tt)
      | None => throw (resource_exhausted model minWaitMs now)
      end
    else
      _ ← ask getAccountCount ;
      emit (sleep (minWaitMs + 500)) ;;
      emit clearExpiredLimits ;;
      mret None
  else throw (new_Error "No accounts available").

Definition attempt (self : Request -> bool -> M unit)
  (request : Request) (fallbackEnabled : bool) : M (option unit) :=
  let model := model request in
  emit clearExpiredLimits ;;
  emit (getAvailableAccounts model) ;;
  available ← ask (fun t => availableAccounts t model) ;
  if (length available =? 0)%nat
  then no_accounts self request fallbackEnabled
  else
    selection ← ask (fun t => selectAccount t model) ;
    match selection with
    | (None, waitMs) =>
        if waitMs >? 0 then emit (sleep (waitMs + 500)) ;; mret None
        else mret None
    | (Some account, _) =>
        try_catch (attempt_try account request)
          (fun error => attempt_catch account model error ;; mret None)
    end.

Definition exhausted (self : Request -> bool -> M unit)
  (request : Request) (fallbackEnabled : bool) : M unit :=
  match (if fallbackEnabled then getFallbackModel (model request)
         else None) with
  | Some fallbackModel => self (with_model fallbackModel request) false
  | None => throw (new_Error "Max retries exceeded")
  end.

Fixpoint attempts (self : Request -> bool -> M unit)
  (request : Request) (fallbackEnabled : bool) (remaining : nat)
  : M unit :=
  match remaining with
  | O => exhausted self request fallbackEnabled
  | S remaining' =>
      step ← attempt self request fallbackEnabled ;
      match step with
      | Some r => mret r
      | None => attempts self request fallbackEnabled remaining'
      end
  end.

Definition maxAttempts (accountCount : Z) : Z :=
  Z.max MAX_RETRIES (accountCount + 1).

Definition sendMessageStream_body (self : Request -> bool -> M unit)
  (anthropicRequest : Request) (fallbackEnabled : bool) : M unit :=
  accountCount ← ask getAccountCount ;
  attempts self anthropicRequest fallbackEnabled
    (Z.to_nat (maxAttempts accountCount)).

(** [sendMessageStream]; [depth] bounds the nesting of its calls to
    itself. *)
Fixpoint sendMessageStream (depth : nat) (anthropicRequest : Request)
  (fallbackEnabled : bool) : M unit :=
  match depth with
  | O => out_of_fuel
  | S depth' =>
      sendMessageStream_body (sendMessageStream depth') anthropicRequest
        fallbackEnabled
  end.

End Handler.

End StreamingHandler.

(** ** Shapes of traces and identifiers *)

Definition is_hex_char (c : ascii) : bool :=
  existsb (Ascii.eqb c) (list_ascii_of_string "0123456789abcdef").

(** [msg_] followed by 32 hexadecimal characters. *)
Definition is_message_id (id : string) : Prop :=
  exists hex,
    id = "msg_" ++ hex
    /\ String.length hex = 32%nat
    /\ forallb is_hex_char (list_ascii_of_string hex) = true.

Definition is_markRateLimited (e : Effect) : bool :=
  match e with
  | markRateLimited _ _ _ => true
  | _ => false
  end.

Definition is_fetch (e : Effect) : bool :=
  match e with
  | fetch _ _ => true
  | _ => false
  end.

Definition is_getAvailableAccounts (e : Effect) : bool :=
  match e with
  | getAvailableAccounts _ => true
  | _ => false
  end.

(** A run leaves the streaming handler's (the message handler's) dedup map
    as it was. *)
Definition keeps_stream_dedup (s s' : State) : Prop :=
  stream_dedup s' = stream_dedup s.

Definition keeps_message_dedup (s s' : State) : Prop :=
  message_dedup s' = message_dedup s.

Definition is_sleep (e : Effect) : bool :=
  match e with
  | sleep _ => true
  | _ => false
  end.

(** The turns of the outer loop in a trace: each turn reads the pool
    once. *)
Definition turns (t : list Effect) : nat :=
  length (List.filter is_getAvailableAccounts t).

(** What bounds the turns of the endpoint loop: the endpoints left, the
    capacity retries left, and the one short retry. *)
Definition loop_measure `{World} (vars : LoopVars) : nat :=
  (length ANTIGRAVITY_ENDPOINT_FALLBACKS - endpointIndex vars
   + Z.to_nat (Constants.MAX_CAPACITY_RETRIES - capacityRetryCount vars)
   + (if retriedOnce vars then 0 else 1))%nat.

(** ** Properties of dispatches *)

(** [m] never runs out of fuel. *)
Definition total {A} (m : M A) : Prop := forall s, (m s).1 <> OutOfFuel.

(** Every run of [m] takes its start state to an [R]-related one. *)
Definition steps (R : State -> State -> Prop) {A} (m : M A) : Prop :=
  forall s, R s (m s).2.

(** Every value [m] returns satisfies [Q]. *)
Definition returns {A} (m : M A) (Q : A -> Prop) : Prop :=
  forall s a s', m s = (Ok a, s') -> Q a.

(** The state once a turn of the outer loop has cleared expired limits,
    found the pool empty, and asked whether all accounts are limited, for
    how long, and the time. *)
Definition after_pool_check (model : string) (s : State) : State :=
  {| tick := S (S (S (S (tick s)))); calls := calls s;
     trace := (trace s ++ [clearExpiredLimits; getAvailableAccounts model])%list;
     message_dedup := message_dedup s; stream_dedup := stream_dedup s |}.


(** A run adds at most [n] turns of the outer loop. *)
Definition at_most (n : nat) (s s' : State) : Prop :=
  (turns (trace s') <= turns (trace s) + n)%nat.

(** How the POST re-issued after an empty response went when it ended in
    an answer: answered at once, or answered with a 5xx and then by the
    POST made once more. *)
Inductive Reissue :=
| at_once (r : Response)
| after_5xx (failed r : Response).

Definition reissue_answers (re : Reissue) : list Response :=
  match re with
  | at_once r => [r]
  | after_5xx failed r => [failed; r]
  end.

Definition reissue_response (re : Reissue) : Response :=
  match re with
  | at_once r => r
  | after_5xx _ r => r
  end.

Definition reissue_ok (re : Reissue) : Prop :=
  match re with
  | at_once r => ok r = true
  | after_5xx failed r => status failed >= 500 /\ ok r = true
  end.

(** What a re-issue adds to the trace: the backoff and the POST, and
    after a 5xx a sleep of one second and the POST once more. *)
Definition reissue_trace (url : string) (init : FetchInit) (backoffMs : Z)
  (re : Reissue) : list Effect :=
  [sleep backoffMs; fetch url init]
  ++ match re with
     | at_once _ => []
     | after_5xx _ _ => [sleep 1000; fetch url init]
     end.


Section Situations.
Context `{W : World}.

(** The fallback model a turn of the outer loop that starts in [s] hands
    the request to, if it does: the pool is empty, all accounts are
    rate-limited, the wait is longer than [MAX_WAIT_BEFORE_ERROR_MS],
    fallback is enabled and the model has a fallback. *)
Definition turn_falls_back (request : Request) (fallbackEnabled : bool)
  (s : State) : option string :=
  if (length (availableAccounts (tick s) (model request)) =? 0)%nat
     && isAllRateLimited (S (tick s)) (model request)
     && (getMinWaitTimeMs (S (S (tick s))) (model request)
         >? Constants.MAX_WAIT_BEFORE_ERROR_MS)
  then if fallbackEnabled then getFallbackModel (model request) else None
  else None.

(** The turns one dispatch may take when the ledger has [accountCount]
    accounts. *)
Definition turn_budget (k : nat) : nat :=
  Z.to_nat (Z.max Constants.MAX_RETRIES (getAccountCount k + 1)).

(** The URL and the options of the POST of a turn for a model that is
    not a thinking model. *)
Definition generate_url (vars : LoopVars) : string :=
  nth (endpointIndex vars) ANTIGRAVITY_ENDPOINT_FALLBACKS ""
  ++ "/v1internal:generateContent".

Definition generate_init (request : Request) (token body : string)
  : FetchInit :=
  post {| h_token := token; h_model := model request;
          h_accept := "application/json" |} body.

(** The URL and the options of the POST of a turn of the non-streaming
    endpoint loop. *)
Definition post_url (request : Request) (vars : LoopVars) : string :=
  let endpoint :=
    nth (endpointIndex vars) ANTIGRAVITY_ENDPOINT_FALLBACKS "" in
  if isThinkingModel (model request)
  then endpoint ++ "/v1internal:streamGenerateContent?alt=sse"
  else endpoint ++ "/v1internal:generateContent".

Definition post_init (request : Request) (token body : string)
  : FetchInit :=
  post {| h_token := token; h_model := model request;
          h_accept := if isThinkingModel (model request)
                      then "text/event-stream" else "application/json" |}
    body.

(** The state once a POST has been made and answered. *)
Definition posted (url : string) (init : FetchInit) (s : State) : State :=
  {| tick := tick s; calls := S (calls s);
     trace := (trace s ++ [fetch url init])%list;
     message_dedup := message_dedup s; stream_dedup := stream_dedup s |}.

(** A 429 that reports exhausted capacity and parses to no reset time. *)
Definition capacity_exhausted (r : Response) : Prop :=
  status r = 429
  /\ MessageHandler.isModelCapacityExhausted (text r) = true
  /\ parseResetTime r (text r) = None.

(** The parser ended with EmptyResponseError on this answer. *)
Definition came_back_empty (model : string) (r : Response) : Prop :=
  ok r = true
  /\ exists e, (streamSSEResponse r model).2 = Some e
               /\ isEmptyResponseError e = true.

Definition parser_events (model : string) (r : Response) : list Effect :=
  map yield (streamSSEResponse r model).1.

(** The URL and the options of the POST of a turn of the streaming
    endpoint loop. *)
Definition stream_post_url (vars : LoopVars) : string :=
  nth (endpointIndex vars) ANTIGRAVITY_ENDPOINT_FALLBACKS ""
  ++ "/v1internal:streamGenerateContent?alt=sse".

Definition stream_init (request : Request) (token body : string)
  : FetchInit :=
  post {| h_token := token; h_model := model request;
          h_accept := "text/event-stream" |} body.

(** The upstream calls from the [k]-th on are answered by [rs], in
    order. *)
Definition answers_from (k : nat) (url : string) (init : FetchInit)
  (rs : list Response) : Prop :=
  forall j r, rs !! j = Some r -> upstream (k + j) url init = Resolved r.

(** What the empty-response retries add to the trace, from the
    [emptyRetries]-th on: the events of the answer in hand, then the
    re-issue, whose backoff doubles from 500 ms. *)
Fixpoint retries_trace (model url : string) (init : FetchInit)
  (emptyRetries : Z) (current : Response) (res : list Reissue)
  : list Effect :=
  match res with
  | [] => []
  | re :: rest =>
      (parser_events model current
       ++ reissue_trace url init (500 * 2 ^ emptyRetries) re
       ++ retries_trace model url init (emptyRetries + 1)
            (reissue_response re) rest)%list
  end.

End Situations.

(** * The rest of the cited files *)

(** ** Throttled fetch and jitter (utils/helpers.js) *)

Module Throttle.

(** config.js is not among the sources; [throttledFetch] reads these two
    fields of it ([None] is a missing [requestDelayMs]). *)
Record Config := {
  requestThrottlingEnabled : bool;
  requestDelayMs : option Z
}.

Definition throttledFetch `{World} (config : Config) (url : string)
  (options : FetchInit) : M Response :=
  (if requestThrottlingEnabled config then
     let delayMs := JS.js_or (requestDelayMs config) 200 in
     if delayMs >? 0 then emit (sleep delayMs) else mret tt
   else mret tt) ;;
  do_fetch url options.


End Throttle.

(** ** Shapes of strings *)

Definition is_digit (c : ascii) : bool :=
  (48 <=? nat_of_ascii c)%nat && (nat_of_ascii c <=? 57)%nat.

Fixpoint all_digits (s : string) : bool :=
  match s with
  | EmptyString => true
  | String c rest => is_digit c && all_digits rest
  end.

(** [hay] contains [needle]. *)
Definition contains (needle hay : string) : Prop :=
  exists before after, hay = before ++ needle ++ after.

(** ** Requests with other messages *)

(** [{ ...request, messages }]. *)
Definition with_messages (ms : list Message) (r : Request) : Request :=
  {| model := model r; messages := ms; system := system r;
     tools := tools r; max_tokens := max_tokens r; stream := stream r |}.

(** A request that has only messages. *)
Definition only_messages (ms : list Message) : Request :=
  {| model := ""; messages := ms; system := SystemAbsent; tools := [];
     max_tokens := None; stream := None |}.

(** ** Properties of runs *)

(** Every error [m] throws satisfies [P]. *)
Definition throws_only {A} (m : M A) (P : Error -> Prop) : Prop :=
  forall s e s', m s = (Thrown e, s') -> P e.

(** The upstream calls in a trace. *)
Definition fetches (t : list Effect) : nat :=
  length (List.filter is_fetch t).

(** A run adds no turn of the outer loop and at most [n] upstream calls. *)
Definition within_fetches (n : nat) (s s' : State) : Prop :=
  turns (trace s') = turns (trace s)
  /\ (fetches (trace s') <= fetches (trace s) + n)%nat.

(** A run adds at most [c] upstream calls for each turn of the outer loop
    it adds. *)
Definition paced (c : nat) (s s' : State) : Prop :=
  (turns (trace s) <= turns (trace s'))%nat
  /\ (fetches (trace s') + c * turns (trace s)
      <= fetches (trace s) + c * turns (trace s'))%nat.

(** A run adds to the trace only effects that satisfy [allowed]. *)
Definition adds_only (allowed : Effect -> Prop) (s s' : State) : Prop :=
  exists t, trace s' = (trace s ++ t)%list /\ Forall allowed t.

(** What one attempt may do once an account is selected: call upstream
    without a signal, sleep, yield, and mark, clear or notify for that
    account and the model of the request. *)
Definition for_account (account : Account) (model : string) (e : Effect)
  : Prop :=
  match e with
  | clearExpiredLimits => False
  | getAvailableAccounts _ => False
  | markRateLimited who _ m => who = email account /\ m = model
  | markInvalid who _ => who = email account
  | clearTokenCache who => who = email account
  | clearProjectCache who => who = email account
  | notifySuccess who m => who = email account /\ m = model
  | notifyRateLimit who m => who = email account /\ m = model
  | notifyFailure who m => who = email account /\ m = model
  | sleep _ => True
  | fetch _ init => fi_signal init = None
  | yield _ => True
  end.

(** A mark for a wait that is known and not zero. *)
Definition marks_known_wait (e : Effect) : Prop :=
  match e with
  | markRateLimited _ ms _ => exists v, ms = Some v /\ v <> 0
  | sleep ms => ms <> 0
  | _ => True
  end.

Section Budgets.
Context `{W : World}.

(** The upstream calls one turn of the streaming endpoint loop can make:
    the POST, and for each empty-response retry the POST again and one
    more after a 5xx. *)
Definition stream_turn_fetches : nat :=
  (1 + 2 * Z.to_nat Constants.MAX_EMPTY_RESPONSE_RETRIES)%nat.

(** The upstream calls of one attempt of the streaming dispatcher. *)
Definition stream_attempt_fetches : nat :=
  (stream_turn_fetches * StreamingHandler.endpoint_fuel)%nat.

End Budgets.

(** ** A request that goes through at once *)

Section FirstTry.
Context `{W : World}.

(** The state after a dispatch that started in [s] and was answered on
    its first upstream call: five questions to the collaborators, one
    upstream call, and [added] done for it. *)
Definition answered_at_once (s : State) (added : list Effect)
  (message_dedup' stream_dedup' : gmap string Z) : State :=
  {| tick := S (S (S (S (S (tick s))))); calls := S (calls s);
     trace := (trace s ++ added)%list;
     message_dedup := message_dedup'; stream_dedup := stream_dedup' |}.

(** The URL and the options of the POST of the streaming dispatcher to
    the first endpoint. *)
Definition stream_url : string :=
  nth 0 ANTIGRAVITY_ENDPOINT_FALLBACKS ""
  ++ "/v1internal:streamGenerateContent?alt=sse".

End FirstTry.

(** ** Failing over the endpoints *)

Section Failover.
Context `{W : World}.

(** What the non-streaming endpoint loop does when every endpoint, from
    the given ones on, answers with the same error status that is
    neither 401 nor 429: one POST to each in turn, followed by a sleep
    of one second when the status is a 5xx. *)
Definition failover_trace (request : Request) (token body : string)
  (status : Z) (endpoints : list string) : list Effect :=
  flat_map (fun endpoint =>
              fetch (endpoint ++ "/v1internal:generateContent")
                (generate_init request token body)
              :: (if status >=? 500 then [sleep 1000] else []))
    endpoints.

(** The loop variables once the loop has run over all the endpoints that
    were left, with [error] as the last error. *)
Definition failed_over (error : Error) (vars : LoopVars) : LoopVars :=
  {| lastError :=
       if (endpointIndex vars <? length ANTIGRAVITY_ENDPOINT_FALLBACKS)%nat
       then Some error else lastError vars;
     retriedOnce := retriedOnce vars;
     capacityRetryCount := capacityRetryCount vars;
     endpointIndex :=
       Nat.max (endpointIndex vars)
         (length ANTIGRAVITY_ENDPOINT_FALLBACKS) |}.

End Failover.
(** ** Worked inputs *)

(** An account whose quota for ["m"] stands exactly at the critical
    threshold and was checked one second ago. *)
Definition account_at_threshold (now : Z) : Account := {|
  email := "a@example.com"; enabled := true; isInvalid := false;
  lastUsed := None; modelRateLimits := ∅;
  quota := Some {| lastChecked := Some (now - 1000);
                   models := {[ "m" := {| remainingFraction := Some 0.05%float |} ]} |}
|}.


(** An account whose quota for ["m"] was last checked at [checked] and
    stands at [fraction]. *)
Definition account_checked_at (checked : Z) (fraction : float) : Account := {|
  email := "a@example.com"; enabled := true; isInvalid := false;
  lastUsed := None; modelRateLimits := ∅;
  quota := Some {| lastChecked := Some checked;
                   models := {[ "m" := {| remainingFraction := Some fraction |} ]} |}
|}.

(** Scenario 6 of the specification: two accounts with the same health,
    tokens and [lastUsed], and quotas 0.20 and 0.80. *)
Definition quota_account (name : string) (fraction : float) (now : Z) : Account := {|
  email := name; enabled := true; isInvalid := false;
  lastUsed := Some now; modelRateLimits := ∅;
  quota := Some {| lastChecked := Some now;
                   models := {[ "model" := {| remainingFraction := Some fraction |} ]} |}
|}.

(** An account the operator has switched off. *)
Definition disabled_account : Account := {|
  email := "off@example.com"; enabled := false; isInvalid := false;
  lastUsed := None; modelRateLimits := ∅; quota := None
|}.

Definition scenario6_accounts (now : Z) : list Account :=
  [ quota_account "low-quota@example.com" 0.20 now;
    quota_account "high-quota@example.com" 0.80 now ].

Definition fresh_strategy : HybridStrategy.State :=
  {| HybridStrategy.healthTracker := ∅;
     HybridStrategy.tokenBucketTracker := ∅ |}.

(** A request that carries an image, and collaborators for it: every text
    is one token for the local estimate, an account manager that has an
    account, a token and a project, and two endpoints. *)
Definition image_block : Block := {|
  b_type := "image"; b_text := None; b_name := None; b_input := None;
  b_content := InnerOther; b_thinking := None
|}.

Definition image_request : Request := {|
  model := "claude-sonnet";
  messages := [ {| role := "user"; content := ContentArray [image_block] |} ];
  system := SystemAbsent; tools := []; max_tokens := Some 1024;
  stream := None
|}.

Definition one_token_each (text : string) : option (list Z) := Some [0].

Definition build_ok (request : Request) (project : string) : Error + string :=
  inr ("payload for " ++ project).

Definition two_endpoints : list string :=
  [ "https://daily.example"; "https://prod.example" ].

Definition some_account : Account := {|
  email := "a@example.com"; enabled := true; isInvalid := false;
  lastUsed := None; modelRateLimits := ∅; quota := None
|}.

Definition ready_manager : CountTokens.AccountManager := {|
  CountTokens.pickNext := fun _ => Some some_account;
  CountTokens.getTokenForAccount := fun _ => inr "token";
  CountTokens.getProjectForAccount := fun _ _ => inr "project"
|}.

(** Upstream answers 500 to every call. *)
Definition fetch_always_500 (k : nat) (url : string) (init : FetchInit)
  : CountTokens.FetchResult :=
  CountTokens.Resolved
    {| CountTokens.ok := false; CountTokens.status := 500;
       CountTokens.json := inl (new_Error "Unexpected end of JSON input") |}.

(** Upstream answers 503 on the first call and a body with
    [promptTokenCount = 1234] on the second. *)
Definition fetch_second_counts (k : nat) (url : string) (init : FetchInit)
  : CountTokens.FetchResult :=
  match k with
  | O =>
      CountTokens.Resolved
        {| CountTokens.ok := false; CountTokens.status := 503;
           CountTokens.json := inl (new_Error "Unexpected end of JSON input") |}
  | S _ =>
      CountTokens.Resolved
        {| CountTokens.ok := true; CountTokens.status := 200;
           CountTokens.json :=
             inr {| CountTokens.usageMetadata :=
                      Some {| CountTokens.promptTokenCount := Some 1234 |};
                    CountTokens.response_usageMetadata := None |} |}
  end.

(** [toLowerCase] on text of the ASCII range, where it maps A to Z and
    nothing else. *)
Definition lower_ascii (c : ascii) : ascii :=
  let n := nat_of_ascii c in
  if (65 <=? n)%nat && (n <=? 90)%nat then ascii_of_nat (n + 32) else c.

Fixpoint lower_ascii_text (s : string) : string :=
  match s with
  | EmptyString => EmptyString
  | String c rest => String (lower_ascii c) (lower_ascii_text rest)
  end.

(** errors.js is not among the sources.  The worked scenarios classify
    errors by these markers in the message. *)
Definition marks_rate_limit (e : Error) : bool :=
  JS.includes "429" (message e)
  || JS.includes "RESOURCE_EXHAUSTED" (message e)
  || JS.includes "QUOTA_EXHAUSTED" (message e)
  || JS.includes "RATE_LIMITED" (message e).

Definition marks_auth (e : Error) : bool :=
  JS.includes "AUTH_INVALID" (message e).

Definition empty_response_error : Error :=
  new_Error "No content parts received from API".

Definition marks_empty_response (e : Error) : bool :=
  String.eqb (message e) (message empty_response_error).

(** A world for the scenarios: upstream gives [answers] in order (and 200
    with an empty body after them), every 429 parses to [reset], the pool
    is [pool] and its first account is the one selected, and an empty body
    makes the SSE parser signal an empty response. *)
Definition scenario_world (answers : list Response) (reset : option Z)
  (fallback : option string) (pool : list Account) (minWait : Z) : World := {|
  toLowerCase := lower_ascii_text;
  ANTIGRAVITY_ENDPOINT_FALLBACKS := two_endpoints;
  isThinkingModel := fun _ => false;
  getFallbackModel := fun _ => fallback;
  isRateLimitError := marks_rate_limit;
  isAuthError := marks_auth;
  isEmptyResponseError := marks_empty_response;
  parseResetTime := fun _ _ => reset;
  buildCloudCodeRequest := build_ok;
  parseThinkingSSEResponse := fun r _ => inr (text r);
  response_json := fun r => inr (text r);
  convertGoogleToAnthropic := fun data _ => inr data;
  streamSSEResponse := fun r _ =>
    if String.eqb (text r) "" then ([], Some empty_response_error)
    else ([content_block_delta 0 "text_delta" (text r)], None);
  toISOString := fun ms => "epoch+" ++ JS.show ms ++ "ms";
  Date_now := fun t => 1700000000000 + 1000 * Z.of_nat t;
  randomByte := fun _ i => default Byte.x00 (Byte.of_nat (17 * i));
  upstream := fun k _ _ =>
    Resolved (nth k answers {| status := 200; text := "" |});
  getAccountCount := fun _ => 3;
  availableAccounts := fun _ _ => pool;
  isAllRateLimited := fun _ _ => true;
  getMinWaitTimeMs := fun _ _ => minWait;
  selectAccount := fun _ _ => (head pool, 0);
  getTokenForAccount := fun _ _ => inr "token";
  getProjectForAccount := fun _ _ _ => inr "project";
  getConsecutiveFailures := fun _ _ => 0
|}.

Definition text_request : Request := {|
  model := "claude-sonnet";
  messages := [ {| role := "user"; content := ContentString "hello" |} ];
  system := SystemAbsent; tools := []; max_tokens := Some 1024;
  stream := None
|}.

Definition capacity_429 : Response :=
  {| status := 429;
     text := "error: MODEL_CAPACITY_EXHAUSTED, no capacity available" |}.

Definition quota_429 : Response :=
  {| status := 429; text := "Quota exceeded for this minute" |}.

Definition answer_200 : Response :=
  {| status := 200; text := "Hello from upstream" |}.

(** Scenario 2 of the specification: three 429s that report exhausted
    capacity, with no reset time, and then a 200. *)
Definition scenario2_world : World :=
  scenario_world [capacity_429; capacity_429; capacity_429; answer_200]
    None None [some_account] 0.

Definition empty_200 : Response := {| status := 200; text := "" |}.


(** A second account, and a world whose strategy selects the first
    account of the pool in the first turn of the outer loop and the second
    from then on; upstream answers a 429 that parses to 30 s and then a
    200. *)
Definition other_account : Account := {|
  email := "b@example.com"; enabled := true; isInvalid := false;
  lastUsed := None; modelRateLimits := ∅; quota := None
|}.

Definition switching_world : World :=
  let base :=
    scenario_world [quota_429; answer_200] (Some 30000) None
      [some_account; other_account] 0 in
  {| toLowerCase := @toLowerCase base;
     ANTIGRAVITY_ENDPOINT_FALLBACKS := @ANTIGRAVITY_ENDPOINT_FALLBACKS base;
     isThinkingModel := @isThinkingModel base;
     getFallbackModel := @getFallbackModel base;
     isRateLimitError := @isRateLimitError base;
     isAuthError := @isAuthError base;
     isEmptyResponseError := @isEmptyResponseError base;
     parseResetTime := @parseResetTime base;
     buildCloudCodeRequest := @buildCloudCodeRequest base;
     parseThinkingSSEResponse := @parseThinkingSSEResponse base;
     response_json := @response_json base;
     convertGoogleToAnthropic := @convertGoogleToAnthropic base;
     streamSSEResponse := @streamSSEResponse base;
     toISOString := @toISOString base;
     Date_now := @Date_now base;
     randomByte := @randomByte base;
     upstream := @upstream base;
     getAccountCount := @getAccountCount base;
     availableAccounts := @availableAccounts base;
     isAllRateLimited := @isAllRateLimited base;
     getMinWaitTimeMs := @getMinWaitTimeMs base;
     selectAccount := fun t _ =>
       (Some (if (t <? 4)%nat then some_account else other_account), 0);
     getTokenForAccount := @getTokenForAccount base;
     getProjectForAccount := @getProjectForAccount base;
     getConsecutiveFailures := @getConsecutiveFailures base |}.

(** A world whose upstream gives the same answer to every call; the rest
    is that of the scenarios, with one account in the pool. *)
Definition always_answers (r : Response) : World :=
  let base := scenario_world [] None None [some_account] 0 in
  {| toLowerCase := @toLowerCase base;
     ANTIGRAVITY_ENDPOINT_FALLBACKS := @ANTIGRAVITY_ENDPOINT_FALLBACKS base;
     isThinkingModel := @isThinkingModel base;
     getFallbackModel := @getFallbackModel base;
     isRateLimitError := @isRateLimitError base;
     isAuthError := @isAuthError base;
     isEmptyResponseError := @isEmptyResponseError base;
     parseResetTime := @parseResetTime base;
     buildCloudCodeRequest := @buildCloudCodeRequest base;
     parseThinkingSSEResponse := @parseThinkingSSEResponse base;
     response_json := @response_json base;
     convertGoogleToAnthropic := @convertGoogleToAnthropic base;
     streamSSEResponse := @streamSSEResponse base;
     toISOString := @toISOString base;
     Date_now := @Date_now base;
     randomByte := @randomByte base;
     upstream := fun _ _ _ => Resolved r;
     getAccountCount := @getAccountCount base;
     availableAccounts := @availableAccounts base;
     isAllRateLimited := @isAllRateLimited base;
     getMinWaitTimeMs := @getMinWaitTimeMs base;
     selectAccount := @selectAccount base;
     getTokenForAccount := @getTokenForAccount base;
     getProjectForAccount := @getProjectForAccount base;
     getConsecutiveFailures := @getConsecutiveFailures base |}.

(** A world whose upstream rejects the first call, as a connection that
    cannot be opened does, and answers the calls after it. *)
Definition connection_refused : Error :=
  new_Error "connect ECONNREFUSED 10.0.0.1:443".

Definition rejecting_world : World :=
  let base := scenario_world [] None None [some_account] 0 in
  {| toLowerCase := @toLowerCase base;
     ANTIGRAVITY_ENDPOINT_FALLBACKS := @ANTIGRAVITY_ENDPOINT_FALLBACKS base;
     isThinkingModel := @isThinkingModel base;
     getFallbackModel := @getFallbackModel base;
     isRateLimitError := @isRateLimitError base;
     isAuthError := @isAuthError base;
     isEmptyResponseError := @isEmptyResponseError base;
     parseResetTime := @parseResetTime base;
     buildCloudCodeRequest := @buildCloudCodeRequest base;
     parseThinkingSSEResponse := @parseThinkingSSEResponse base;
     response_json := @response_json base;
     convertGoogleToAnthropic := @convertGoogleToAnthropic base;
     streamSSEResponse := @streamSSEResponse base;
     toISOString := @toISOString base;
     Date_now := @Date_now base;
     randomByte := @randomByte base;
     upstream := fun k _ _ =>
       match k with
       | O => Rejected connection_refused
       | S _ => Resolved answer_200
       end;
     getAccountCount := @getAccountCount base;
     availableAccounts := @availableAccounts base;
     isAllRateLimited := @isAllRateLimited base;
     getMinWaitTimeMs := @getMinWaitTimeMs base;
     selectAccount := @selectAccount base;
     getTokenForAccount := @getTokenForAccount base;
     getProjectForAccount := @getProjectForAccount base;
     getConsecutiveFailures := @getConsecutiveFailures base |}.

Definition unavailable_503 : Response :=
  {| status := 503; text := "upstream unavailable" |}.

(** A state whose message dedup map holds a timestamp half a second
    before the first reading of the scenarios' clock. *)
Definition recent_dedup_state : State :=
  {| tick := 0; calls := 0; trace := [];
     message_dedup := {[ "claude-sonnet" := 1699999999500 ]};
     stream_dedup := ∅ |}.
(** * Properties *)

(** ** The order of doubles *)

Lemma SFcompare_rank (x y : spec_float) :
  SFcompare x y
  = match rank x, rank y with
    | Some a, Some b => Some (rank_compare a b)
    | _, _ => None
    end.
Proof.
  destruct x as [[]|[]| |[] mx ex], y as [[]|[]| |[] my ey];
    try reflexivity; unfold rank_compare; cbn.
  all: rewrite ?Z.compare_opp.
  all: rewrite (Z.compare_antisym ex ey); destruct (ex ?= ey); cbn;
    try reflexivity; now rewrite Pos.compare_antisym.
Qed.

Lemma rank_compare_spec (a b : Z * Z * Z) :
  match rank_compare a b with
  | Eq => a.1.1 = b.1.1 /\ a.1.2 = b.1.2 /\ a.2 = b.2
  | Lt => a.1.1 < b.1.1 \/ (a.1.1 = b.1.1 /\ (a.1.2 < b.1.2 \/ (a.1.2 = b.1.2 /\ a.2 < b.2)))
  | Gt => b.1.1 < a.1.1 \/ (a.1.1 = b.1.1 /\ (b.1.2 < a.1.2 \/ (a.1.2 = b.1.2 /\ b.2 < a.2)))
  end.
Proof.
  destruct a as [[a1 a2] a3], b as [[b1 b2] b3]. unfold rank_compare. cbn.
  destruct (Z.compare_spec a1 b1); [|lia|lia].
  destruct (Z.compare_spec a2 b2); [|lia|lia].
  destruct (Z.compare_spec a3 b3); lia.
Qed.

Ltac float_order :=
  rewrite ?FloatAxioms.ltb_spec, ?FloatAxioms.leb_spec, ?FloatAxioms.eqb_spec in *;
  unfold SFltb, SFleb, SFeqb in *;
  rewrite ?SFcompare_rank in *;
  repeat match goal with
         | |- context [rank (Prim2SF ?x)] =>
             let r := fresh "r" in
             destruct (rank (Prim2SF x)) as [r|]
         | H : context [rank (Prim2SF ?x)] |- _ =>
             let r := fresh "r" in
             destruct (rank (Prim2SF x)) as [r|]
         end;
  try discriminate; try reflexivity;
  repeat match goal with
         | |- context [rank_compare ?a ?b] =>
             pose proof (rank_compare_spec a b);
             destruct (rank_compare a b)
         | H : context [rank_compare ?a ?b] |- _ =>
             pose proof (rank_compare_spec a b);
             destruct (rank_compare a b)
         end;
  try discriminate; try reflexivity;
  repeat match goal with
         | r : (Z * Z * Z)%type |- _ => destruct r as [[? ?] ?]
         end;
  cbn [fst snd] in *; try (exfalso; lia); try congruence.

Lemma leb_refl (x : float) : is_number x -> (x <=? x)%float = true.
Proof. unfold is_number. intros H. float_order. Qed.

Lemma ltb_leb_false (x y : float) :
  (x <? y)%float = true -> (y <=? x)%float = false.
Proof. intros H. float_order. Qed.

Lemma leb_trans (x y z : float) :
  (x <=? y)%float = true -> (y <=? z)%float = true -> (x <=? z)%float = true.
Proof. intros H1 H2. float_order. Qed.

Lemma ltb_trans (x y z : float) :
  (x <? y)%float = true -> (y <? z)%float = true -> (x <? z)%float = true.
Proof. intros H1 H2. float_order. Qed.

Lemma not_leb_ltb (x y : float) :
  is_number x -> is_number y ->
  (x <=? y)%float = false -> (y <? x)%float = true.
Proof. unfold is_number. intros H1 H2 H3. float_order. Qed.

Lemma leb_is_number (x y : float) :
  (x <=? y)%float = true -> is_number x /\ is_number y.
Proof. unfold is_number. intros H. split; float_order. Qed.

(** ** Subtraction of doubles tells their order *)

Lemma digits2_pos_bounds (m : positive) :
  2 ^ (Z.pos (digits2_pos m) - 1) <= Z.pos m < 2 ^ Z.pos (digits2_pos m).
Proof.
  induction m as [m IH|m IH|]; cbn [digits2_pos].
  - rewrite Pos2Z.inj_succ.
    replace (Z.succ (Z.pos (digits2_pos m)) - 1)
      with (Z.succ (Z.pos (digits2_pos m) - 1)) by lia.
    rewrite !Z.pow_succ_r by lia. lia.
  - rewrite Pos2Z.inj_succ.
    replace (Z.succ (Z.pos (digits2_pos m)) - 1)
      with (Z.succ (Z.pos (digits2_pos m) - 1)) by lia.
    rewrite !Z.pow_succ_r by lia. lia.
  - cbn. lia.
Qed.

Lemma shr_1_half (mrs : shr_record) :
  0 <= shr_m mrs -> shr_m (shr_1 mrs) = shr_m mrs / 2.
Proof.
  destruct mrs as [m r s]. cbn [shr_m]. intros Hm.
  destruct m as [|[p|p|]|p]; cbn [shr_1 shr_m]; try lia; try reflexivity.
  - rewrite Pos2Z.inj_xI. apply Z.div_unique with 1; lia.
  - rewrite Pos2Z.inj_xO. apply Z.div_unique with 0; lia.
Qed.

Lemma iter_shr_1 (p : positive) (mrs : shr_record) :
  0 <= shr_m mrs ->
  shr_m (SpecFloat.iter_pos shr_1 p mrs) = shr_m mrs / 2 ^ Z.pos p.
Proof.
  revert mrs. induction p as [p IH|p IH|]; intros mrs Hm; cbn [SpecFloat.iter_pos].
  - assert (0 <= shr_m (shr_1 mrs))
      by (rewrite shr_1_half by lia; apply Z.div_pos; lia).
    assert (0 <= shr_m (SpecFloat.iter_pos shr_1 p (shr_1 mrs)))
      by (rewrite IH by lia; apply Z.div_pos; lia).
    rewrite !IH, shr_1_half by lia.
    rewrite !Z.div_div by lia. f_equal.
    replace (2 ^ Z.pos p~1) with (2 ^ 1 * 2 ^ Z.pos p * 2 ^ Z.pos p)
      by (rewrite <- !Z.pow_add_r by lia; f_equal; lia).
    change (2 ^ 1) with 2. lia.
  - assert (0 <= shr_m (SpecFloat.iter_pos shr_1 p mrs))
      by (rewrite IH by lia; apply Z.div_pos; lia).
    rewrite !IH by lia. rewrite Z.div_div by lia. f_equal.
    rewrite <- Z.pow_add_r by lia. f_equal. lia.
  - rewrite shr_1_half by lia. reflexivity.
Qed.

Lemma shr_record_of_loc_m (m : Z) (l : location) :
  shr_m (shr_record_of_loc m l) = m.
Proof. destruct l as [|[]]; reflexivity. Qed.

(** Rounding a positive integer at an exponent in range leaves a positive
    mantissa. *)
Lemma shr_fexp_positive (m e : Z) (l : location) :
  0 < m -> SpecFloat.emin prec emax <= e ->
  0 < shr_m (shr_fexp prec emax m e l).1
  /\ SpecFloat.emin prec emax <= (shr_fexp prec emax m e l).2.
Proof.
  intros Hm He. unfold shr_fexp, shr.
  destruct m as [|m|m]; try lia. cbn [Zdigits2].
  pose proof (digits2_pos_bounds m) as [Hlow _].
  set (d := Z.pos (digits2_pos m)) in *.
  destruct (SpecFloat.fexp prec emax (d + e) - e) as [|n|n] eqn:En; cbn [fst snd];
    rewrite ?shr_record_of_loc_m; try (split; lia).
  rewrite iter_shr_1 by (rewrite shr_record_of_loc_m; lia).
  rewrite shr_record_of_loc_m.
  unfold SpecFloat.fexp, SpecFloat.emin in *.
  assert (Hn : Z.pos n = d - prec) by lia.
  split; [|lia].
  apply Z.div_str_pos. split; [lia|].
  apply Z.le_trans with (2 ^ (d - 1)); [|exact Hlow].
  apply Z.pow_le_mono_r; [lia|]. unfold prec in *. lia.
Qed.

Lemma round_nearest_even_positive (m : Z) (l : location) :
  0 < m -> 0 < round_nearest_even m l.
Proof.
  intros Hm. destruct l as [|[]]; cbn; try lia.
  destruct (Z.even m); lia.
Qed.

Lemma binary_round_aux_signed (s : bool) (m e : Z) (l : location) :
  0 < m -> SpecFloat.emin prec emax <= e ->
  signed s (binary_round_aux prec emax s m e l).
Proof.
  intros Hm He. unfold binary_round_aux.
  pose proof (shr_fexp_positive m e l Hm He) as [H1 H2].
  destruct (shr_fexp prec emax m e l) as [mrs' e']. cbn [fst snd] in *.
  pose proof (round_nearest_even_positive (shr_m mrs')
                (loc_of_shr_record mrs') H1) as H3.
  pose proof (shr_fexp_positive _ e' loc_Exact H3 H2) as [H4 _].
  destruct (shr_fexp prec emax _ e' loc_Exact) as [mrs'' e''].
  cbn [fst] in H4.
  destruct (shr_m mrs''); try lia.
  destruct (e'' <=? emax - prec); reflexivity.
Qed.

Lemma binary_round_signed (s : bool) (m : positive) (e : Z) :
  SpecFloat.emin prec emax <= e -> signed s (binary_round prec emax s m e).
Proof.
  intros He. unfold binary_round, shl_align.
  assert (SpecFloat.emin prec emax <= fexp prec emax (Z.pos (digits2_pos m) + e))
    by (unfold SpecFloat.fexp, SpecFloat.emin; lia).
  destruct (SpecFloat.fexp prec emax (Z.pos (digits2_pos m) + e) - e) eqn:E;
    apply binary_round_aux_signed; lia.
Qed.

Lemma iter_xO (m d : positive) :
  Z.pos (Pos.iter xO m d) = Z.pos m * 2 ^ Z.pos d.
Proof.
  revert m. induction d as [d IH|d IH|]; intros m; cbn [Pos.iter].
  - rewrite Pos2Z.inj_xO, !IH.
    replace (2 ^ Z.pos d~1) with (2 ^ 1 * 2 ^ Z.pos d * 2 ^ Z.pos d)
      by (rewrite <- !Z.pow_add_r by lia; f_equal; lia).
    lia.
  - rewrite !IH.
    replace (2 ^ Z.pos d~0) with (2 ^ Z.pos d * 2 ^ Z.pos d)
      by (rewrite <- !Z.pow_add_r by lia; f_equal; lia).
    lia.
  - rewrite Pos2Z.inj_xO. lia.
Qed.

Lemma shl_align_value (m : positive) (e e' : Z) :
  e' <= e -> Z.pos (shl_align m e e').1 = Z.pos m * 2 ^ (e - e').
Proof.
  intros H. unfold shl_align.
  destruct (e' - e) as [|d|d] eqn:E; cbn [fst]; try lia.
  - replace (e - e') with 0 by lia. lia.
  - rewrite iter_xO. f_equal. f_equal. lia.
Qed.

(** What a valid finite double says about its mantissa. *)
Lemma bounded_mantissa (m : positive) (e : Z) :
  bounded prec emax m e = true ->
  SpecFloat.emin prec emax <= e
  /\ Z.pos m < 2 ^ prec
  /\ (SpecFloat.emin prec emax < e -> 2 ^ (prec - 1) <= Z.pos m).
Proof.
  unfold bounded, canonical_mantissa, SpecFloat.fexp, SpecFloat.emin. intros H.
  apply andb_true_iff in H as [H _]. apply Z.eqb_eq in H.
  pose proof (digits2_pos_bounds m) as [Hlow Hhigh].
  set (d := Z.pos (digits2_pos m)) in *.
  assert (d <= prec) by lia.
  repeat split; [lia| |].
  - apply Z.lt_le_trans with (2 ^ d); [exact Hhigh|].
    apply Z.pow_le_mono_r; lia.
  - intros He. assert (d = prec) as <- by lia. exact Hlow.
Qed.

(** Two valid mantissas put at the smaller exponent compare as exponent
    and mantissa do. *)
Lemma aligned_compare (mx my : positive) (ex ey : Z) :
  bounded prec emax mx ex = true -> bounded prec emax my ey = true ->
  (Z.pos (shl_align mx ex (Z.min ex ey)).1
   ?= Z.pos (shl_align my ey (Z.min ex ey)).1)
  = match ex ?= ey with
    | Eq => Z.pos mx ?= Z.pos my
    | c => c
    end.
Proof.
  intros Hx Hy.
  apply bounded_mantissa in Hx as (Hex & Hmx & Hnx).
  apply bounded_mantissa in Hy as (Hey & Hmy & Hny).
  rewrite !shl_align_value by lia.
  assert (Hpow : 2 ^ prec = 2 * 2 ^ (prec - 1)) by reflexivity.
  destruct (Z.compare_spec ex ey) as [->|Hlt|Hgt].
  - rewrite Z.min_id, Z.sub_diag, Z.pow_0_r, !Z.mul_1_r. reflexivity.
  - rewrite Z.min_l by lia. rewrite Z.sub_diag, Z.pow_0_r, Z.mul_1_r.
    apply Z.compare_lt_iff.
    assert (2 ^ 1 <= 2 ^ (ey - ex)) by (apply Z.pow_le_mono_r; lia).
    specialize (Hny ltac:(lia)). nia.
  - rewrite Z.min_r by lia. rewrite Z.sub_diag, Z.pow_0_r, Z.mul_1_r.
    apply Z.compare_gt_iff.
    assert (2 ^ 1 <= 2 ^ (ex - ey)) by (apply Z.pow_le_mono_r; lia).
    specialize (Hnx ltac:(lia)). nia.
Qed.

Lemma binary_normalize_sign (z e : Z) :
  SpecFloat.emin prec emax <= e ->
  SFltb (S754_zero false) (binary_normalize prec emax z e false)
  = (0 <? z).
Proof.
  intros He. destruct z as [|m|m]; cbn [binary_normalize].
  - reflexivity.
  - pose proof (binary_round_signed false m e He) as H.
    destruct (binary_round prec emax false m e) as [| | |]; cbn in H;
      try contradiction; subst; reflexivity.
  - pose proof (binary_round_signed true m e He) as H.
    destruct (binary_round prec emax true m e) as [| | |]; cbn in H;
      try contradiction; subst; reflexivity.
Qed.

Lemma SFsub_positive (x y : spec_float) :
  SpecFloat.valid_binary prec emax x = true ->
  SpecFloat.valid_binary prec emax y = true ->
  x <> S754_nan -> y <> S754_nan ->
  SFltb (S754_zero false) (SFsub prec emax y x) = SFltb x y.
Proof.
  intros Hx Hy Nx Ny.
  destruct x as [sx|sx| |sx mx ex], y as [sy|sy| |sy my ey];
    try congruence;
    try (destruct sx, sy; reflexivity);
    try (destruct sx; reflexivity); try (destruct sy; reflexivity).
  cbn [SpecFloat.valid_binary] in Hx, Hy. cbn [SFsub].
  pose proof (bounded_mantissa _ _ Hx) as (Hex & _).
  pose proof (bounded_mantissa _ _ Hy) as (Hey & _).
  rewrite binary_normalize_sign by lia.
  pose proof (aligned_compare mx my ex ey Hx Hy) as Hc.
  rewrite Z.min_comm in Hc.
  unfold SFltb, SFcompare.
  set (a := Z.pos (shl_align mx ex (Z.min ey ex)).1) in *.
  set (b := Z.pos (shl_align my ey (Z.min ey ex)).1) in *.
  assert (0 < a /\ 0 < b) as [Ha Hb] by (subst a b; lia).
  change (Pos.compare_cont Eq mx my) with (Z.pos mx ?= Z.pos my).
  destruct sx, sy; cbn [cond_Zopp];
    destruct (ex ?= ey); destruct (Z.pos mx ?= Z.pos my); cbn [CompOpp];
    destruct (Z.compare_spec a b); try discriminate Hc;
    match goal with
    | |- (0 <? ?z) = _ => destruct (Z.ltb_spec 0 z)
    end; try reflexivity; lia.
Qed.

Lemma is_number_not_nan (x : float) : is_number x -> Prim2SF x <> S754_nan.
Proof.
  unfold is_number. rewrite FloatAxioms.eqb_spec. intros H E.
  rewrite E in H. discriminate.
Qed.

(** [b - a] is positive exactly when [a < b]: the comparator of a
    descending sort by subtraction is the order of the numbers. *)
Lemma sub_positive (x y : float) :
  is_number x -> is_number y -> (0 <? y - x)%float = (x <? y)%float.
Proof.
  intros Hx Hy. rewrite !FloatAxioms.ltb_spec, sub_spec.
  change (Prim2SF 0) with (S754_zero false).
  apply SFsub_positive; auto using Prim2SF_valid, is_number_not_nan.
Qed.


Lemma ltb_leb (x y : float) :
  (x <? y)%float = true -> (x <=? y)%float = true.
Proof. intros H. float_order. Qed.

Lemma eqb_leb (x y : float) :
  (x =? y)%float = true -> (x <=? y)%float = true.
Proof. intros H. float_order. Qed.

Lemma ltb_eqb_trans (x y z : float) :
  (x <? y)%float = true -> (z =? y)%float = true -> (x <? z)%float = true.
Proof. intros H1 H2. float_order. Qed.

Lemma not_ltb_leb (x y : float) :
  is_number x -> is_number y ->
  (x <? y)%float = false -> (y <=? x)%float = true.
Proof. unfold is_number. intros H1 H2 H3. float_order. Qed.

(** ** Quota tracker *)

Section QuotaTrackerFacts.
Import QuotaTracker.
Variable config : Config.
Variable now : Z.

Lemma getQuotaFraction_stored (account : Account) (modelId : string) :
  getQuotaFraction account modelId = stored_fraction account modelId.
Proof.
  unfold getQuotaFraction, stored_fraction.
  destruct (quota account) as [q|]; [|reflexivity]. cbn.
  destruct (models q !! modelId); reflexivity.
Qed.

(** The code's freshness test reads a [lastChecked] of 0 as missing. *)
Lemma isQuotaFresh_on_record (account : Account) :
  isQuotaFresh config now account = true
  <-> fresh_on_record config now account.
Proof.
  unfold isQuotaFresh, fresh_on_record.
  destruct (quota account) as [q|]; cycle 1.
  { split; [discriminate | intros (q & t & H & _); discriminate]. }
  destruct (lastChecked q) as [t|] eqn:Ht; simpl; cycle 1.
  { split; [discriminate | intros (q' & t & H & Hq & _)].
    inversion H; subst. congruence. }
  destruct (Z.eqb_spec t 0) as [->|Hnz]; simpl.
  - split; [discriminate | intros (q' & t & H & Hq & Hz & _)].
    inversion H; subst. rewrite Ht in Hq. inversion Hq; subst. lia.
  - rewrite Z.ltb_lt. split.
    + intros Hlt. exists q, t. auto.
    + intros (q' & t' & H & Hq & _ & Hlt). inversion H; subst.
      rewrite Ht in Hq. inversion Hq; subst. exact Hlt.
Qed.

End QuotaTrackerFacts.

Section QuotaTrackerContract.
Import QuotaTracker.
Variable config : Config.
Variable now : Z.

(** C7, as the code has it.  For every account and model:
    [isQuotaCritical] holds iff the fraction on record is a number, the
    quota data is fresh (the last check is on record, is not 0, and
    [now - lastChecked < staleMs]) and the fraction is at most
    [criticalThreshold], so a fraction equal to the threshold is
    critical; [isQuotaLow] holds iff the fraction on record is a
    number, strictly above [criticalThreshold] and at most
    [lowThreshold], so a fraction equal to [lowThreshold] is low;
    [getScore] is [unknownScore] when no fraction is on record and
    otherwise the double [fraction * 100], multiplied by [0.9] exactly
    when the data is not fresh.  The defaults are 0.05, 0.10 and 50. *)
Theorem quota_tracker_contract (account : Account) (modelId : string) :
  let stored := stored_fraction account modelId in
  let fresh := fresh_on_record config now account in
  (isQuotaCritical config now account modelId = true <->
     exists f, stored = Some f /\ fresh
               /\ (f <=? criticalThreshold config)%float = true)
  /\ (forall f, stored = Some f -> fresh ->
      (f =? criticalThreshold config)%float = true ->
      isQuotaCritical config now account modelId = true)
  /\ (isQuotaLow config account modelId = true <->
     exists f, stored = Some f
               /\ (criticalThreshold config <? f)%float = true
               /\ (f <=? lowThreshold config)%float = true)
  /\ (forall f, stored = Some f ->
      (f =? lowThreshold config)%float = true ->
      (criticalThreshold config <? lowThreshold config)%float = true ->
      isQuotaLow config account modelId = true)
  /\ (stored = None ->
      getScore config now account modelId = unknownScore config)
  /\ (forall f, stored = Some f ->
      (fresh -> getScore config now account modelId = (f * 100)%float)
      /\ (~ fresh ->
          getScore config now account modelId = (f * 100 * 0.9)%float))
  /\ criticalThreshold DEFAULT_CONFIG = 0.05%float
  /\ lowThreshold DEFAULT_CONFIG = 0.10%float
  /\ unknownScore DEFAULT_CONFIG = 50%float.
Proof.
  intros stored fresh. subst stored fresh.
  pose proof (isQuotaFresh_on_record config now account) as Hfresh.
  pose proof (getQuotaFraction_stored account modelId) as Hstored.
  assert (Hcritical :
    isQuotaCritical config now account modelId = true <->
    exists f, stored_fraction account modelId = Some f
              /\ fresh_on_record config now account
              /\ (f <=? criticalThreshold config)%float = true).
  { unfold isQuotaCritical. rewrite Hstored. split.
    - destruct (stored_fraction account modelId) as [f|]; [|discriminate].
      destruct (isQuotaFresh config now account) eqn:E; simpl;
        [|discriminate].
      intros Hle. exists f. repeat split; [now apply Hfresh | exact Hle].
    - intros (f & -> & Hage & Hle). apply Hfresh in Hage.
      now rewrite Hage. }
  assert (Hlow :
    isQuotaLow config account modelId = true <->
    exists f, stored_fraction account modelId = Some f
              /\ (criticalThreshold config <? f)%float = true
              /\ (f <=? lowThreshold config)%float = true).
  { unfold isQuotaLow. rewrite Hstored. split.
    - destruct (stored_fraction account modelId) as [f|]; [|discriminate].
      intros H. apply andb_true_iff in H as [Hl Hc]. exists f. auto.
    - intros (f & -> & Hc & Hl). now rewrite Hc, Hl. }
  split; [exact Hcritical|]. split; [|split; [exact Hlow|]].
  { intros f Hf Hage Heq. apply Hcritical. exists f.
    repeat split; [exact Hf | exact Hage | now apply eqb_leb]. }
  split; [|split; [|split; [|repeat split; reflexivity]]].
  - intros f Hf Heq Hlt. apply Hlow. exists f. repeat split.
    + exact Hf.
    + now apply ltb_eqb_trans with (lowThreshold config).
    + now apply eqb_leb.
  - intros Hnone. unfold getScore. now rewrite Hstored, Hnone.
  - intros f Hf. unfold getScore. rewrite Hstored, Hf. split.
    + intros Hage. apply Hfresh in Hage. now rewrite Hage.
    + intros Hstale.
      destruct (isQuotaFresh config now account) eqn:E; [|reflexivity].
      exfalso. apply Hstale. now apply Hfresh.
Qed.

End QuotaTrackerContract.

(** An account last checked at time 0 and read one second later: its
    quota is fresh by age and its fraction, 0.01, is below the critical
    threshold, yet it is not critical, because a [lastChecked] of 0 is
    read as missing.  And the score of a fresh fraction of 0.07 is the
    double next above 7, not 100 times the fraction. *)
Lemma quota_zero_lastChecked :
  let config := QuotaTracker.DEFAULT_CONFIG in
  QuotaTracker.fresh_by_age config 1000 (account_checked_at 0 0.01)
  /\ QuotaTracker.stored_fraction (account_checked_at 0 0.01) "m"
     = Some 0.01%float
  /\ (0.01 <=? QuotaTracker.criticalThreshold config)%float = true
  /\ QuotaTracker.isQuotaCritical config 1000 (account_checked_at 0 0.01) "m"
     = false
  /\ QuotaTracker.fresh_by_age config 1700000001000
       (account_checked_at 1700000000000 0.07)
  /\ QuotaTracker.getScore config 1700000001000
       (account_checked_at 1700000000000 0.07) "m"
     = 7.000000000000001%float
  /\ ~ (JS.exact (QuotaTracker.getScore config 1700000001000
                    (account_checked_at 1700000000000 0.07) "m")
        == JS.exact 0.07 * 100)%Q.
Proof.
  cbv zeta. split; [|split; [|split; [|split; [|split; [|split]]]]].
  - eexists _, 0. repeat split.
  - reflexivity.
  - reflexivity.
  - reflexivity.
  - eexists _, 1700000000000. repeat split.
  - reflexivity.
  - vm_compute. discriminate.
Qed.

(** At the default thresholds an account whose fraction stands exactly at
    the critical threshold, checked a second ago, is critical and not
    low. *)
Example quota_at_threshold :
  QuotaTracker.isQuotaCritical QuotaTracker.DEFAULT_CONFIG 1700000000000
    (account_at_threshold 1700000000000) "m" = true
  /\ QuotaTracker.isQuotaLow QuotaTracker.DEFAULT_CONFIG
       (account_at_threshold 1700000000000) "m" = false.
Proof. split; reflexivity. Qed.

(** ** Hybrid strategy *)

Section HybridStrategyFacts.
Import HybridStrategy.
Variable config : Config.
Variable Date_now : Reading -> Z.

Lemma getCandidates_candidate_set st accounts modelId :
  getCandidates config Date_now st accounts modelId
  = candidate_set config Date_now st accounts modelId.
Proof.
  unfold getCandidates, candidate_set.
  assert (Hstrict : forall l,
    List.filter (fun c =>
      let account := c_account c in
      if negb (BaseStrategy.isAccountUsable
                 (Date_now (filter_usable (c_index c))) account modelId)
      then false
      else if negb (HealthTracker.isUsable (healthScore config)
                      (healthTracker st) (email account)) then false
      else if negb (TokenBucketTracker.hasTokens (tokenBucket config)
                      (tokenBucketTracker st) (email account)) then false
      else if QuotaTracker.isQuotaCritical (quotaConfig config)
                (Date_now (filter_quota (c_index c))) account modelId
      then false
      else true) l
    = List.filter (eligible config Date_now st modelId true) l).
  { intros l. apply filter_ext. intros c. unfold eligible. cbv zeta.
    destruct (BaseStrategy.isAccountUsable _ _ _),
      (HealthTracker.isUsable _ _ _), (TokenBucketTracker.hasTokens _ _ _),
      (QuotaTracker.isQuotaCritical _ _ _ _); reflexivity. }
  assert (Hloose : forall l,
    List.filter (fun c =>
      let account := c_account c in
      if negb (BaseStrategy.isAccountUsable
                 (Date_now (fallback_usable (c_index c))) account modelId)
      then false
      else if negb (HealthTracker.isUsable (healthScore config)
                      (healthTracker st) (email account)) then false
      else if negb (TokenBucketTracker.hasTokens (tokenBucket config)
                      (tokenBucketTracker st) (email account)) then false
      else true) l
    = List.filter (eligible config Date_now st modelId false) l).
  { intros l. apply filter_ext. intros c. unfold eligible. cbv zeta.
    destruct (BaseStrategy.isAccountUsable _ _ _),
      (HealthTracker.isUsable _ _ _), (TokenBucketTracker.hasTokens _ _ _);
      reflexivity. }
  rewrite Hstrict, Hloose.
  destruct (List.filter (eligible config Date_now st modelId true) _);
    [|reflexivity].
  destruct (List.filter (eligible config Date_now st modelId false) _);
    reflexivity.
Qed.

(** On numbers the comparator puts [y] strictly before [x] exactly when
    [x] scores lower. *)
Lemma compareFn_positive (x y : Scored) :
  is_number (s_score x) -> is_number (s_score y) ->
  (0 <? compareFn x y)%float = (s_score x <? s_score y)%float.
Proof. intros Hx Hy. unfold compareFn. now apply sub_positive. Qed.

(** The head of the sorted array is the first of the highest scores. *)
Lemma sort_head (l : list Scored) :
  l <> [] -> Forall (fun d => is_number (s_score d)) l ->
  exists b before after rest,
    sort l = b :: rest
    /\ l = (before ++ b :: after)%list
    /\ Forall (fun d => (s_score d <? s_score b)%float = true) before
    /\ Forall (fun d => (s_score d <=? s_score b)%float = true) after.
Proof.
  induction l as [|x l IH]; [congruence|]. intros _ Hnum.
  apply Forall_cons in Hnum as [Hx Hnum].
  destruct l as [|y l].
  - exists x, [], [], []. repeat split; constructor.
  - destruct IH as (b & before & after & rest & Hs & Hl & Hb & Ha);
      [congruence | exact Hnum |].
    assert (Hnb : is_number (s_score b)).
    { rewrite Hl in Hnum. apply Forall_app in Hnum as [_ Hnum].
      now apply Forall_cons in Hnum as [Hnum _]. }
    change (sort (x :: y :: l)) with (insert_sorted x (sort (y :: l))).
    rewrite Hs. simpl. rewrite (compareFn_positive x b Hx Hnb).
    destruct (s_score x <? s_score b)%float eqn:E.
    + exists b, (x :: before), after, (insert_sorted x rest).
      repeat split; [now rewrite Hl | now constructor | exact Ha].
    + apply not_ltb_leb in E; [|exact Hx | exact Hnb].
      exists x, [], (y :: l), (b :: rest). repeat split; [constructor|].
      rewrite Hl. apply Forall_app. split.
      * eapply Forall_impl; [exact Hb|]. simpl. intros d Hd.
        apply leb_trans with (s_score b); [now apply ltb_leb | exact E].
      * constructor; [exact E|].
        eapply Forall_impl; [exact Ha|]. simpl. intros d Hd.
        now apply leb_trans with (s_score b).
Qed.

Lemma indexed_lookup (accounts : list Account) (c : Candidate) :
  In c (indexed accounts) -> accounts !! c_index c = Some (c_account c).
Proof.
  unfold indexed. intros Hin. apply list_elem_of_In in Hin.
  apply elem_of_lookup_imap in Hin as (i & a & -> & Hi). exact Hi.
Qed.

Lemma candidate_set_eligible st accounts modelId c :
  In c (candidate_set config Date_now st accounts modelId) ->
  In c (indexed accounts)
  /\ TokenBucketTracker.hasTokens (tokenBucket config)
       (tokenBucketTracker st) (email (c_account c)) = true.
Proof.
  unfold candidate_set.
  destruct (List.filter (eligible config Date_now st modelId true) _) eqn:E.
  - intros Hin. apply filter_In in Hin as [Hin Hel].
    split; [exact Hin|]. unfold eligible in Hel.
    apply andb_true_iff in Hel as [Hel _].
    now apply andb_true_iff in Hel as [_ Hel].
  - rewrite <- E. intros Hin. apply filter_In in Hin as [Hin Hel].
    split; [exact Hin|]. unfold eligible in Hel.
    apply andb_true_iff in Hel as [Hel _].
    now apply andb_true_iff in Hel as [_ Hel].
Qed.

End HybridStrategyFacts.

Section HybridStrategyContract.
Import HybridStrategy.
Variable config : Config.
Variable Date_now : Reading -> Z.

(** C3, as the code has it.  When no candidate's score is NaN,
    [selectAccount] returns the candidate with the highest score among
    the accounts that are sticky-usable, health-usable, hold a token and
    are not quota-critical (or, when that leaves nobody, the same set
    without the quota filter); ties go to the earlier account; the
    chosen account's bucket loses exactly one token and its [lastUsed]
    becomes the time read at that moment.  With no candidate the answer
    is the null selection and nothing changes.  The score is the double
    the code computes, each candidate's with its own readings of the
    clock: with the default weights,
    H * 2 + (tokens / maxTokens * 100) * 5 + Q * 3 + minutes * 0.1,
    added from the left, the minutes being the milliseconds since the
    last use, capped at 3600000, divided by 60000. *)
Theorem hybrid_selectAccount_best (st : State) (accounts : list Account)
  (modelId : string)
  (Hscores :
     Forall (fun c => is_number (computed_score config Date_now st modelId c))
       (candidate_set config Date_now st accounts modelId)) :
  let cands := candidate_set config Date_now st accounts modelId in
  let out := selectAccount config Date_now st accounts modelId in
  let tokens_of buckets e :=
    TokenBucketTracker.getTokens (tokenBucket config) buckets e in
  (cands = [] ->
   out = ({| account := None; index := 0%nat; waitMs := 0 |}, accounts, st))
  /\ (cands <> [] ->
      exists c,
        first_best config Date_now st modelId c cands
        /\ accounts !! c_index c = Some (c_account c)
        /\ let chosen := set_lastUsed (Date_now on_select) (c_account c) in
           out.1.1 = {| account := Some chosen; index := c_index c;
                        waitMs := 0 |}
           /\ lastUsed chosen = Some (Date_now on_select)
           /\ out.1.2 = <[c_index c := chosen]> accounts
           /\ healthTracker out.2 = healthTracker st
           /\ tokens_of (tokenBucketTracker out.2) (email chosen)
              = (tokens_of (tokenBucketTracker st) (email chosen) - 1)%float
           /\ forall e, e <> email chosen ->
                tokens_of (tokenBucketTracker out.2) e
                = tokens_of (tokenBucketTracker st) e)
  /\ (weights config = DEFAULT_WEIGHTS ->
      forall c,
        computed_score config Date_now st modelId c
        = (HealthTracker.getScore (healthScore config) (healthTracker st)
             (email (c_account c)) * 2
           + (tokens_of (tokenBucketTracker st) (email (c_account c))
              / TokenBucketTracker.getMaxTokens (tokenBucket config) * 100)
             * 5
           + QuotaTracker.getScore (quotaConfig config)
               (Date_now (score_quota (c_index c))) (c_account c) modelId
             * 3
           + JS.of_Z (Z.min (Date_now (score_lru (c_index c))
                             - JS.js_or (lastUsed (c_account c)) 0)
                        3600000)
             / 60000 * 0.1)%float).
Proof.
  intros cands out tokens_of. subst out. unfold selectAccount.
  rewrite getCandidates_candidate_set. fold cands.
  assert (Hnil : accounts = [] -> cands = []).
  { intros ->. reflexivity. }
  split; [|split].
  - intros Hc. rewrite Hc.
    destruct (length accounts =? 0)%nat; reflexivity.
  - intros Hc.
    destruct accounts as [|a0 accounts']; [now specialize (Hnil eq_refl)|].
    set (accounts := a0 :: accounts') in *.
    change (length accounts =? 0)%nat with false. cbv iota.
    destruct cands as [|c0 cands'] eqn:Ecands; [congruence|].
    rewrite <- Ecands.
    replace (length cands =? 0)%nat with false
      by (subst cands; rewrite Ecands; reflexivity).
    set (f := fun c => {| s_account := c_account c; s_index := c_index c;
                          s_score := calculateScore config st
                                       (Date_now (score_quota (c_index c)))
                                       (Date_now (score_lru (c_index c)))
                                       (c_account c) modelId |}).
    destruct (sort_head (map f cands)) as
      (b & before & after & rest & Hs & Hl & Hb & Ha).
    { subst cands. rewrite Ecands. discriminate. }
    { apply Forall_map. exact Hscores. }
    rewrite Hs.
    apply map_eq_app in Hl as (cb & ctl & Hcands & Hcb & Hctl).
    apply map_eq_cons in Hctl as (c & ca & -> & Hfc & Hca).
    subst b before after.
    assert (Hin : In c cands).
    { rewrite Hcands. apply in_or_app. right. left. reflexivity. }
    subst cands.
    apply candidate_set_eligible in Hin as [Hidx Htok].
    exists c. split; [|split].
    + exists cb, ca. split; [exact Hcands|]. split.
      * apply Forall_map in Hb. exact Hb.
      * apply Forall_map in Ha. exact Ha.
    + now apply indexed_lookup.
    + cbn [fst snd f s_account s_index].
      unfold TokenBucketTracker.consume. rewrite Htok.
      cbn [fst snd tokenBucketTracker healthTracker set_lastUsed email
           lastUsed].
      repeat split.
      * unfold tokens_of, TokenBucketTracker.getTokens.
        now rewrite lookup_insert_eq.
      * intros e He. unfold tokens_of, TokenBucketTracker.getTokens.
        now rewrite lookup_insert_ne by congruence.
  - intros Hw c. unfold computed_score, calculateScore. rewrite Hw.
    reflexivity.
Qed.

End HybridStrategyContract.

(** Scenario 6 of the specification, every reading of the clock the
    same: both accounts are candidates, their scores are numbers, and the
    one with quota 0.80 is the first best. *)
Lemma hybrid_selectAccount_best_witness :
  exists c,
    HybridStrategy.first_best HybridStrategy.DEFAULT_CONFIG
      (fun _ => 1700000000000) fresh_strategy "model" c
      (HybridStrategy.candidate_set HybridStrategy.DEFAULT_CONFIG
         (fun _ => 1700000000000) fresh_strategy
         (scenario6_accounts 1700000000000) "model")
    /\ scenario6_accounts 1700000000000 !! HybridStrategy.c_index c
       = Some (HybridStrategy.c_account c).
Proof.
  destruct (hybrid_selectAccount_best HybridStrategy.DEFAULT_CONFIG
              (fun _ => 1700000000000) fresh_strategy
              (scenario6_accounts 1700000000000) "model")
    as (_ & Hsome & _).
  - repeat constructor.
  - destruct Hsome as (c & Hbest & Hidx & _).
    + vm_compute. discriminate.
    + exists c. split; assumption.
Defined.

(** Scenario 6 run a minute later: the account with quota 0.80 is chosen,
    one token of its fifty is consumed, and its [lastUsed] advances. *)
Example hybrid_scenario6 :
  let out := HybridStrategy.selectAccount HybridStrategy.DEFAULT_CONFIG
               (fun _ => 1700000060000) fresh_strategy
               (scenario6_accounts 1700000000000) "model" in
  (email <$> HybridStrategy.account out.1.1) = Some "high-quota@example.com"
  /\ HybridStrategy.index out.1.1 = 1%nat
  /\ (lastUsed <$> out.1.2) = [Some 1700000000000; Some 1700000060000]
  /\ HybridStrategy.tokenBucketTracker out.2 !! "high-quota@example.com"
     = Some 49%float.
Proof. vm_compute. repeat split. Qed.

(** Two accounts that differ only in the last bit of their fractions,
    0.5 and the double next above it: both scores are the double 790, so
    the first account is chosen, although over the reals the second
    scores higher.  And an account whose fraction is NaN is chosen before
    one whose score is a number: its score is NaN, which no comparison
    puts behind another.  And for a list that holds one account, switched
    off, there is no candidate and no account is returned. *)
Lemma hybrid_rounding_tie :
  let config := HybridStrategy.DEFAULT_CONFIG in
  let clock (_ : HybridStrategy.Reading) := 1700000000000 in
  let first := {| HybridStrategy.c_account := quota_account "first" 0.5
                                                 1700000000000;
                  HybridStrategy.c_index := 0 |} in
  let second := {| HybridStrategy.c_account :=
                     quota_account "second" 0.50000000000000011
                       1700000000000;
                   HybridStrategy.c_index := 1 |} in
  let odd := {| HybridStrategy.c_account := quota_account "odd" nan
                                               1700000000000;
                HybridStrategy.c_index := 0 |} in
  let sound := {| HybridStrategy.c_account := quota_account "sound" 0.8
                                                 1700000000000;
                  HybridStrategy.c_index := 1 |} in
  let run accounts :=
    (HybridStrategy.selectAccount config clock fresh_strategy accounts
       "model").1.1 in
  let candidates accounts :=
    HybridStrategy.candidate_set config clock fresh_strategy accounts "model"
  in
  let computed := HybridStrategy.computed_score config clock fresh_strategy
                    "model" in
  let exact := HybridStrategy.exact_score config clock fresh_strategy "model"
  in
  candidates [HybridStrategy.c_account first; HybridStrategy.c_account second]
  = [first; second]
  /\ HybridStrategy.index
       (run [HybridStrategy.c_account first; HybridStrategy.c_account second])
     = 0%nat
  /\ computed first = 790%float /\ computed second = 790%float
  /\ (exact first < exact second)%Q
  /\ candidates [HybridStrategy.c_account odd; HybridStrategy.c_account sound]
     = [odd; sound]
  /\ HybridStrategy.index
       (run [HybridStrategy.c_account odd; HybridStrategy.c_account sound])
     = 0%nat
  /\ JS.isNaN (computed odd) = true
  /\ (computed sound <=? computed odd)%float = false
  /\ candidates [disabled_account] = []
  /\ HybridStrategy.account (run [disabled_account]) = None.
Proof. vm_compute. repeat split. Qed.

(** ** Token counter *)

Section CountTokensFacts.
Import CountTokens.
Variable encode : string -> option (list Z).
Variable buildCloudCodeRequest : Request -> string -> Error + string.
Variable ANTIGRAVITY_ENDPOINT_FALLBACKS : list string.
Variable fetch : nat -> string -> FetchInit -> FetchResult.

Lemma text_only_not_complex (request : Request) :
  text_only request -> hasComplexContent request = false.
Proof.
  intros [Hmsg Hsys]. unfold hasComplexContent.
  apply orb_false_iff. split.
  - apply not_true_is_false. intros H.
    apply existsb_exists in H as (message & Hin & H).
    destruct (content message) as [|blocks|] eqn:Ec; try discriminate.
    apply existsb_exists in H as (block & Hb & H).
    destruct (Hmsg message blocks block Hin Ec Hb) as [Hi Hd].
    apply orb_true_iff in H as [H|H]; apply String.eqb_eq in H; congruence.
  - destruct (system request) as [| |blocks] eqn:Es; try reflexivity.
    apply not_true_is_false. intros H.
    apply existsb_exists in H as (block & Hb & H).
    apply negb_true_iff in H. apply String.eqb_neq in H.
    apply H. now apply (Hsys blocks).
Qed.

Lemma image_or_document_complex (request : Request) :
  has_image_or_document request -> hasComplexContent request = true.
Proof.
  intros (message & blocks & block & Hin & Ec & Hb & Ht).
  unfold hasComplexContent. apply orb_true_iff. left.
  apply existsb_exists. exists message. split; [exact Hin|].
  rewrite Ec. apply existsb_exists. exists block. split; [exact Hb|].
  apply orb_true_iff. destruct Ht as [-> | ->]; [left|right]; reflexivity.
Qed.

(** The endpoint loop calls the endpoints in order up to the first that
    answers with a readable body, whose usage metadata gives the count;
    when none does it has called them all and fails. *)
Lemma try_endpoints_first headers body endpoints :
  forall k calls,
  let call e := (e ++ "/v1internal:generateContent", post headers body) in
  let out := try_endpoints fetch headers body endpoints k calls in
  (exists n endpoint data,
      endpoints !! n = Some endpoint
      /\ answered fetch (k + n) (call endpoint) data
      /\ (forall j e d, (j < n)%nat -> endpoints !! j = Some e ->
            ~ answered fetch (k + j) (call e) d)
      /\ out = (inr (JS.js_or
                       (promptTokenCount
                          (first_truthy (usageMetadata data)
                             (response_usageMetadata data))) 0),
                (calls ++ map call (take (S n) endpoints))%list))
  \/ ((forall j e d, endpoints !! j = Some e ->
         ~ answered fetch (k + j) (call e) d)
      /\ out = (inl (new_Error "Failed to count tokens via API"),
                (calls ++ map call endpoints)%list)).
Proof.
  induction endpoints as [|endpoint rest IH]; intros k calls call out.
  - right. subst out. simpl. rewrite app_nil_r. split; [|reflexivity].
    intros j e d H. discriminate.
  - subst out. simpl.
    fold (call endpoint).
    assert (Hrec :
      (forall d, ~ answered fetch k (call endpoint) d) ->
      let out := try_endpoints fetch headers body rest (S k)
                   (calls ++ [call endpoint]) in
      (exists n e data,
          (endpoint :: rest) !! n = Some e
          /\ answered fetch (k + n) (call e) data
          /\ (forall j e' d, (j < n)%nat ->
                (endpoint :: rest) !! j = Some e' ->
                ~ answered fetch (k + j) (call e') d)
          /\ out = (inr (JS.js_or
                           (promptTokenCount
                              (first_truthy (usageMetadata data)
                                 (response_usageMetadata data))) 0),
                    (calls ++ map call (take (S n) (endpoint :: rest)))%list))
      \/ ((forall j e' d, (endpoint :: rest) !! j = Some e' ->
             ~ answered fetch (k + j) (call e') d)
          /\ out = (inl (new_Error "Failed to count tokens via API"),
                    (calls ++ map call (endpoint :: rest))%list))).
    { intros Hno out.
      assert (Hhead : forall j e' d,
                (endpoint :: rest) !! j = Some e' ->
                (forall i e'' d', (S i = j)%nat -> rest !! i = Some e'' ->
                   ~ answered fetch (S k + i) (call e'') d') ->
                ~ answered fetch (k + j) (call e') d).
      { intros [|i] e' d Hj Hrest.
        - inversion Hj; subst e'. rewrite Nat.add_0_r. apply Hno.
        - replace (k + S i)%nat with (S k + i)%nat by lia.
          now apply (Hrest i e' d). }
      destruct (IH (S k) (calls ++ [call endpoint])%list)
        as [(n & e & data & Hn & Hans & Hbefore & Hout) | [Hnone Hout]].
      - left. exists (S n), e, data. split; [exact Hn|]. split.
        { now replace (k + S n)%nat with (S k + n)%nat by lia. }
        split.
        { intros j e' d Hlt Hj. apply Hhead; [exact Hj|].
          intros i e'' d' <- Hi. apply Hbefore; [lia | exact Hi]. }
        subst out. fold call in Hout. rewrite Hout.
        now rewrite <- app_assoc.
      - right. split.
        { intros j e' d Hj. apply Hhead; [exact Hj|].
          intros i e'' d' _ Hi. now apply Hnone. }
        subst out. fold call in Hout. rewrite Hout.
        now rewrite <- app_assoc. }
    destruct (fetch k (endpoint ++ "/v1internal:generateContent")
                (post headers body)) as [e|response] eqn:Ef.
    { apply Hrec. intros d (r & Hr & _). simpl in Hr. congruence. }
    destruct (ok response) eqn:Eok; simpl; cycle 1.
    { apply Hrec. intros d (r & Hr & Hok & _). simpl in Hr. congruence. }
    destruct (json response) as [e|data] eqn:Ej.
    { apply Hrec. intros d (r & Hr & Hok & Hj). simpl in Hr. congruence. }
    left. exists 0%nat, endpoint, data. rewrite Nat.add_0_r.
    split; [reflexivity|]. split; [exists response; auto|].
    split; [intros; lia | reflexivity].
Qed.

End CountTokensFacts.

Section CountTokensContract.
Import CountTokens.
Variable encode : string -> option (list Z).
Variable buildCloudCodeRequest : Request -> string -> Error + string.
Variable ANTIGRAVITY_ENDPOINT_FALLBACKS : list string.
Variable fetch : nat -> string -> FetchInit -> FetchResult.

Let countTokens :=
  countTokens encode buildCloudCodeRequest ANTIGRAVITY_ENDPOINT_FALLBACKS
    fetch.
Let countTokensLocally := countTokensLocally encode.
Let prepared := prepared buildCloudCodeRequest.

(** C8, as the code has it.  A count always answers
    [{ input_tokens: N }].  For a request whose message blocks are
    neither images nor documents and whose [system] array holds only
    text, [N] is the local estimate and nothing is sent upstream.  For a
    request with an image or a document and an account manager at hand,
    every upstream call is a POST to [generateContent] of the request
    rebuilt with [max_tokens = 1].  When no account, token, project or
    body is obtained there is no call and [N] is the local estimate.
    Otherwise the endpoints are called in their order, each once, up to
    the first that answers ok with a readable body: then the calls stop
    there and [N] is the prompt token count of its usage metadata (0
    when it has none); and [N] is the local estimate only after every
    endpoint was called and none answered so. *)
Theorem countTokens_paths (request : Request) :
  (text_only request -> forall accountManager,
     countTokens request accountManager false
     = ({| input_tokens := countTokensLocally request |}, []))
  /\ (has_image_or_document request -> forall accountManager,
      let out := countTokens request (Some accountManager) false in
      Forall (is_count_call buildCloudCodeRequest
                ANTIGRAVITY_ENDPOINT_FALLBACKS request) out.2
      /\ match prepared request accountManager with
         | None =>
             out = ({| input_tokens := countTokensLocally request |}, [])
         | Some (token, body) =>
             let call := count_call request token body in
             (exists n endpoint data,
                 ANTIGRAVITY_ENDPOINT_FALLBACKS !! n = Some endpoint
                 /\ answered fetch n (call endpoint) data
                 /\ (forall j e d, (j < n)%nat ->
                       ANTIGRAVITY_ENDPOINT_FALLBACKS !! j = Some e ->
                       ~ answered fetch j (call e) d)
                 /\ out.2
                    = map call (take (S n) ANTIGRAVITY_ENDPOINT_FALLBACKS)
                 /\ input_tokens out.1
                    = JS.js_or
                        (promptTokenCount
                           (first_truthy (usageMetadata data)
                              (response_usageMetadata data))) 0)
             \/ ((forall j e d,
                    ANTIGRAVITY_ENDPOINT_FALLBACKS !! j = Some e ->
                    ~ answered fetch j (call e) d)
                 /\ out.2 = map call ANTIGRAVITY_ENDPOINT_FALLBACKS
                 /\ input_tokens out.1 = countTokensLocally request)
         end).
Proof.
  split.
  - intros Htext am. unfold countTokens, CountTokens.countTokens.
    rewrite (text_only_not_complex request Htext). reflexivity.
  - intros Himg am out. subst out.
    unfold countTokens, prepared, CountTokens.countTokens,
      CountTokens.prepared.
    rewrite (image_or_document_complex request Himg).
    rewrite bool_decide_eq_true_2 by (eexists; reflexivity).
    cbn [orb andb]. unfold countTokensViaAPI.
    destruct (pickNext am (model request)) as [account|];
      [|simpl; split; [constructor | reflexivity]].
    destruct (getTokenForAccount am account) as [e|token];
      [simpl; split; [constructor | reflexivity]|].
    destruct (getProjectForAccount am account token) as [e|project];
      [simpl; split; [constructor | reflexivity]|].
    destruct (buildCloudCodeRequest (countRequest request) project)
      as [e|body] eqn:Eb;
      [simpl; split; [constructor | reflexivity]|].
    set (headers := {| h_token := token; h_model := model request;
                       h_accept := "application/json" |}).
    assert (Hcalls : forall l,
              (forall e, In e l -> In e ANTIGRAVITY_ENDPOINT_FALLBACKS) ->
              Forall (is_count_call buildCloudCodeRequest
                        ANTIGRAVITY_ENDPOINT_FALLBACKS request)
                (map (count_call request token body) l)).
    { intros l Hl. apply Forall_map, Forall_forall. intros e He.
      exists e, project. repeat split; [|exact Eb].
      apply Hl. now apply list_elem_of_In. }
    destruct (try_endpoints_first fetch headers body
                ANTIGRAVITY_ENDPOINT_FALLBACKS 0%nat [])
      as [(n & endpoint & data & Hn & Hans & Hbefore & Hout)
         | [Hnone Hout]];
      rewrite Hout; cbn [fst snd app].
    + split.
      * apply Hcalls. intros e He.
        apply list_elem_of_In, elem_of_take in He.
        destruct He as (i & He & _).
        apply list_elem_of_In. now apply list_elem_of_lookup_2 in He.
      * left. exists n, endpoint, data. repeat split; assumption.
    + split.
      * apply Hcalls. auto.
      * right. repeat split. exact Hnone.
Qed.

End CountTokensContract.

(** With every endpoint answering 500, the count of a request that carries
    an image is the local estimate (4: the per-message overhead), after
    two upstream calls, and no answer with usage metadata exists that it
    could have been read from. *)
Lemma countTokens_upstream_failure :
  let out := CountTokens.countTokens one_token_each build_ok two_endpoints
               fetch_always_500 image_request (Some ready_manager) false in
  CountTokens.has_image_or_document image_request
  /\ length out.2 = 2%nat
  /\ out.1 = {| CountTokens.input_tokens := 4 |}
  /\ ~ CountTokens.read_from_upstream fetch_always_500 out.2
         (CountTokens.input_tokens out.1).
Proof.
  cbv zeta. split; [|split; [|split]].
  - exists {| role := "user"; content := ContentArray [image_block] |},
      [image_block], image_block.
    repeat split; [left; reflexivity | left; reflexivity | left; reflexivity].
  - reflexivity.
  - reflexivity.
  - intros (k & call & data & usage & _ & (r & Hr & Hok & _) & _).
    unfold fetch_always_500 in Hr. inversion Hr; subst r. discriminate.
Qed.

Lemma countTokens_paths_witness :
  let out := CountTokens.countTokens one_token_each build_ok two_endpoints
               fetch_second_counts image_request (Some ready_manager) false in
  Forall (CountTokens.is_count_call build_ok two_endpoints image_request)
    out.2
  /\ out = ({| CountTokens.input_tokens := 1234 |},
            [ ("https://daily.example/v1internal:generateContent",
               post {| h_token := "token"; h_model := "claude-sonnet";
                       h_accept := "application/json" |}
                 "payload for project");
              ("https://prod.example/v1internal:generateContent",
               post {| h_token := "token"; h_model := "claude-sonnet";
                       h_accept := "application/json" |}
                 "payload for project") ]).
Proof.
  cbv zeta. split; [|reflexivity].
  apply (countTokens_paths one_token_each build_ok two_endpoints
           fetch_second_counts image_request).
  exists {| role := "user"; content := ContentArray [image_block] |},
    [image_block], image_block.
  repeat split; [left; reflexivity | left; reflexivity | left; reflexivity].
Defined.

(** ** Reasoning about dispatches *)

Section Total.

Lemma total_ret {A} (a : A) : total (mret a).
Proof. intros s. discriminate. Qed.

Lemma total_throw {A} (e : Error) : total (@throw A e).
Proof. intros s. discriminate. Qed.

Lemma total_bind {A B} (m : M A) (k : A -> M B) :
  total m -> (forall a, total (k a)) -> total (m ≫= k).
Proof.
  intros Hm Hk s. unfold mbind, M_bind. specialize (Hm s).
  destruct (m s) as [[a|e|] s']; simpl in *;
    [apply Hk | discriminate | congruence].
Qed.

Lemma total_try_catch {A} (m : M A) (h : Error -> M A) :
  total m -> (forall e, total (h e)) -> total (try_catch m h).
Proof.
  intros Hm Hh s. unfold try_catch. specialize (Hm s).
  destruct (m s) as [[a|e|] s']; simpl in *;
    [discriminate | apply Hh | congruence].
Qed.

Lemma total_lift {A} (r : Error + A) : total (lift r).
Proof. destruct r; [apply total_throw | apply total_ret]. Qed.

Lemma total_ask {A} (oracle : nat -> A) : total (ask oracle).
Proof. intros s. discriminate. Qed.

Lemma total_emit (e : Effect) : total (emit e).
Proof. intros s. discriminate. Qed.

Lemma total_do_fetch `{World} url init : total (do_fetch url init).
Proof.
  unfold do_fetch. apply total_bind; [apply total_emit|]. intros _.
  apply total_bind; [intros s; discriminate|]. intros [e|r];
    [apply total_throw | apply total_ret].
Qed.

End Total.

Section Steps.
Variable R : State -> State -> Prop.
Hypothesis R_refl : forall s, R s s.
Hypothesis R_trans : forall s1 s2 s3, R s1 s2 -> R s2 s3 -> R s1 s3.

Lemma steps_ret {A} (a : A) : steps R (mret a).
Proof. intros s. apply R_refl. Qed.

Lemma steps_throw {A} (e : Error) : steps R (@throw A e).
Proof. intros s. apply R_refl. Qed.

Lemma steps_out_of_fuel {A} : steps R (@out_of_fuel A).
Proof. intros s. apply R_refl. Qed.

Lemma steps_bind {A B} (m : M A) (k : A -> M B) :
  steps R m -> (forall a, steps R (k a)) -> steps R (m ≫= k).
Proof.
  intros Hm Hk s. unfold mbind, M_bind. specialize (Hm s).
  destruct (m s) as [[a|e|] s']; simpl in *; try exact Hm.
  eapply R_trans; [exact Hm | apply Hk].
Qed.

Lemma steps_try_catch {A} (m : M A) (h : Error -> M A) :
  steps R m -> (forall e, steps R (h e)) -> steps R (try_catch m h).
Proof.
  intros Hm Hh s. unfold try_catch. specialize (Hm s).
  destruct (m s) as [[a|e|] s']; simpl in *; try exact Hm.
  eapply R_trans; [exact Hm | apply Hh].
Qed.

Lemma steps_lift {A} (r : Error + A) : steps R (lift r).
Proof. destruct r; [apply steps_throw | apply steps_ret]. Qed.

End Steps.

Section Returns.

Lemma returns_ret {A} (a : A) (Q : A -> Prop) : Q a -> returns (mret a) Q.
Proof. intros H s a' s' E. inversion E; subst. exact H. Qed.

Lemma returns_throw {A} (e : Error) (Q : A -> Prop) : returns (throw e) Q.
Proof. intros s a s' E. discriminate. Qed.

Lemma returns_bind {A B} (m : M A) (k : A -> M B) (Q : B -> Prop) :
  (forall a, returns (k a) Q) -> returns (m ≫= k) Q.
Proof.
  intros Hk s b s' E. unfold mbind, M_bind in E.
  destruct (m s) as [[a|e|] s1]; try discriminate.
  eapply Hk. exact E.
Qed.

Lemma returns_try_catch {A} (m : M A) (h : Error -> M A) (Q : A -> Prop) :
  returns m Q -> (forall e, returns (h e) Q) -> returns (try_catch m h) Q.
Proof.
  intros Hm Hh s a s' E. unfold try_catch in E.
  destruct (m s) as [[a1|e|] s1] eqn:Em; try discriminate.
  - inversion E; subst. eapply Hm. exact Em.
  - eapply Hh. exact E.
Qed.

End Returns.

(** Running a dispatch one statement at a time. *)

Lemma run_emit {B} (e : Effect) (k : unit -> M B) (s : State) :
  (emit e ≫= k) s
  = k tt {| tick := tick s; calls := calls s; trace := (trace s ++ [e])%list;
            message_dedup := message_dedup s;
            stream_dedup := stream_dedup s |}.
Proof. reflexivity. Qed.

Lemma run_ask {A B} (oracle : nat -> A) (k : A -> M B) (s : State) :
  (ask oracle ≫= k) s
  = k (oracle (tick s))
      {| tick := S (tick s); calls := calls s; trace := trace s;
         message_dedup := message_dedup s; stream_dedup := stream_dedup s |}.
Proof. reflexivity. Qed.

Lemma run_ret {A B} (a : A) (k : A -> M B) (s : State) :
  (mret a ≫= k) s = k a s.
Proof. reflexivity. Qed.

Lemma run_throw {A B} (e : Error) (k : A -> M B) (s : State) :
  (throw e ≫= k) s = (Thrown e, s).
Proof. reflexivity. Qed.

Lemma run_assoc {A B C} (m : M A) (k : A -> M B) (h : B -> M C) (s : State) :
  ((m ≫= k) ≫= h) s = (m ≫= fun a => k a ≫= h) s.
Proof.
  unfold mbind, M_bind. destruct (m s) as [[a|e|] s']; reflexivity.
Qed.

Lemma run_fetch `{World} {B} (url : string) (init : FetchInit)
  (k : Response -> M B) (s : State) :
  (do_fetch url init ≫= k) s
  = let s' := {| tick := tick s; calls := S (calls s);
                 trace := (trace s ++ [fetch url init])%list;
                 message_dedup := message_dedup s;
                 stream_dedup := stream_dedup s |} in
    match upstream (calls s) url init with
    | Rejected e => (Thrown e, s')
    | Resolved r => k r s'
    end.
Proof.
  unfold do_fetch, call_upstream, emit, mbind, M_bind. simpl.
  destruct (upstream (calls s) url init); reflexivity.
Qed.

Ltac run :=
  repeat first
    [ rewrite run_emit | rewrite run_ask | rewrite run_ret
    | rewrite run_throw | rewrite run_assoc
    | progress cbn [tick calls trace message_dedup stream_dedup] ].

(** ** All accounts rate-limited *)

Section AllRateLimited.
Context `{W : World}.
Import Constants.


End AllRateLimited.


(** ** Waits *)

Lemma js_or_cases (x : option Z) (d : Z) :
  JS.js_or x d
  = match x with
    | Some v => if v =? 0 then d else v
    | None => d
    end.
Proof. reflexivity. Qed.

Lemma js_or_known (v d : Z) : v <> 0 -> JS.js_or (Some v) d = v.
Proof. intros H. unfold JS.js_or. now destruct (Z.eqb_spec v 0). Qed.

(** ** Capacity retries *)

Section CapacityRetry.
Context `{W : World}.
Import Constants MessageHandler.

(** One turn of the endpoint loop that meets such a 429 with retries
    left. *)
Lemma capacity_turn account request token body vars s r :
  isThinkingModel (model request) = false ->
  upstream (calls s) (generate_url vars)
    (generate_init request token body) = Resolved r ->
  capacity_exhausted r ->
  capacityRetryCount vars < MAX_CAPACITY_RETRIES ->
  endpoint_turn account request token body vars s
  = (Ok (Continue (retry_capacity vars)),
     {| tick := tick s; calls := S (calls s);
        trace := (trace s ++ [fetch (generate_url vars)
                                (generate_init request token body);
                              sleep CAPACITY_RETRY_DELAY_MS])%list;
        message_dedup := message_dedup s;
        stream_dedup := stream_dedup s |}).
Proof.
  intros Hthink Hup (Hstatus & Hcap & Hreset) Hleft.
  unfold endpoint_turn, try_catch, endpoint_try. rewrite Hthink.
  fold (generate_url vars). fold (generate_init request token body).
  rewrite run_fetch. cbv zeta. rewrite Hup.
  unfold ok. rewrite Hstatus. cbn [Z.leb Z.compare Pos.compare
    Pos.compare_cont andb negb Z.eqb Pos.eqb].
  unfold handle_429. rewrite Hcap, Hreset.
  assert (Hlt : (capacityRetryCount vars <? MAX_CAPACITY_RETRIES) = true)
    by now apply Z.ltb_lt.
  rewrite Hlt. cbn [andb JS.js_or]. run. cbn [tick calls trace].
  rewrite <- app_assoc. reflexivity.
Qed.

(** The turn that gets the answer. *)
Lemma answer_turn account request token body vars s r data result :
  isThinkingModel (model request) = false ->
  upstream (calls s) (generate_url vars)
    (generate_init request token body) = Resolved r ->
  status r = 200 ->
  response_json r = inr data ->
  convertGoogleToAnthropic data (model request) = inr result ->
  endpoint_turn account request token body vars s
  = (Ok (Return result),
     {| tick := tick s; calls := S (calls s);
        trace := (trace s ++ [fetch (generate_url vars)
                                (generate_init request token body);
                              notifySuccess (email account)
                                (model request)])%list;
        message_dedup := delete (model request) (message_dedup s);
        stream_dedup := stream_dedup s |}).
Proof.
  intros Hthink Hup Hstatus Hjson Hconvert.
  unfold endpoint_turn, try_catch, endpoint_try. rewrite Hthink.
  fold (generate_url vars). fold (generate_init request token body).
  rewrite run_fetch. cbv zeta. rewrite Hup.
  unfold ok. rewrite Hstatus. cbn [Z.leb Z.compare Pos.compare
    Pos.compare_cont andb negb].
  unfold read_answer. rewrite Hthink, Hjson.
  cbv [lift clearRateLimitTimestamp get_dedup set_dedup mbind M_bind mret
       M_ret emit tick calls trace message_dedup stream_dedup].
  rewrite Hconvert. rewrite <- app_assoc. reflexivity.
Qed.

Lemma endpoint_loop_turn fuel account request token body vars s :
  (endpointIndex vars < length ANTIGRAVITY_ENDPOINT_FALLBACKS)%nat ->
  endpoint_loop (S fuel) account request token body vars s
  = match endpoint_turn account request token body vars s with
    | (Ok (Return r), s') => (Ok (Return r), s')
    | (Ok (Continue vars'), s') =>
        endpoint_loop fuel account request token body vars' s'
    | (Thrown e, s') => (Thrown e, s')
    | (OutOfFuel, s') => (OutOfFuel, s')
    end.
Proof.
  intros Hlt. apply Nat.ltb_lt in Hlt. cbn [endpoint_loop]. rewrite Hlt.
  unfold mbind, M_bind.
  destruct (endpoint_turn account request token body vars s)
    as [[[r|vars']|e|] s']; reflexivity.
Qed.

(** C6, as the code has it.  A 429 whose body satisfies
    [isModelCapacityExhausted], while [capacityRetryCount] is below
    [MAX_CAPACITY_RETRIES] (3): the count goes up by one, the dispatcher
    sleeps [resetMs] when it is known and not zero and
    [CAPACITY_RETRY_DELAY_MS] (2000 ms) when it is unknown or zero, and
    the turn ends on the same endpoint with nothing marked.  With the
    three retries used, a further capacity 429 is handled by the
    dedup/long/short decision on the same endpoint.  Three capacity 429s
    in a row with no [resetMs] and then a 200: the loop reaches
    [capacityRetryCount = 3] on endpoint 0 after three sleeps of 2000 ms
    and then returns the answer, with no account marked. *)
Theorem capacity_retry_429 (account : Account) (request : Request)
  (token body : string) (vars : LoopVars) (response : Response)
  (errorText : string) (s : State) :
  let model := model request in
  let resetMs := parseResetTime response errorText in
  let waitMs :=
    match resetMs with
    | Some v => if v =? 0 then CAPACITY_RETRY_DELAY_MS else v
    | None => CAPACITY_RETRY_DELAY_MS
    end in
  let url := generate_url initial_vars in
  let init := generate_init request token body in
  let retried :=
    {| lastError := None; retriedOnce := false; capacityRetryCount := 3;
       endpointIndex := 0 |} in
  let call := fetch url init in
  let pause := sleep 2000 in
  MAX_CAPACITY_RETRIES = 3
  /\ CAPACITY_RETRY_DELAY_MS = 2000
  /\ (isModelCapacityExhausted errorText = true ->
      capacityRetryCount vars < MAX_CAPACITY_RETRIES ->
      handle_429 account model vars response errorText s
      = (Ok (Continue (retry_capacity vars)),
         {| tick := tick s; calls := calls s;
            trace := (trace s ++ [sleep waitMs])%list;
            message_dedup := message_dedup s;
            stream_dedup := stream_dedup s |})
      /\ capacityRetryCount (retry_capacity vars)
         = capacityRetryCount vars + 1
      /\ endpointIndex (retry_capacity vars) = endpointIndex vars)
  /\ (isModelCapacityExhausted errorText = true ->
      capacityRetryCount vars >= MAX_CAPACITY_RETRIES ->
      handle_429 account model vars response errorText s
      = rate_limit_decision account model vars resetMs errorText s)
  /\ (forall r1 r2 r3 r4 data result,
      (0 < length ANTIGRAVITY_ENDPOINT_FALLBACKS)%nat ->
      isThinkingModel model = false ->
      upstream (calls s) url init = Resolved r1 ->
      upstream (S (calls s)) url init = Resolved r2 ->
      upstream (S (S (calls s))) url init = Resolved r3 ->
      upstream (S (S (S (calls s)))) url init = Resolved r4 ->
      capacity_exhausted r1 -> capacity_exhausted r2 ->
      capacity_exhausted r3 ->
      status r4 = 200 ->
      response_json r4 = inr data ->
      convertGoogleToAnthropic data model = inr result ->
      endpoint_loop endpoint_fuel account request token body initial_vars s
      = endpoint_loop (S (length ANTIGRAVITY_ENDPOINT_FALLBACKS)) account
          request token body retried
          {| tick := tick s; calls := S (S (S (calls s)));
             trace := (trace s ++ [call; pause; call; pause; call;
                                   pause])%list;
             message_dedup := message_dedup s;
             stream_dedup := stream_dedup s |}
      /\ endpoint_loop endpoint_fuel account request token body
           initial_vars s
         = (Ok (Return result),
            {| tick := tick s; calls := S (S (S (S (calls s))));
               trace := (trace s ++ [call; pause; call; pause; call; pause;
                                     call;
                                     notifySuccess (email account) model])%list;
               message_dedup := delete model (message_dedup s);
               stream_dedup := stream_dedup s |})).
Proof.
  intros model resetMs waitMs url init retried call pause.
  split; [reflexivity|]. split; [reflexivity|]. split; [|split].
  - intros Hcap Hleft. split; [|split; reflexivity].
    unfold handle_429. rewrite Hcap.
    assert (Hlt : (capacityRetryCount vars <? MAX_CAPACITY_RETRIES) = true)
      by now apply Z.ltb_lt.
    rewrite Hlt. cbn [andb]. run. reflexivity.
  - intros Hcap Hused. unfold handle_429. rewrite Hcap.
    assert (Hlt : (capacityRetryCount vars <? MAX_CAPACITY_RETRIES) = false).
    { apply Z.ltb_ge. lia. }
    rewrite Hlt. reflexivity.
  - intros r1 r2 r3 r4 data result Hsome Hthink H1 H2 H3 H4 Hc1 Hc2 Hc3
      Hstatus Hjson Hconvert.
    assert (Hthree :
      endpoint_loop endpoint_fuel account request token body initial_vars s
      = endpoint_loop (S (length ANTIGRAVITY_ENDPOINT_FALLBACKS)) account
          request token body retried
          {| tick := tick s; calls := S (S (S (calls s)));
             trace := (trace s ++ [call; pause; call; pause; call;
                                   pause])%list;
             message_dedup := message_dedup s;
             stream_dedup := stream_dedup s |}).
    { replace endpoint_fuel
        with (S (S (S (S (length ANTIGRAVITY_ENDPOINT_FALLBACKS)))))
        by (unfold endpoint_fuel, MAX_CAPACITY_RETRIES; simpl Z.to_nat;
            lia).
      rewrite endpoint_loop_turn by exact Hsome.
      rewrite (capacity_turn account request token body initial_vars s r1
                 Hthink H1 Hc1 ltac:(reflexivity)).
      rewrite endpoint_loop_turn by exact Hsome.
      erewrite capacity_turn;
        [| exact Hthink | exact H2 | exact Hc2 | reflexivity].
      rewrite endpoint_loop_turn by exact Hsome.
      erewrite capacity_turn;
        [| exact Hthink | exact H3 | exact Hc3 | reflexivity].
      cbn [tick calls trace message_dedup stream_dedup].
      rewrite <- !app_assoc. reflexivity. }
    split; [exact Hthree|]. rewrite Hthree.
    rewrite endpoint_loop_turn by exact Hsome.
    erewrite answer_turn;
      [| exact Hthink | exact H4 | exact Hstatus | exact Hjson
       | exact Hconvert].
    cbn [tick calls trace message_dedup stream_dedup].
    rewrite <- !app_assoc. reflexivity.
Qed.

End CapacityRetry.

(** A capacity 429 parsed to [resetMs = 0]: the dispatcher sleeps
    [CAPACITY_RETRY_DELAY_MS], not the 0 ms that "sleeps resetMs when
    known" says. *)
Lemma capacity_retry_zero_reset :
  let W := scenario_world [] (Some 0) None [some_account] 0 in
  let out := MessageHandler.handle_429 (W := W) some_account "claude-sonnet"
               initial_vars capacity_429 (text capacity_429) initial_state in
  parseResetTime (World := W) capacity_429 (text capacity_429) = Some 0
  /\ MessageHandler.isModelCapacityExhausted (text capacity_429) = true
  /\ out.1 = Ok (Continue (retry_capacity initial_vars))
  /\ trace out.2 = [sleep 2000]
  /\ trace out.2
     <> [sleep (wait_when_known (Some 0) Constants.CAPACITY_RETRY_DELAY_MS)].
Proof. vm_compute. repeat split; discriminate. Qed.

(** Scenario 2 run: three sleeps of 2000 ms on the first endpoint, then
    the answer; nothing is marked. *)
Lemma capacity_retry_429_witness :
  let call :=
    fetch "https://daily.example/v1internal:generateContent"
      (post {| h_token := "token"; h_model := "claude-sonnet";
               h_accept := "application/json" |} "payload for project") in
  MessageHandler.endpoint_loop (W := scenario2_world)
    (MessageHandler.endpoint_fuel (W := scenario2_world)) some_account
    text_request "token" "payload for project" initial_vars initial_state
  = (Ok (Return "Hello from upstream"),
     {| tick := 0; calls := 4;
        trace := [call; sleep 2000; call; sleep 2000; call; sleep 2000; call;
                  notifySuccess "a@example.com" "claude-sonnet"];
        message_dedup := ∅; stream_dedup := ∅ |}).
Proof.
  cbv zeta.
  destruct (capacity_retry_429 (W := scenario2_world) some_account
              text_request "token" "payload for project" initial_vars
              capacity_429 (text capacity_429) initial_state)
    as (_ & _ & _ & _ & Hscenario).
  refine (proj2 (Hscenario capacity_429 capacity_429 capacity_429 answer_200
                   "Hello from upstream" "Hello from upstream"
                   _ _ _ _ _ _ _ _ _ _ _ _));
    first [ reflexivity | repeat split; reflexivity | vm_compute; lia ].
Defined.

(** ** Rate limits in the endpoint loop *)

Section RateLimitDecision.
Context `{W : World}.
Import Constants MessageHandler.


End RateLimitDecision.



(** An account switch from end to end.  The first account selected gets
    a 429 with a reset time of 30 s: it is marked, the strategy is told,
    and the next turn of the outer loop, in which the second account is
    selected, gets the answer. *)
Example account_switch :
  let call :=
    fetch "https://daily.example/v1internal:generateContent"
      (post {| h_token := "token"; h_model := "claude-sonnet";
               h_accept := "application/json" |} "payload for project") in
  MessageHandler.sendMessage (W := switching_world) 1 text_request false
    initial_state
  = (Ok "Hello from upstream",
     {| tick := 9; calls := 2;
        trace :=
          [ clearExpiredLimits; getAvailableAccounts "claude-sonnet"; call;
            markRateLimited "a@example.com" (Some 30000) "claude-sonnet";
            notifyRateLimit "a@example.com" "claude-sonnet";
            clearExpiredLimits; getAvailableAccounts "claude-sonnet"; call;
            notifySuccess "b@example.com" "claude-sonnet" ];
        message_dedup := ∅; stream_dedup := ∅ |}).
Proof. reflexivity. Qed.

(** ** Empty-response recovery of the streaming dispatcher *)

Lemma hex_of_byte_shape (b : Byte.byte) :
  exists c d,
    StreamingHandler.hex_of_byte b = String c (String d EmptyString)
    /\ is_hex_char c = true /\ is_hex_char d = true.
Proof.
  destruct b; do 2 eexists; (split; [reflexivity | split; reflexivity]).
Qed.

Lemma toString_hex_shape (bytes : list Byte.byte) :
  String.length (StreamingHandler.toString_hex bytes)
  = (2 * length bytes)%nat
  /\ forallb is_hex_char
       (list_ascii_of_string (StreamingHandler.toString_hex bytes)) = true.
Proof.
  unfold StreamingHandler.toString_hex.
  induction bytes as [|b rest [IHlen IHhex]]; [split; reflexivity|].
  destruct (hex_of_byte_shape b) as (c & d & Hb & Hc & Hd).
  cbn [foldr]. rewrite Hb.
  set (tail := foldr (fun b rest => StreamingHandler.hex_of_byte b ++ rest)
                 "" rest) in *.
  change (String c (String d EmptyString) ++ tail)
    with (String c (String d tail)).
  cbn [String.length list_ascii_of_string forallb].
  rewrite IHlen, IHhex, Hc, Hd. split; [cbn [length]; lia | reflexivity].
Qed.

Section EmptyResponse.
Context `{W : World}.
Import Constants StreamingHandler.

Lemma run_yield_all {B} (events : list StreamEvent) (k : unit -> M B)
  (s : State) :
  (yield_all events ≫= k) s
  = k tt {| tick := tick s; calls := calls s;
            trace := (trace s ++ map yield events)%list;
            message_dedup := message_dedup s;
            stream_dedup := stream_dedup s |}.
Proof.
  revert s. induction events as [|event rest IH]; intros s.
  - cbn [yield_all foldr map]. rewrite run_ret, app_nil_r.
    now destruct s.
  - cbn [yield_all foldr map]. rewrite run_assoc, run_emit.
    change (foldr (fun event rest => emit (yield event) ≫= fun _ => rest)
              (mret tt) rest) with (yield_all rest).
    rewrite IH. cbn [tick calls trace message_dedup stream_dedup].
    now rewrite <- app_assoc.
Qed.

(** A turn of the retry loop that meets an empty response with retries
    left, and the re-issue ends in an ok answer. *)
Lemma reissue_turn remaining account model url init current re s :
  (0 < remaining)%nat ->
  came_back_empty model current ->
  reissue_ok re ->
  answers_from (calls s) url init (reissue_answers re) ->
  stream_with_retries (S remaining) account model url init current s
  = stream_with_retries remaining account model url init
      (reissue_response re)
      {| tick := tick s;
         calls := (calls s + length (reissue_answers re))%nat;
         trace := (trace s ++ parser_events model current
                   ++ reissue_trace url init
                        (500 * 2 ^ (MAX_EMPTY_RESPONSE_RETRIES
                                    - Z.of_nat remaining)) re)%list;
         message_dedup := message_dedup s;
         stream_dedup := stream_dedup s |}.
Proof.
  intros Hleft (_ & e & He & Hempty) Hok Hup.
  cbn [stream_with_retries]. unfold parser_events.
  destruct (streamSSEResponse current model) as [events thrown].
  cbn [fst snd] in *. subst thrown. rewrite run_yield_all, Hempty.
  cbn [negb].
  assert (Hmore : (MAX_EMPTY_RESPONSE_RETRIES - Z.of_nat remaining
                   >=? MAX_EMPTY_RESPONSE_RETRIES) = false).
  { rewrite Z.geb_leb. apply Z.leb_gt. lia. }
  rewrite Hmore. run. rewrite run_fetch. cbv zeta.
  cbn [tick calls trace message_dedup stream_dedup].
  destruct re as [r | failed r]; cbn [reissue_answers reissue_response
    reissue_trace reissue_ok length] in *.
  - rewrite <- (Nat.add_0_r (calls s)) at 1.
    rewrite (Hup 0%nat r eq_refl), Hok. cbn [negb]. run.
    rewrite <- !app_assoc. rewrite Nat.add_1_r. reflexivity.
  - destruct Hok as [H5xx Hok].
    rewrite <- (Nat.add_0_r (calls s)) at 1.
    rewrite (Hup 0%nat failed eq_refl).
    assert (Hnot : ok failed = false).
    { unfold ok. apply andb_false_iff. right. apply Z.leb_gt. lia. }
    rewrite Hnot. cbn [negb]. unfold retry_not_ok.
    assert (H429 : (status failed =? 429) = false)
      by (apply Z.eqb_neq; lia).
    assert (H401 : (status failed =? 401) = false)
      by (apply Z.eqb_neq; lia).
    assert (Hge : (status failed >=? 500) = true)
      by (rewrite Z.geb_leb; apply Z.leb_le; lia).
    rewrite H429, H401, Hge. run. rewrite run_fetch. cbv zeta.
    cbn [tick calls trace message_dedup stream_dedup].
    rewrite <- (Nat.add_1_r (calls s)) at 1.
    rewrite (Hup 1%nat r eq_refl), Hok. run.
    rewrite <- !app_assoc.
    replace (S (S (calls s))) with (calls s + 2)%nat by lia.
    reflexivity.
Qed.

(** The turn that meets an empty response with no retry left. *)
Lemma last_empty_turn account model url init current s :
  came_back_empty model current ->
  stream_with_retries 1 account model url init current s
  = (Ok (Some tt),
     {| tick := S (tick s); calls := calls s;
        trace := (trace s ++ parser_events model current
                  ++ map yield
                       (fallback_events
                          ("msg_" ++ toString_hex
                                       (map (randomByte (tick s))
                                          (seq 0 16))) model))%list;
        message_dedup := message_dedup s;
        stream_dedup := stream_dedup s |}).
Proof.
  intros (_ & e & He & Hempty).
  cbn [stream_with_retries]. unfold parser_events.
  destruct (streamSSEResponse current model) as [events thrown].
  cbn [fst snd] in *. subst thrown. rewrite run_yield_all, Hempty.
  cbn [negb].
  change (MAX_EMPTY_RESPONSE_RETRIES - Z.of_nat 0
          >=? MAX_EMPTY_RESPONSE_RETRIES) with true. cbv iota.
  unfold emitEmptyResponseFallback. run. rewrite run_yield_all.
  cbn [tick calls trace message_dedup stream_dedup].
  rewrite <- !app_assoc. reflexivity.
Qed.

(** The turn whose answer the parser reads to its end. *)
Lemma complete_turn remaining account model url init current s :
  (streamSSEResponse current model).2 = None ->
  stream_with_retries (S remaining) account model url init current s
  = (Ok (Some tt),
     {| tick := tick s; calls := calls s;
        trace := (trace s ++ parser_events model current
                  ++ [notifySuccess (email account) model])%list;
        message_dedup := message_dedup s;
        stream_dedup := delete model (stream_dedup s) |}).
Proof.
  intros Hdone. cbn [stream_with_retries]. unfold parser_events.
  destruct (streamSSEResponse current model) as [events thrown].
  cbn [fst snd] in *. subst thrown. rewrite run_yield_all.
  cbv [clearRateLimitTimestamp get_dedup set_dedup mbind M_bind mret M_ret
       emit tick calls trace message_dedup stream_dedup].
  rewrite <- app_assoc. reflexivity.
Qed.

Lemma answers_from_app k url init rs1 rs2 :
  answers_from k url init (rs1 ++ rs2) ->
  answers_from k url init rs1
  /\ answers_from (k + length rs1) url init rs2.
Proof.
  intros H. split.
  - intros j r Hj. apply H. now apply lookup_app_l_Some.
  - intros j r Hj. rewrite <- Nat.add_assoc. apply H.
    rewrite lookup_app_r by lia.
    now replace (length rs1 + j - length rs1)%nat with j by lia.
Qed.

Lemma last_cons_default {A} (l : list A) (x d d' : A) :
  List.last (x :: l) d = List.last (x :: l) d'.
Proof.
  revert x. induction l as [|y l IH]; intros x; [reflexivity|].
  change (List.last (y :: l) d = List.last (y :: l) d'). apply IH.
Qed.

(** The re-issues that end in an ok answer, one after the other: the
    loop comes to the last answer with one turn less for each. *)
Lemma reissues_run account model url init :
  forall res remaining current s,
    (length res <= remaining)%nat ->
    Forall reissue_ok res ->
    Forall (came_back_empty model)
      (removelast (current :: map reissue_response res)) ->
    answers_from (calls s) url init (flat_map reissue_answers res) ->
    stream_with_retries (S remaining) account model url init current s
    = stream_with_retries (S (remaining - length res)) account model url
        init (List.last (map reissue_response res) current)
        {| tick := tick s;
           calls := (calls s
                     + length (flat_map reissue_answers res))%nat;
           trace := (trace s
                     ++ retries_trace model url init
                          (MAX_EMPTY_RESPONSE_RETRIES - Z.of_nat remaining)
                          current res)%list;
           message_dedup := message_dedup s;
           stream_dedup := stream_dedup s |}.
Proof.
  induction res as [|re rest IH]; intros remaining current s Hlen Hok
    Hempty Hans.
  - cbn [length flat_map retries_trace map List.last].
    rewrite Nat.sub_0_r, Nat.add_0_r, app_nil_r. now destruct s.
  - cbn [length] in Hlen. destruct remaining as [|remaining]; [lia|].
    apply Forall_cons in Hok as [Hre Hok].
    change (removelast (current :: map reissue_response (re :: rest)))
      with (current
            :: removelast (reissue_response re :: map reissue_response rest))
      in Hempty.
    apply Forall_cons in Hempty as [Hcurrent Hnext].
    cbn [flat_map] in Hans.
    apply answers_from_app in Hans as [Hans1 Hans2].
    rewrite (reissue_turn (S remaining) account model url init current re
               s ltac:(lia) Hcurrent Hre Hans1).
    erewrite (IH remaining (reissue_response re));
      [| lia | exact Hok | exact Hnext | exact Hans2].
    cbn [tick calls trace message_dedup stream_dedup length flat_map
         retries_trace map].
    replace (MAX_EMPTY_RESPONSE_RETRIES - Z.of_nat remaining)
      with (MAX_EMPTY_RESPONSE_RETRIES - Z.of_nat (S remaining) + 1)
      by lia.
    replace (List.last (reissue_response re :: map reissue_response rest)
               current)
      with (List.last (map reissue_response rest) (reissue_response re))
      by (destruct rest as [|re' rest']; [reflexivity|]; cbn [map];
          etransitivity;
          [apply (last_cons_default _ _ _ current) | reflexivity]).
    rewrite length_app, <- !app_assoc, Nat.add_assoc. reflexivity.
Qed.

Lemma parser_events_no_mark model r :
  existsb is_markRateLimited (parser_events model r) = false.
Proof.
  unfold parser_events.
  induction (streamSSEResponse r model).1 as [|event rest IH];
    [reflexivity | exact IH].
Qed.

Lemma retries_trace_no_mark model url init k current res :
  existsb is_markRateLimited (retries_trace model url init k current res)
  = false.
Proof.
  revert k current. induction res as [|re rest IH]; intros k current;
    [reflexivity|].
  cbn [retries_trace]. rewrite !existsb_app, parser_events_no_mark, IH.
  destruct re; reflexivity.
Qed.

(** C4, as the code has it.  In the streaming dispatcher, when the SSE
    parser signals EmptyResponseError on the answer to the POST of a
    turn, the dispatcher sleeps and re-issues the same POST, up to
    [MAX_EMPTY_RESPONSE_RETRIES] = 3 times, the sleeps before the
    re-issues being exactly 500, 1000 and 2000 ms; a re-issued POST that
    is answered with a 5xx is made once more after one further second.
    When a re-issue ends in an answer the parser reads to its end, the
    dispatch returns with the success notified.  When the parser signals
    EmptyResponseError on the answer of the third re-issue too, the
    dispatcher yields exactly six events (message_start with an id of
    the form msg_ plus 32 hex characters, content_block_start of type
    text, one content_block_delta with the text "[No response after
    retries - please try again]", content_block_stop, message_delta with
    stop_reason "end_turn", message_stop) and returns normally, without
    a call of markRateLimited. *)
Theorem empty_response_fallback (account : Account) (request : Request)
  (token body : string) (vars : LoopVars) (r0 : Response)
  (res : list Reissue) (s : State)
  (Hfirst : upstream (calls s) (stream_post_url vars)
              (stream_init request token body) = Resolved r0)
  (Hr0 : came_back_empty (model request) r0)
  (Hcount : (length res <= Z.to_nat MAX_EMPTY_RESPONSE_RETRIES)%nat)
  (Hres : Forall reissue_ok res)
  (Hmiddle : Forall (came_back_empty (model request))
               (removelast (map reissue_response res)))
  (Hanswers : answers_from (S (calls s)) (stream_post_url vars)
                (stream_init request token body)
                (flat_map reissue_answers res)) :
  let m := model request in
  let url := stream_post_url vars in
  let init := stream_init request token body in
  let final := List.last (map reissue_response res) r0 in
  let messageId :=
    "msg_" ++ toString_hex (map (randomByte (tick s)) (seq 0 16)) in
  let six :=
    [ message_start messageId m 0 0;
      content_block_start 0 "text" "";
      content_block_delta 0 "text_delta"
        "[No response after retries - please try again]";
      content_block_stop 0;
      message_delta (Some "end_turn") 0;
      message_stop ] in
  let retried :=
    ([fetch url init] ++ retries_trace m url init 0 r0 res
     ++ parser_events m final)%list in
  let made := (S (calls s) + length (flat_map reissue_answers res))%nat in
  MAX_EMPTY_RESPONSE_RETRIES = 3
  /\ (forall r1 r2 r3 current,
        retries_trace m url init 0 current
          [at_once r1; at_once r2; at_once r3]
        = (parser_events m current ++ [sleep 500; fetch url init]
           ++ parser_events m r1 ++ [sleep 1000; fetch url init]
           ++ parser_events m r2 ++ [sleep 2000; fetch url init])%list)
  /\ ((streamSSEResponse final m).2 = None ->
      endpoint_turn account request token body vars s
      = (Ok (Return tt),
         {| tick := tick s; calls := made;
            trace := (trace s ++ retried
                      ++ [notifySuccess (email account) m])%list;
            message_dedup := message_dedup s;
            stream_dedup := delete m (stream_dedup s) |}))
  /\ (length res = Z.to_nat MAX_EMPTY_RESPONSE_RETRIES ->
      came_back_empty m final ->
      endpoint_turn account request token body vars s
      = (Ok (Return tt),
         {| tick := S (tick s); calls := made;
            trace := (trace s ++ retried ++ map yield six)%list;
            message_dedup := message_dedup s;
            stream_dedup := stream_dedup s |})
      /\ is_message_id messageId
      /\ existsb is_markRateLimited (retried ++ map yield six) = false).
Proof.
  intros m url init final messageId six retried made.
  assert (Hempty : Forall (came_back_empty m)
                     (removelast (r0 :: map reissue_response res))).
  { destruct res as [|re rest]; [constructor|].
    change (removelast (r0 :: map reissue_response (re :: rest)))
      with (r0 :: removelast (map reissue_response (re :: rest))).
    now constructor. }
  set (s' := {| tick := tick s; calls := made;
                trace := (trace s ++ [fetch url init]
                          ++ retries_trace m url init 0 r0 res)%list;
                message_dedup := message_dedup s;
                stream_dedup := stream_dedup s |}).
  assert (Hturn :
    endpoint_turn account request token body vars s
    = match stream_with_retries
              (S (Z.to_nat MAX_EMPTY_RESPONSE_RETRIES - length res))
              account m url init final s' with
      | (Ok (Some _), s'') => (Ok (Return tt), s'')
      | (Ok None, s'') => (Ok (Continue vars), s'')
      | (Thrown e, s'') =>
          if isRateLimitError e then (Thrown e, s'')
          else if isEmptyResponseError e then (Thrown e, s'')
          else (Ok (Continue (next_endpoint (Some e) vars)), s'')
      | (OutOfFuel, s'') => (OutOfFuel, s'')
      end).
  { subst s' made final url init m.
    unfold endpoint_turn, try_catch, endpoint_try.
    fold (stream_post_url vars). fold (stream_init request token body).
    rewrite run_fetch. cbv zeta. rewrite Hfirst.
    rewrite (proj1 Hr0). cbn [negb]. unfold mbind at 1, M_bind at 1.
    erewrite (reissues_run account (model request) (stream_post_url vars)
                (stream_init request token body) res
                (Z.to_nat MAX_EMPTY_RESPONSE_RETRIES) r0);
      [| exact Hcount | exact Hres | exact Hempty | exact Hanswers].
    cbn [tick calls trace message_dedup stream_dedup].
    change (MAX_EMPTY_RESPONSE_RETRIES
            - Z.of_nat (Z.to_nat MAX_EMPTY_RESPONSE_RETRIES)) with 0.
    rewrite <- app_assoc.
    match goal with
    | |- context [stream_with_retries ?n ?a ?mm ?u ?i ?f ?st] =>
        destruct (stream_with_retries n a mm u i f st)
          as [[[[]|]|e|] s'']
    end; try reflexivity.
    destruct (isRateLimitError e); [reflexivity|].
    destruct (isEmptyResponseError e); reflexivity. }
  split; [reflexivity|]. split; [|split].
  - intros r1 r2 r3 current. cbn [retries_trace reissue_trace
      reissue_response].
    change (500 * 2 ^ 0) with 500.
    change (500 * 2 ^ (0 + 1)) with 1000.
    change (500 * 2 ^ (0 + 1 + 1)) with 2000.
    rewrite ?app_nil_r, <- ?app_assoc. reflexivity.
  - intros Hdone. rewrite Hturn.
    rewrite (complete_turn _ account m url init final s' Hdone).
    subst s' retried. cbn [tick calls trace message_dedup stream_dedup].
    rewrite <- !app_assoc. reflexivity.
  - intros Hall Hlast.
    assert (Hsix : messageId
                   = "msg_" ++ toString_hex
                                 (map (randomByte (tick s')) (seq 0 16)))
      by reflexivity.
    split; [|split].
    + rewrite Hturn, Hall, Nat.sub_diag.
      rewrite (last_empty_turn account m url init final s' Hlast).
      subst s' retried six. unfold fallback_events.
      cbn [tick calls trace message_dedup stream_dedup].
      rewrite <- !app_assoc. reflexivity.
    + exists (toString_hex (map (randomByte (tick s)) (seq 0 16))).
      split; [reflexivity|].
      destruct (toString_hex_shape (map (randomByte (tick s)) (seq 0 16)))
        as [Hlen Hhex].
      split; [rewrite Hlen; reflexivity | exact Hhex].
    + subst retried. rewrite !existsb_app, retries_trace_no_mark,
        parser_events_no_mark. reflexivity.
Qed.

End EmptyResponse.

(** Scenario 5 with a 503 in between: the answer and the answers to the
    re-issued POSTs come back empty, the first re-issue after a 503 and
    one more second. *)
Lemma empty_response_fallback_witness :
  let W := scenario_world [empty_200; unavailable_503] None None
             [some_account] 0 in
  let out := StreamingHandler.endpoint_turn (W := W) some_account
               text_request "token" "payload" initial_vars initial_state in
  out.1 = Ok (Return tt)
  /\ List.filter is_sleep (trace out.2)
     = [sleep 500; sleep 1000; sleep 1000; sleep 2000]
  /\ length (List.filter is_fetch (trace out.2)) = 5%nat
  /\ calls out.2 = 5%nat.
Proof.
  cbv zeta.
  destruct (empty_response_fallback
              (W := scenario_world [empty_200; unavailable_503] None None
                      [some_account] 0)
              some_account text_request "token" "payload" initial_vars
              empty_200
              [after_5xx unavailable_503 empty_200; at_once empty_200;
               at_once empty_200] initial_state)
    as (_ & _ & _ & Hfallback).
  - reflexivity.
  - split; [reflexivity | eexists; split; reflexivity].
  - vm_compute. lia.
  - repeat constructor. vm_compute. discriminate.
  - repeat constructor; eexists; split; reflexivity.
  - intros [|[|[|[|j]]]] r Hj; inversion Hj; reflexivity.
  - destruct Hfallback as (Hrun & _);
      [ reflexivity
      | split; [reflexivity | eexists; split; reflexivity] |].
    rewrite Hrun. repeat split.
Defined.

(** Every re-issued POST is first answered 503: the POST is re-issued six
    times, not three, and the sleeps are 500, 1000, 1000, 1000, 2000 and
    1000 ms, not 500, 1000 and 2000. *)
Lemma empty_response_six_posts :
  let W := scenario_world
             [empty_200; unavailable_503; empty_200; unavailable_503;
              empty_200; unavailable_503; empty_200]
             None None [some_account] 0 in
  let out := StreamingHandler.sendMessageStream (W := W) 1 text_request
               false initial_state in
  out.1 = Ok tt
  /\ List.filter is_sleep (trace out.2)
     = [sleep 500; sleep 1000; sleep 1000; sleep 1000; sleep 2000;
        sleep 1000]
  /\ length (List.filter is_fetch (trace out.2)) = 7%nat
  /\ List.filter is_markRateLimited (trace out.2) = [].
Proof. vm_compute. repeat split. Qed.

(** ** What holds along every dispatch *)

Create HintDb steps.

Section Along.
Context `{W : World}.
Variable R : State -> State -> Prop.
Variable allowed : Effect -> Prop.
Hypothesis R_refl : forall s, R s s.
Hypothesis R_trans : forall s1 s2 s3, R s1 s2 -> R s2 s3 -> R s1 s3.
Hypothesis R_ask : forall A (oracle : nat -> A), steps R (ask oracle).
Hypothesis R_call : forall url init, steps R (call_upstream url init).
Hypothesis R_emit : forall e, allowed e -> steps R (emit e).
Hypothesis allowed_fetch :
  forall url headers body, allowed (fetch url (post headers body)).
Hypothesis allowed_rest :
  forall e, is_fetch e = false -> is_getAvailableAccounts e = false ->
            allowed e.

Local Hint Resolve R_ask R_call R_emit allowed_fetch allowed_rest : steps.

Ltac go :=
  repeat (intros;
    first
      [ solve [eauto with steps]
      | apply (steps_ret R R_refl)
      | apply (steps_throw R R_refl)
      | apply (steps_out_of_fuel R R_refl)
      | apply (steps_lift R R_refl)
      | apply (steps_bind R R_trans)
      | apply (steps_try_catch R R_trans)
      | match goal with
        | |- steps _ (if ?b then _ else _) => destruct b
        | |- steps _ (match ?x with _ => _ end) => destruct x
        end ]).

Lemma do_fetch_steps url headers body :
  steps R (do_fetch url (post headers body)).
Proof. unfold do_fetch. go. Qed.
Local Hint Resolve do_fetch_steps : steps.

Section Message.
Import MessageHandler.
Hypothesis R_set_dedup : forall m, steps R (set_dedup m).
Local Hint Resolve R_set_dedup : steps.

Lemma get_dedup_steps : steps R get_dedup.
Proof. intros s. apply R_refl. Qed.
Local Hint Resolve get_dedup_steps : steps.

Lemma shouldSkip_steps model : steps R (shouldSkipRetryDueToDedup model).
Proof. unfold shouldSkipRetryDueToDedup. go. Qed.

Lemma record_steps model : steps R (recordRateLimitTimestamp model).
Proof. unfold recordRateLimitTimestamp. go. Qed.

Lemma clear_steps model : steps R (clearRateLimitTimestamp model).
Proof. unfold clearRateLimitTimestamp. go. Qed.

Lemma sweep_steps : steps R sweep.
Proof. unfold sweep. go. Qed.
Local Hint Resolve shouldSkip_steps record_steps clear_steps : steps.

Lemma handle_429_steps account model vars response errorText :
  steps R (handle_429 account model vars response errorText).
Proof. unfold handle_429, rate_limit_decision. go. Qed.

Lemma handle_401_steps account vars errorText :
  steps R (handle_401 account vars errorText).
Proof. unfold handle_401. go. Qed.

Lemma handle_other_error_steps vars response errorText :
  steps R (handle_other_error vars response errorText).
Proof. unfold handle_other_error. go. Qed.

Lemma read_answer_steps account request response :
  steps R (read_answer account request response).
Proof. unfold read_answer. go. Qed.
Local Hint Resolve handle_429_steps handle_401_steps
  handle_other_error_steps read_answer_steps : steps.

Lemma endpoint_turn_steps account request token body vars :
  steps R (endpoint_turn account request token body vars).
Proof. unfold endpoint_turn, endpoint_try. go. Qed.
Local Hint Resolve endpoint_turn_steps : steps.

Lemma endpoint_loop_steps fuel account request token body vars :
  steps R (endpoint_loop fuel account request token body vars).
Proof.
  revert vars. induction fuel as [|fuel IH]; intros vars;
    cbn [endpoint_loop]; go.
Qed.
Local Hint Resolve endpoint_loop_steps : steps.

Lemma attempt_try_steps account request :
  steps R (attempt_try account request).
Proof. unfold attempt_try, after_endpoints. go. Qed.

Lemma attempt_catch_steps account model error :
  steps R (attempt_catch account model error).
Proof. unfold attempt_catch, extended_cooldown. go. Qed.
Local Hint Resolve attempt_try_steps attempt_catch_steps : steps.

Section Outer.
Hypothesis allowed_pool :
  forall model, allowed (getAvailableAccounts model).
Variable self : Request -> bool -> M string.
Hypothesis self_steps : forall request b, steps R (self request b).
Local Hint Resolve allowed_pool self_steps : steps.

Lemma attempt_steps request fallbackEnabled :
  steps R (attempt self request fallbackEnabled).
Proof. unfold attempt, no_accounts. go. Qed.
Local Hint Resolve attempt_steps : steps.

Lemma attempts_steps request fallbackEnabled remaining :
  steps R (attempts self request fallbackEnabled remaining).
Proof.
  induction remaining as [|remaining IH]; cbn [attempts];
    [unfold exhausted|]; go.
Qed.
Local Hint Resolve attempts_steps : steps.

Lemma sendMessage_body_steps request fallbackEnabled :
  steps R (sendMessage_body self request fallbackEnabled).
Proof. unfold sendMessage_body. go. Qed.
End Outer.

Lemma sendMessage_steps depth request fallbackEnabled :
  (forall model, allowed (getAvailableAccounts model)) ->
  steps R (sendMessage depth request fallbackEnabled).
Proof.
  intros Hpool. revert request fallbackEnabled.
  induction depth as [|depth IH]; intros request fallbackEnabled;
    cbn [sendMessage]; [eauto with steps|].
  apply sendMessage_body_steps; assumption.
Qed.
End Message.

Section Streaming.
Import StreamingHandler.
Hypothesis R_set_dedup : forall m, steps R (set_dedup m).
Local Hint Resolve R_set_dedup : steps.

Lemma stream_get_dedup_steps : steps R get_dedup.
Proof. intros s. apply R_refl. Qed.
Local Hint Resolve stream_get_dedup_steps : steps.

Lemma stream_shouldSkip_steps model :
  steps R (shouldSkipRetryDueToDedup model).
Proof. unfold shouldSkipRetryDueToDedup. go. Qed.

Lemma stream_record_steps model :
  steps R (recordRateLimitTimestamp model).
Proof. unfold recordRateLimitTimestamp. go. Qed.

Lemma stream_clear_steps model : steps R (clearRateLimitTimestamp model).
Proof. unfold clearRateLimitTimestamp. go. Qed.

Lemma stream_sweep_steps : steps R sweep.
Proof. unfold sweep. go. Qed.
Local Hint Resolve stream_shouldSkip_steps stream_record_steps
  stream_clear_steps : steps.

Lemma yield_all_steps events : steps R (yield_all events).
Proof.
  induction events as [|event rest IH]; cbn [yield_all foldr]; go.
Qed.
Local Hint Resolve yield_all_steps : steps.

Lemma emitEmptyResponseFallback_steps model :
  steps R (emitEmptyResponseFallback model).
Proof. unfold emitEmptyResponseFallback. go. Qed.

Lemma stream_handle_429_steps account model vars response errorText :
  steps R (handle_429 account model vars response errorText).
Proof. unfold handle_429, rate_limit_decision. go. Qed.

Lemma stream_handle_401_steps account vars errorText :
  steps R (handle_401 account vars errorText).
Proof. unfold handle_401. go. Qed.

Lemma stream_handle_other_error_steps vars response errorText :
  steps R (handle_other_error vars response errorText).
Proof. unfold handle_other_error. go. Qed.

Lemma retry_not_ok_steps account model url headers body response :
  steps R (retry_not_ok account model url (post headers body) response).
Proof. unfold retry_not_ok. go. Qed.
Local Hint Resolve emitEmptyResponseFallback_steps
  stream_handle_429_steps stream_handle_401_steps
  stream_handle_other_error_steps retry_not_ok_steps : steps.

Lemma stream_with_retries_steps remaining account model url headers body
  response :
  steps R (stream_with_retries remaining account model url
             (post headers body) response).
Proof.
  revert response.
  induction remaining as [|remaining IH]; intros response;
    cbn [stream_with_retries]; go.
Qed.
Local Hint Resolve stream_with_retries_steps : steps.

Lemma stream_endpoint_turn_steps account request token body vars :
  steps R (endpoint_turn account request token body vars).
Proof. unfold endpoint_turn, endpoint_try. go. Qed.
Local Hint Resolve stream_endpoint_turn_steps : steps.

Lemma stream_endpoint_loop_steps fuel account request token body vars :
  steps R (endpoint_loop fuel account request token body vars).
Proof.
  revert vars. induction fuel as [|fuel IH]; intros vars;
    cbn [endpoint_loop]; go.
Qed.
Local Hint Resolve stream_endpoint_loop_steps : steps.

Lemma stream_attempt_try_steps account request :
  steps R (attempt_try account request).
Proof. unfold attempt_try, after_endpoints. go. Qed.

Lemma stream_attempt_catch_steps account model error :
  steps R (attempt_catch account model error).
Proof. unfold attempt_catch, extended_cooldown. go. Qed.
Local Hint Resolve stream_attempt_try_steps stream_attempt_catch_steps
  : steps.

Section Outer.
Hypothesis allowed_pool :
  forall model, allowed (getAvailableAccounts model).
Variable self : Request -> bool -> M unit.
Hypothesis self_steps : forall request b, steps R (self request b).
Local Hint Resolve allowed_pool self_steps : steps.

Lemma stream_attempt_steps request fallbackEnabled :
  steps R (attempt self request fallbackEnabled).
Proof. unfold attempt, no_accounts. go. Qed.
Local Hint Resolve stream_attempt_steps : steps.

Lemma stream_attempts_steps request fallbackEnabled remaining :
  steps R (attempts self request fallbackEnabled remaining).
Proof.
  induction remaining as [|remaining IH]; cbn [attempts];
    [unfold exhausted|]; go.
Qed.
Local Hint Resolve stream_attempts_steps : steps.

Lemma sendMessageStream_body_steps request fallbackEnabled :
  steps R (sendMessageStream_body self request fallbackEnabled).
Proof. unfold sendMessageStream_body. go. Qed.
End Outer.

Lemma sendMessageStream_steps depth request fallbackEnabled :
  (forall model, allowed (getAvailableAccounts model)) ->
  steps R (sendMessageStream depth request fallbackEnabled).
Proof.
  intros Hpool. revert request fallbackEnabled.
  induction depth as [|depth IH]; intros request fallbackEnabled;
    cbn [sendMessageStream]; [eauto with steps|].
  apply sendMessageStream_body_steps; assumption.
Qed.
End Streaming.

End Along.

(** ** The two dedup maps *)

Section DedupMaps.
Context `{W : World}.
Import Constants.

Lemma sendMessage_keeps_stream_dedup depth request fallbackEnabled :
  steps keeps_stream_dedup
    (MessageHandler.sendMessage depth request fallbackEnabled).
Proof.
  apply (sendMessage_steps keeps_stream_dedup (fun _ => True));
    unfold keeps_stream_dedup, steps; intros; try exact I;
    try reflexivity; congruence.
Qed.

Lemma sendMessageStream_keeps_message_dedup depth request fallbackEnabled :
  steps keeps_message_dedup
    (StreamingHandler.sendMessageStream depth request fallbackEnabled).
Proof.
  apply (sendMessageStream_steps keeps_message_dedup (fun _ => True));
    unfold keeps_message_dedup, steps; intros; try exact I;
    try reflexivity; congruence.
Qed.

(** When the streaming handler's dedup test says yes: its own map holds
    a timestamp for the model from within the window. *)
Lemma stream_shouldSkip_true model s :
  (StreamingHandler.shouldSkipRetryDueToDedup model s).1 = Ok true <->
  exists t, stream_dedup s !! model = Some t /\ t <> 0
            /\ Date_now (tick s) - t < RATE_LIMIT_DEDUP_WINDOW_MS.
Proof.
  unfold StreamingHandler.shouldSkipRetryDueToDedup.
  cbv [mbind M_bind mret M_ret ask StreamingHandler.get_dedup].
  destruct (stream_dedup s !! model) as [t|]; cbn [JS.truthy negb].
  - destruct (Z.eqb_spec t 0) as [->|Hnz]; cbn [negb fst].
    + split; [discriminate | intros (t & Ht & Hnz & _)].
      inversion Ht; subst. congruence.
    + cbn [default from_option id].
      destruct (Z.ltb_spec (Date_now (tick s) - t)
                  RATE_LIMIT_DEDUP_WINDOW_MS) as [Hlt|Hge]; cbn [fst].
      * split; [intros _; exists t; auto | reflexivity].
      * split; [discriminate | intros (t' & Ht & _ & Hlt)].
        inversion Ht; subst. lia.
  - cbn [fst]. split; [discriminate | intros (t & Ht & _)]. discriminate.
Qed.

Lemma message_shouldSkip_true model s :
  (MessageHandler.shouldSkipRetryDueToDedup model s).1 = Ok true <->
  exists t, message_dedup s !! model = Some t /\ t <> 0
            /\ Date_now (tick s) - t < RATE_LIMIT_DEDUP_WINDOW_MS.
Proof.
  unfold MessageHandler.shouldSkipRetryDueToDedup.
  cbv [mbind M_bind mret M_ret ask MessageHandler.get_dedup].
  destruct (message_dedup s !! model) as [t|]; cbn [JS.truthy negb].
  - destruct (Z.eqb_spec t 0) as [->|Hnz]; cbn [negb fst].
    + split; [discriminate | intros (t & Ht & Hnz & _)].
      inversion Ht; subst. congruence.
    + cbn [default from_option id].
      destruct (Z.ltb_spec (Date_now (tick s) - t)
                  RATE_LIMIT_DEDUP_WINDOW_MS) as [Hlt|Hge]; cbn [fst].
      * split; [intros _; exists t; auto | reflexivity].
      * split; [discriminate | intros (t' & Ht & _ & Hlt)].
        inversion Ht; subst. lia.
  - cbn [fst]. split; [discriminate | intros (t & Ht & _)]. discriminate.
Qed.

(** C10.  The two handlers keep two disjoint dedup maps.  Recording a
    timestamp in one handler writes that handler's map only, so it cannot
    make the other handler's [shouldSkipRetryDueToDedup] hold: that test
    holds exactly when the handler's own map has a timestamp of the model
    from within the window.  Clearing on success and the sweeper of one
    handler leave the other handler's map as it is, and so does every
    whole dispatch: no run of [sendMessage] changes the streaming map,
    and no run of [sendMessageStream] changes the message map. *)
Theorem dedup_maps_disjoint (model : string) (s : State) :
  (* recordRateLimitTimestamp *)
  (let s' := (MessageHandler.recordRateLimitTimestamp model s).2 in
   message_dedup s' !! model = Some (Date_now (tick s))
   /\ stream_dedup s' = stream_dedup s)
  /\ (let s' := (StreamingHandler.recordRateLimitTimestamp model s).2 in
      stream_dedup s' !! model = Some (Date_now (tick s))
      /\ message_dedup s' = message_dedup s)
  (* shouldSkipRetryDueToDedup reads the handler's own map *)
  /\ ((StreamingHandler.shouldSkipRetryDueToDedup model s).1 = Ok true <->
      exists t, stream_dedup s !! model = Some t /\ t <> 0
                /\ Date_now (tick s) - t < RATE_LIMIT_DEDUP_WINDOW_MS)
  /\ ((MessageHandler.shouldSkipRetryDueToDedup model s).1 = Ok true <->
      exists t, message_dedup s !! model = Some t /\ t <> 0
                /\ Date_now (tick s) - t < RATE_LIMIT_DEDUP_WINDOW_MS)
  (* a record in one handler never makes the other handler skip *)
  /\ (stream_dedup s !! model = None ->
      (StreamingHandler.shouldSkipRetryDueToDedup model
         (MessageHandler.recordRateLimitTimestamp model s).2).1
      = Ok false)
  /\ (message_dedup s !! model = None ->
      (MessageHandler.shouldSkipRetryDueToDedup model
         (StreamingHandler.recordRateLimitTimestamp model s).2).1
      = Ok false)
  (* clear on success and the sweeper *)
  /\ stream_dedup (MessageHandler.clearRateLimitTimestamp model s).2
     = stream_dedup s
  /\ message_dedup (StreamingHandler.clearRateLimitTimestamp model s).2
     = message_dedup s
  /\ stream_dedup (MessageHandler.sweep s).2 = stream_dedup s
  /\ message_dedup (StreamingHandler.sweep s).2 = message_dedup s
  (* whole dispatches *)
  /\ (forall depth request fallbackEnabled,
      stream_dedup
        (MessageHandler.sendMessage depth request fallbackEnabled s).2
      = stream_dedup s)
  /\ (forall depth request fallbackEnabled,
      message_dedup
        (StreamingHandler.sendMessageStream depth request
           fallbackEnabled s).2
      = message_dedup s).
Proof.
  split; [split; [apply lookup_insert_eq | reflexivity]|].
  split; [split; [apply lookup_insert_eq | reflexivity]|].
  split; [apply stream_shouldSkip_true|].
  split; [apply message_shouldSkip_true|].
  split.
  { intros Hnone.
    unfold StreamingHandler.shouldSkipRetryDueToDedup,
      StreamingHandler.get_dedup.
    cbv [mbind M_bind fst snd MessageHandler.recordRateLimitTimestamp
         MessageHandler.get_dedup MessageHandler.set_dedup ask].
    cbn [stream_dedup]. now rewrite Hnone. }
  split.
  { intros Hnone.
    unfold MessageHandler.shouldSkipRetryDueToDedup,
      MessageHandler.get_dedup.
    cbv [mbind M_bind fst snd StreamingHandler.recordRateLimitTimestamp
         StreamingHandler.get_dedup StreamingHandler.set_dedup ask].
    cbn [message_dedup]. now rewrite Hnone. }
  repeat split; try reflexivity.
  - intros depth request fallbackEnabled.
    apply sendMessage_keeps_stream_dedup.
  - intros depth request fallbackEnabled.
    apply sendMessageStream_keeps_message_dedup.
Qed.

End DedupMaps.

(** ** Termination *)

Lemma total_bind_returns {A B} (m : M A) (k : A -> M B) (Q : A -> Prop) :
  total m -> returns m Q -> (forall a, Q a -> total (k a)) -> total (m ≫= k).
Proof.
  intros Hm HQ Hk s. unfold mbind, M_bind. specialize (Hm s).
  destruct (m s) as [[a|e|] s'] eqn:E; simpl in *;
    [| discriminate | congruence].
  apply Hk. eapply HQ. exact E.
Qed.

Lemma returns_bind_strong {A B} (m : M A) (k : A -> M B) (P : A -> Prop)
  (Q : B -> Prop) :
  returns m P -> (forall a, P a -> returns (k a) Q) -> returns (m ≫= k) Q.
Proof.
  intros Hm Hk s b s' E. unfold mbind, M_bind in E.
  destruct (m s) as [[a|e|] s1] eqn:Em; try discriminate.
  eapply Hk; [eapply Hm; exact Em | exact E].
Qed.

Ltac total_go :=
  repeat (intros;
    first
      [ solve [eauto with total]
      | apply total_ret
      | apply total_throw
      | apply total_lift
      | apply total_ask
      | apply total_emit
      | apply total_do_fetch
      | apply total_bind
      | apply total_try_catch
      | match goal with
        | |- total (if ?b then _ else _) => destruct b
        | |- total (match ?x with _ => _ end) => destruct x
        end ]).

Ltac measure_solve vars :=
  unfold loop_measure, next_endpoint, retry_capacity, retry_short,
    Constants.MAX_CAPACITY_RETRIES in *;
  cbn [endpointIndex capacityRetryCount retriedOnce lastError] in *;
  repeat match goal with
    | H : (_ && _) = true |- _ => apply andb_true_iff in H; destruct H
    | H : (_ <? _) = true |- _ => apply Z.ltb_lt in H
    end;
  try exact I;
  destruct (retriedOnce vars); cbn [negb] in *; try discriminate; lia.

Ltac returns_go vars :=
  repeat (intros;
    first
      [ apply returns_throw
      | apply returns_ret; measure_solve vars
      | apply returns_bind
      | apply returns_try_catch
      | match goal with
        | |- returns (if ?b then _ else _) _ => destruct b eqn:?
        | |- returns (match ?x with _ => _ end) _ => destruct x eqn:?
        end ]).

Create HintDb total.

Section MessageTermination.
Context `{W : World}.
Import Constants MessageHandler.

Lemma total_get_dedup : total get_dedup.
Proof. intros s. discriminate. Qed.

Lemma total_set_dedup m : total (set_dedup m).
Proof. intros s. discriminate. Qed.
Local Hint Resolve total_get_dedup total_set_dedup : total.

Lemma total_shouldSkip model : total (shouldSkipRetryDueToDedup model).
Proof. unfold shouldSkipRetryDueToDedup. total_go. Qed.

Lemma total_record model : total (recordRateLimitTimestamp model).
Proof. unfold recordRateLimitTimestamp. total_go. Qed.

Lemma total_clear model : total (clearRateLimitTimestamp model).
Proof. unfold clearRateLimitTimestamp. total_go. Qed.
Local Hint Resolve total_shouldSkip total_record total_clear : total.

Lemma total_endpoint_turn account request token body vars :
  total (endpoint_turn account request token body vars).
Proof.
  unfold endpoint_turn, endpoint_try, handle_401, handle_429,
    rate_limit_decision, handle_other_error, read_answer.
  total_go.
Qed.

(** Every turn that goes round again has used up an endpoint, a capacity
    retry or the short retry. *)
Lemma endpoint_turn_decreases account request token body vars :
  (endpointIndex vars < length ANTIGRAVITY_ENDPOINT_FALLBACKS)%nat ->
  returns (endpoint_turn account request token body vars)
    (fun step =>
       match step with
       | Return _ => True
       | Continue vars' => (loop_measure vars' < loop_measure vars)%nat
       end).
Proof.
  intros Hlt.
  unfold endpoint_turn, endpoint_try, handle_401, handle_429,
    rate_limit_decision, handle_other_error, read_answer.
  returns_go vars.
Qed.

Lemma total_endpoint_loop fuel account request token body vars :
  (loop_measure vars <= fuel)%nat ->
  total (endpoint_loop fuel account request token body vars).
Proof.
  revert vars. induction fuel as [|fuel IH]; intros vars Hfuel.
  - cbn [endpoint_loop].
    destruct (Nat.ltb_spec (endpointIndex vars)
                (length ANTIGRAVITY_ENDPOINT_FALLBACKS)) as [Hlt|Hge];
      [|apply total_ret].
    unfold loop_measure in Hfuel. lia.
  - cbn [endpoint_loop].
    destruct (Nat.ltb_spec (endpointIndex vars)
                (length ANTIGRAVITY_ENDPOINT_FALLBACKS)) as [Hlt|Hge];
      [|apply total_ret].
    eapply total_bind_returns;
      [apply total_endpoint_turn | apply endpoint_turn_decreases; exact Hlt|].
    intros [r|vars'] Hstep; [apply total_ret|].
    apply IH. lia.
Qed.

Lemma total_attempt_try account request :
  total (attempt_try account request).
Proof.
  unfold attempt_try, after_endpoints.
  repeat (intros; first
    [ apply total_endpoint_loop;
      unfold loop_measure, endpoint_fuel; cbn; lia
    | apply total_ret | apply total_throw | apply total_lift
    | apply total_ask | apply total_emit | apply total_bind
    | match goal with
      | |- total (if ?b then _ else _) => destruct b
      | |- total (match ?x with _ => _ end) => destruct x
      end ]).
Qed.

Lemma total_attempt_catch account model error :
  total (attempt_catch account model error).
Proof. unfold attempt_catch, extended_cooldown. total_go. Qed.
Local Hint Resolve total_attempt_try total_attempt_catch : total.

Section Outer.
Variable self : Request -> bool -> M string.
Variable fallbackEnabled : bool.
Hypothesis self_total :
  fallbackEnabled = true -> forall request, total (self request false).

Lemma total_attempt request :
  total (attempt self request fallbackEnabled).
Proof.
  unfold attempt, no_accounts.
  destruct fallbackEnabled; [specialize (self_total eq_refl)|];
    total_go.
Qed.

Lemma total_attempts request remaining :
  total (attempts self request fallbackEnabled remaining).
Proof.
  induction remaining as [|remaining IH]; cbn [attempts].
  - unfold exhausted.
    destruct fallbackEnabled; [specialize (self_total eq_refl)|];
      total_go.
  - apply total_bind; [apply total_attempt|].
    intros [r|]; [apply total_ret | exact IH].
Qed.
End Outer.

(** One level of nesting is all a dispatch needs; none when fallback is
    disabled. *)
Lemma total_sendMessage depth request (fallbackEnabled : bool) :
  ((if fallbackEnabled then 2 else 1) <= depth)%nat ->
  total (sendMessage depth request fallbackEnabled).
Proof.
  intros Hdepth.
  assert (Hflat : forall depth request, (1 <= depth)%nat ->
                    total (sendMessage depth request false)).
  { intros [|d] r Hd; [lia|]. cbn [sendMessage]. unfold sendMessage_body.
    apply total_bind; [apply total_ask|]. intros count.
    apply total_attempts. discriminate. }
  destruct fallbackEnabled; [|now apply Hflat].
  destruct depth as [|depth]; [lia|]. cbn [sendMessage].
  unfold sendMessage_body.
  apply total_bind; [apply total_ask|]. intros count.
  apply total_attempts. intros _ r. apply Hflat. lia.
Qed.

End MessageTermination.

Section StreamTermination.
Context `{W : World}.
Import Constants StreamingHandler.

Lemma stream_total_get_dedup : total get_dedup.
Proof. intros s. discriminate. Qed.

Lemma stream_total_set_dedup m : total (set_dedup m).
Proof. intros s. discriminate. Qed.
Local Hint Resolve stream_total_get_dedup stream_total_set_dedup : total.

Lemma stream_total_shouldSkip model :
  total (shouldSkipRetryDueToDedup model).
Proof. unfold shouldSkipRetryDueToDedup. total_go. Qed.

Lemma stream_total_record model : total (recordRateLimitTimestamp model).
Proof. unfold recordRateLimitTimestamp. total_go. Qed.

Lemma stream_total_clear model : total (clearRateLimitTimestamp model).
Proof. unfold clearRateLimitTimestamp. total_go. Qed.

Lemma total_yield_all events : total (yield_all events).
Proof.
  induction events as [|event rest IH]; cbn [yield_all foldr];
    [apply total_ret|].
  apply total_bind; [apply total_emit | intros _; exact IH].
Qed.
Local Hint Resolve stream_total_shouldSkip stream_total_record
  stream_total_clear total_yield_all : total.

Lemma total_emitEmptyResponseFallback model :
  total (emitEmptyResponseFallback model).
Proof. unfold emitEmptyResponseFallback. total_go. Qed.

Lemma total_retry_not_ok account model url init response :
  total (retry_not_ok account model url init response).
Proof. unfold retry_not_ok. total_go. Qed.
Local Hint Resolve total_emitEmptyResponseFallback total_retry_not_ok
  : total.

Lemma total_stream_with_retries remaining account model url init response :
  total (stream_with_retries remaining account model url init response).
Proof.
  revert response.
  induction remaining as [|remaining IH]; intros response;
    cbn [stream_with_retries]; total_go.
Qed.
Local Hint Resolve total_stream_with_retries : total.

(** The retry loop always leaves by [return] or by an exception: its
    last turn either streams, throws, or emits the fallback. *)
Lemma stream_with_retries_returns remaining account model url init
  response :
  returns (stream_with_retries (S remaining) account model url init
             response)
    (fun done => done <> None).
Proof.
  revert response.
  induction remaining as [|remaining IH]; intros response;
    cbn [stream_with_retries].
  - destruct (streamSSEResponse response model) as [events thrown].
    apply returns_bind. intros _.
    destruct thrown as [streamError|].
    + destruct (negb (isEmptyResponseError streamError));
        [apply returns_throw|].
      change (MAX_EMPTY_RESPONSE_RETRIES - Z.of_nat 0
              >=? MAX_EMPTY_RESPONSE_RETRIES) with true. cbv iota.
      apply returns_bind. intros _. apply returns_ret. discriminate.
    + repeat (apply returns_bind; intros). apply returns_ret.
      discriminate.
  - destruct (streamSSEResponse response model) as [events thrown].
    apply returns_bind. intros _.
    destruct thrown as [streamError|].
    + destruct (negb (isEmptyResponseError streamError));
        [apply returns_throw|].
      destruct (MAX_EMPTY_RESPONSE_RETRIES - Z.of_nat (S remaining)
                >=? MAX_EMPTY_RESPONSE_RETRIES).
      * apply returns_bind. intros _. apply returns_ret. discriminate.
      * repeat (apply returns_bind; intros). apply IH.
    + repeat (apply returns_bind; intros). apply returns_ret.
      discriminate.
Qed.

Lemma stream_total_endpoint_turn account request token body vars :
  total (endpoint_turn account request token body vars).
Proof.
  unfold endpoint_turn, endpoint_try, handle_401, handle_429,
    rate_limit_decision, handle_other_error.
  total_go.
Qed.

Lemma stream_endpoint_turn_decreases account request token body vars :
  (endpointIndex vars < length ANTIGRAVITY_ENDPOINT_FALLBACKS)%nat ->
  returns (endpoint_turn account request token body vars)
    (fun step =>
       match step with
       | Return _ => True
       | Continue vars' => (loop_measure vars' < loop_measure vars)%nat
       end).
Proof.
  intros Hlt. unfold endpoint_turn.
  apply returns_try_catch; [|returns_go vars].
  unfold endpoint_try. apply returns_bind. intros response.
  destruct (negb (ok response)).
  - unfold handle_401, handle_429, rate_limit_decision,
      handle_other_error.
    returns_go vars.
  - eapply returns_bind_strong; [apply stream_with_retries_returns|].
    intros [done|] Hdone; [|congruence].
    apply returns_ret. exact I.
Qed.

Lemma stream_total_endpoint_loop fuel account request token body vars :
  (loop_measure vars <= fuel)%nat ->
  total (endpoint_loop fuel account request token body vars).
Proof.
  revert vars. induction fuel as [|fuel IH]; intros vars Hfuel.
  - cbn [endpoint_loop].
    destruct (Nat.ltb_spec (endpointIndex vars)
                (length ANTIGRAVITY_ENDPOINT_FALLBACKS)) as [Hlt|Hge];
      [|apply total_ret].
    unfold loop_measure in Hfuel. lia.
  - cbn [endpoint_loop].
    destruct (Nat.ltb_spec (endpointIndex vars)
                (length ANTIGRAVITY_ENDPOINT_FALLBACKS)) as [Hlt|Hge];
      [|apply total_ret].
    eapply total_bind_returns;
      [apply stream_total_endpoint_turn
      | apply stream_endpoint_turn_decreases; exact Hlt|].
    intros [r|vars'] Hstep; [apply total_ret|].
    apply IH. lia.
Qed.

Lemma stream_total_attempt_try account request :
  total (attempt_try account request).
Proof.
  unfold attempt_try, after_endpoints.
  repeat (intros; first
    [ apply stream_total_endpoint_loop;
      unfold loop_measure, endpoint_fuel; cbn; lia
    | apply total_ret | apply total_throw | apply total_lift
    | apply total_ask | apply total_emit | apply total_bind
    | match goal with
      | |- total (if ?b then _ else _) => destruct b
      | |- total (match ?x with _ => _ end) => destruct x
      end ]).
Qed.

Lemma stream_total_attempt_catch account model error :
  total (attempt_catch account model error).
Proof. unfold attempt_catch, extended_cooldown. total_go. Qed.
Local Hint Resolve stream_total_attempt_try stream_total_attempt_catch
  : total.

Section Outer.
Variable self : Request -> bool -> M unit.
Variable fallbackEnabled : bool.
Hypothesis self_total :
  fallbackEnabled = true -> forall request, total (self request false).

Lemma stream_total_attempt request :
  total (attempt self request fallbackEnabled).
Proof.
  unfold attempt, no_accounts.
  destruct fallbackEnabled; [specialize (self_total eq_refl)|];
    total_go.
Qed.

Lemma stream_total_attempts request remaining :
  total (attempts self request fallbackEnabled remaining).
Proof.
  induction remaining as [|remaining IH]; cbn [attempts].
  - unfold exhausted.
    destruct fallbackEnabled; [specialize (self_total eq_refl)|];
      total_go.
  - apply total_bind; [apply stream_total_attempt|].
    intros [r|]; [apply total_ret | exact IH].
Qed.
End Outer.

Lemma total_sendMessageStream depth request (fallbackEnabled : bool) :
  ((if fallbackEnabled then 2 else 1) <= depth)%nat ->
  total (sendMessageStream depth request fallbackEnabled).
Proof.
  intros Hdepth.
  assert (Hflat : forall depth request, (1 <= depth)%nat ->
                    total (sendMessageStream depth request false)).
  { intros [|d] r Hd; [lia|]. cbn [sendMessageStream].
    unfold sendMessageStream_body.
    apply total_bind; [apply total_ask|]. intros count.
    apply stream_total_attempts. discriminate. }
  destruct fallbackEnabled; [|now apply Hflat].
  destruct depth as [|depth]; [lia|]. cbn [sendMessageStream].
  unfold sendMessageStream_body.
  apply total_bind; [apply total_ask|]. intros count.
  apply stream_total_attempts. intros _ r. apply Hflat. lia.
Qed.

End StreamTermination.

(** ** Turns of the outer loop *)

Lemma turns_snoc (t : list Effect) (e : Effect) :
  turns (t ++ [e]) = (turns t + (if is_getAvailableAccounts e then 1 else 0))%nat.
Proof.
  unfold turns. rewrite List.filter_app, length_app. cbn [List.filter].
  destruct (is_getAvailableAccounts e); reflexivity.
Qed.

Lemma at_most_refl n s : at_most n s s.
Proof. unfold at_most. lia. Qed.

Lemma at_most_add a b s1 s2 s3 :
  at_most a s1 s2 -> at_most b s2 s3 -> at_most (a + b) s1 s3.
Proof. unfold at_most. lia. Qed.

Lemma at_most_weaken a b s1 s2 :
  (a <= b)%nat -> at_most a s1 s2 -> at_most b s1 s2.
Proof. unfold at_most. lia. Qed.

Lemma at_most_quiet {A} (m : M A) :
  (forall s, trace (m s).2 = trace s) -> steps (at_most 0) m.
Proof. intros Hm s. unfold at_most. rewrite Hm. lia. Qed.

Lemma at_most_emit e :
  is_getAvailableAccounts e = false -> steps (at_most 0) (emit e).
Proof.
  intros He s. unfold at_most, emit. cbn [snd trace].
  rewrite turns_snoc, He. lia.
Qed.

Lemma at_most_after_pool_check model s :
  at_most 1 s (after_pool_check model s).
Proof.
  unfold at_most, after_pool_check. cbn [trace].
  change [clearExpiredLimits; getAvailableAccounts model]
    with ([clearExpiredLimits] ++ [getAvailableAccounts model])%list.
  rewrite app_assoc, !turns_snoc. cbn. lia.
Qed.

Lemma at_most_bind {A B} a b (m : M A) (k : A -> M B) :
  steps (at_most a) m -> (forall x, steps (at_most b) (k x)) ->
  steps (at_most (a + b)) (m ≫= k).
Proof.
  intros Hm Hk s. unfold mbind, M_bind. specialize (Hm s).
  destruct (m s) as [[x|e|] s']; simpl in *;
    try (eapply at_most_weaken; [|exact Hm]; lia).
  eapply at_most_add; [exact Hm | apply Hk].
Qed.

Lemma at_most_pool model :
  steps (at_most 1) (emit (getAvailableAccounts model)).
Proof.
  intros s. unfold at_most, emit. cbn [snd trace].
  rewrite turns_snoc. cbn. lia.
Qed.

Lemma after_pool_check_state model s :
  {| tick := S (S (S (S (tick s)))); calls := calls s;
     trace := ((trace s ++ [clearExpiredLimits])
               ++ [getAvailableAccounts model])%list;
     message_dedup := message_dedup s; stream_dedup := stream_dedup s |}
  = after_pool_check model s.
Proof. unfold after_pool_check. now rewrite <- app_assoc. Qed.

Ltac quiet_go try_quiet catch_quiet :=
  repeat (intros;
    first
      [ apply try_quiet
      | apply catch_quiet
      | apply (steps_ret (at_most 0) (at_most_refl 0))
      | apply (steps_throw (at_most 0) (at_most_refl 0))
      | apply at_most_emit; reflexivity
      | apply at_most_quiet; reflexivity
      | apply (steps_bind (at_most 0)
                 (fun s1 s2 s3 => at_most_add 0 0 s1 s2 s3))
      | apply (steps_try_catch (at_most 0)
                 (fun s1 s2 s3 => at_most_add 0 0 s1 s2 s3))
      | match goal with
        | |- steps _ (if ?b then _ else _) => destruct b
        | |- steps _ (match ?x with _ => _ end) => destruct x
        end ]).

Section MessageTurns.
Context `{W : World}.
Import Constants MessageHandler.

Ltac quiet :=
  first [ exact (at_most_refl 0)
        | exact (fun s1 s2 s3 => at_most_add 0 0 s1 s2 s3)
        | exact at_most_emit
        | intros; apply at_most_quiet; reflexivity
        | intros; reflexivity
        | intros e _ Hpool; exact Hpool ].

Lemma attempt_try_quiet account request :
  steps (at_most 0) (attempt_try account request).
Proof.
  apply (attempt_try_steps (at_most 0)
           (fun e => is_getAvailableAccounts e = false)); quiet.
Qed.

Lemma attempt_catch_quiet account model error :
  steps (at_most 0) (attempt_catch account model error).
Proof.
  apply (attempt_catch_steps (at_most 0)
           (fun e => is_getAvailableAccounts e = false)); quiet.
Qed.

(** With fallback disabled a turn of the outer loop is one turn, and
    does not call the dispatcher. *)
Lemma attempt_flat self request :
  steps (at_most 1) (attempt self request false).
Proof.
  unfold attempt, no_accounts.
  apply (at_most_bind 0 1); [apply at_most_emit; reflexivity|]. intros _.
  apply (at_most_bind 1 0); [apply at_most_pool|]. intros _.
  quiet_go attempt_try_quiet attempt_catch_quiet.
Qed.

(** A turn either hands the request to the dispatcher for the fallback
    model, or is what it is with fallback disabled. *)
Lemma attempt_equation self request fallbackEnabled s :
  attempt self request fallbackEnabled s
  = match turn_falls_back request fallbackEnabled s with
    | Some fallbackModel =>
        (self (with_model fallbackModel request) false
         ≫= (fun r => mret (Some r)))
          (after_pool_check (model request) s)
    | None => attempt self request false s
    end.
Proof.
  unfold attempt, no_accounts, turn_falls_back. run.
  destruct (length _ =? 0)%nat; cbn [andb]; [|reflexivity]. run.
  destruct (isAllRateLimited _ _); cbn [andb]; [|reflexivity]. run.
  destruct (_ >? _); [|reflexivity].
  destruct fallbackEnabled; [|reflexivity].
  destruct (getFallbackModel _); [|reflexivity].
  now rewrite after_pool_check_state.
Qed.

Lemma attempts_flat self request remaining :
  steps (at_most remaining) (attempts self request false remaining).
Proof.
  induction remaining as [|remaining IH]; cbn [attempts].
  - intros s. apply at_most_refl.
  - change (S remaining) with (1 + remaining)%nat.
    apply at_most_bind; [apply attempt_flat|].
    intros [r|]; [intros s; apply at_most_refl | exact IH].
Qed.

Lemma attempts_flat_ext self1 self2 request remaining s :
  attempts self1 request false remaining s
  = attempts self2 request false remaining s.
Proof.
  revert s. induction remaining as [|remaining IH]; intros s;
    cbn [attempts]; [reflexivity|].
  unfold mbind, M_bind.
  change (attempt self1 request false s)
    with (attempt self2 request false s).
  destruct (attempt self2 request false s) as [[[r|]|e|] s1];
    try reflexivity.
  apply IH.
Qed.

Section Outer.
Variable self : Request -> bool -> M string.
Hypothesis self_bound :
  forall request s,
    exists k, at_most (turn_budget k) s (self request false s).2.

Lemma attempts_bound request fallbackEnabled remaining s :
  exists k,
    at_most (remaining + turn_budget k) s
      (attempts self request fallbackEnabled remaining s).2.
Proof.
  revert s. induction remaining as [|remaining IH]; intros s;
    cbn [attempts].
  - unfold exhausted.
    destruct (if fallbackEnabled then getFallbackModel (model request)
              else None) as [fallbackModel|].
    + apply self_bound.
    + exists 0%nat. apply at_most_refl.
  - unfold mbind, M_bind. rewrite attempt_equation.
    destruct (turn_falls_back request fallbackEnabled s)
      as [fallbackModel|].
    + destruct (self_bound (with_model fallbackModel request)
                  (after_pool_check (model request) s)) as [k Hk].
      pose proof (at_most_after_pool_check (model request) s) as H1.
      exists k. unfold mbind, M_bind.
      destruct (self (with_model fallbackModel request) false
                  (after_pool_check (model request) s))
        as [[r|e|] s']; simpl in *; unfold at_most in *; lia.
    + pose proof (attempt_flat self request s) as H1.
      destruct (attempt self request false s) as [[[r|]|e|] s1];
        simpl in *;
        try (exists 0%nat; unfold at_most in *; simpl; lia).
      destruct (IH s1) as [k Hk]. exists k.
      unfold at_most in *. lia.
Qed.
End Outer.

Lemma attempts_ext self1 self2 request fallbackEnabled remaining s :
  (forall request s, self1 request false s = self2 request false s) ->
  attempts self1 request fallbackEnabled remaining s
  = attempts self2 request fallbackEnabled remaining s.
Proof.
  intros Hself. revert s.
  induction remaining as [|remaining IH]; intros s; cbn [attempts].
  - unfold exhausted.
    destruct (if fallbackEnabled then getFallbackModel (model request)
              else None); [apply Hself | reflexivity].
  - unfold mbind, M_bind.
    rewrite (attempt_equation self1), (attempt_equation self2).
    destruct (turn_falls_back request fallbackEnabled s).
    + unfold mbind, M_bind. rewrite Hself.
      destruct (self2 _ false _) as [[r|e|] s1]; reflexivity.
    + change (attempt self1 request false s)
        with (attempt self2 request false s).
      destruct (attempt self2 request false s) as [[[r|]|e|] s1];
        try reflexivity.
      apply IH.
Qed.

(** With fallback disabled the dispatcher takes at most [maxAttempts]
    turns, and does not call itself. *)
Lemma sendMessage_flat_turns depth request s :
  at_most (turn_budget (tick s)) s (sendMessage depth request false s).2.
Proof.
  destruct depth as [|depth]; cbn [sendMessage]; [apply at_most_refl|].
  unfold sendMessage_body. rewrite run_ask.
  exact (attempts_flat (sendMessage depth) request
           (Z.to_nat (maxAttempts (getAccountCount (tick s))))
           {| tick := S (tick s); calls := calls s; trace := trace s;
              message_dedup := message_dedup s;
              stream_dedup := stream_dedup s |}).
Qed.

Lemma sendMessage_flat_depth depth request s :
  sendMessage (S depth) request false s = sendMessage 1 request false s.
Proof.
  cbn [sendMessage]. unfold sendMessage_body. rewrite !run_ask.
  apply attempts_flat_ext.
Qed.

Lemma sendMessage_turns depth request fallbackEnabled s :
  exists k,
    at_most (turn_budget (tick s) + turn_budget k) s
      (sendMessage depth request fallbackEnabled s).2.
Proof.
  destruct depth as [|depth]; cbn [sendMessage];
    [exists 0%nat; apply at_most_refl|].
  unfold sendMessage_body. rewrite run_ask.
  refine (attempts_bound (sendMessage depth) _ request fallbackEnabled
            (Z.to_nat (maxAttempts (getAccountCount (tick s))))
            {| tick := S (tick s); calls := calls s; trace := trace s;
               message_dedup := message_dedup s;
               stream_dedup := stream_dedup s |}).
  intros r s1. exists (tick s1). apply sendMessage_flat_turns.
Qed.

Lemma sendMessage_depth depth request fallbackEnabled s :
  sendMessage (S (S depth)) request fallbackEnabled s
  = sendMessage 2 request fallbackEnabled s.
Proof.
  change (sendMessage (S (S depth)))
    with (sendMessage_body (sendMessage (S depth))).
  change (sendMessage 2) with (sendMessage_body (sendMessage 1)).
  unfold sendMessage_body. rewrite !run_ask.
  apply attempts_ext. intros r s1. apply sendMessage_flat_depth.
Qed.

End MessageTurns.

Section StreamTurns.
Context `{W : World}.
Import Constants StreamingHandler.

Ltac quiet :=
  first [ exact (at_most_refl 0)
        | exact (fun s1 s2 s3 => at_most_add 0 0 s1 s2 s3)
        | exact at_most_emit
        | intros; apply at_most_quiet; reflexivity
        | intros; reflexivity
        | intros e _ Hpool; exact Hpool ].

Lemma stream_attempt_try_quiet account request :
  steps (at_most 0) (attempt_try account request).
Proof.
  apply (stream_attempt_try_steps (at_most 0)
           (fun e => is_getAvailableAccounts e = false)); quiet.
Qed.

Lemma stream_attempt_catch_quiet account model error :
  steps (at_most 0) (attempt_catch account model error).
Proof.
  apply (stream_attempt_catch_steps (at_most 0)
           (fun e => is_getAvailableAccounts e = false)); quiet.
Qed.

(** With fallback disabled a turn of the outer loop is one turn, and
    does not call the dispatcher. *)
Lemma stream_attempt_flat self request :
  steps (at_most 1) (attempt self request false).
Proof.
  unfold attempt, no_accounts.
  apply (at_most_bind 0 1); [apply at_most_emit; reflexivity|]. intros _.
  apply (at_most_bind 1 0); [apply at_most_pool|]. intros _.
  quiet_go stream_attempt_try_quiet stream_attempt_catch_quiet.
Qed.

(** A turn either hands the request to the dispatcher for the fallback
    model, or is what it is with fallback disabled. *)
Lemma stream_attempt_equation self request fallbackEnabled s :
  attempt self request fallbackEnabled s
  = match turn_falls_back request fallbackEnabled s with
    | Some fallbackModel =>
        (self (with_model fallbackModel request) false
         ≫= (fun _ => mret (Some tt)))
          (after_pool_check (model request) s)
    | None => attempt self request false s
    end.
Proof.
  unfold attempt, no_accounts, turn_falls_back. run.
  destruct (length _ =? 0)%nat; cbn [andb]; [|reflexivity]. run.
  destruct (isAllRateLimited _ _); cbn [andb]; [|reflexivity]. run.
  destruct (_ >? _); [|reflexivity].
  destruct fallbackEnabled; [|reflexivity].
  destruct (getFallbackModel _); [|reflexivity].
  now rewrite after_pool_check_state.
Qed.

Lemma stream_attempts_flat self request remaining :
  steps (at_most remaining) (attempts self request false remaining).
Proof.
  induction remaining as [|remaining IH]; cbn [attempts].
  - intros s. apply at_most_refl.
  - change (S remaining) with (1 + remaining)%nat.
    apply at_most_bind; [apply stream_attempt_flat|].
    intros [r|]; [intros s; apply at_most_refl | exact IH].
Qed.

Lemma stream_attempts_flat_ext self1 self2 request remaining s :
  attempts self1 request false remaining s
  = attempts self2 request false remaining s.
Proof.
  revert s. induction remaining as [|remaining IH]; intros s;
    cbn [attempts]; [reflexivity|].
  unfold mbind, M_bind.
  change (attempt self1 request false s)
    with (attempt self2 request false s).
  destruct (attempt self2 request false s) as [[[r|]|e|] s1];
    try reflexivity.
  apply IH.
Qed.

Section Outer.
Variable self : Request -> bool -> M unit.
Hypothesis self_bound :
  forall request s,
    exists k, at_most (turn_budget k) s (self request false s).2.

Lemma stream_attempts_bound request fallbackEnabled remaining s :
  exists k,
    at_most (remaining + turn_budget k) s
      (attempts self request fallbackEnabled remaining s).2.
Proof.
  revert s. induction remaining as [|remaining IH]; intros s;
    cbn [attempts].
  - unfold exhausted.
    destruct (if fallbackEnabled then getFallbackModel (model request)
              else None) as [fallbackModel|].
    + apply self_bound.
    + exists 0%nat. apply at_most_refl.
  - unfold mbind, M_bind. rewrite stream_attempt_equation.
    destruct (turn_falls_back request fallbackEnabled s)
      as [fallbackModel|].
    + destruct (self_bound (with_model fallbackModel request)
                  (after_pool_check (model request) s)) as [k Hk].
      pose proof (at_most_after_pool_check (model request) s) as H1.
      exists k. unfold mbind, M_bind.
      destruct (self (with_model fallbackModel request) false
                  (after_pool_check (model request) s))
        as [[r|e|] s']; simpl in *; unfold at_most in *; lia.
    + pose proof (stream_attempt_flat self request s) as H1.
      destruct (attempt self request false s) as [[[r|]|e|] s1];
        simpl in *;
        try (exists 0%nat; unfold at_most in *; simpl; lia).
      destruct (IH s1) as [k Hk]. exists k.
      unfold at_most in *. lia.
Qed.
End Outer.

Lemma stream_attempts_ext self1 self2 request fallbackEnabled remaining s :
  (forall request s, self1 request false s = self2 request false s) ->
  attempts self1 request fallbackEnabled remaining s
  = attempts self2 request fallbackEnabled remaining s.
Proof.
  intros Hself. revert s.
  induction remaining as [|remaining IH]; intros s; cbn [attempts].
  - unfold exhausted.
    destruct (if fallbackEnabled then getFallbackModel (model request)
              else None); [apply Hself | reflexivity].
  - unfold mbind, M_bind.
    rewrite (stream_attempt_equation self1), (stream_attempt_equation self2).
    destruct (turn_falls_back request fallbackEnabled s).
    + unfold mbind, M_bind. rewrite Hself.
      destruct (self2 _ false _) as [[r|e|] s1]; reflexivity.
    + change (attempt self1 request false s)
        with (attempt self2 request false s).
      destruct (attempt self2 request false s) as [[[r|]|e|] s1];
        try reflexivity.
      apply IH.
Qed.

(** With fallback disabled the dispatcher takes at most [maxAttempts]
    turns, and does not call itself. *)
Lemma sendMessageStream_flat_turns depth request s :
  at_most (turn_budget (tick s)) s (sendMessageStream depth request false s).2.
Proof.
  destruct depth as [|depth]; cbn [sendMessageStream]; [apply at_most_refl|].
  unfold sendMessageStream_body. rewrite run_ask.
  exact (stream_attempts_flat (sendMessageStream depth) request
           (Z.to_nat (maxAttempts (getAccountCount (tick s))))
           {| tick := S (tick s); calls := calls s; trace := trace s;
              message_dedup := message_dedup s;
              stream_dedup := stream_dedup s |}).
Qed.

Lemma sendMessageStream_flat_depth depth request s :
  sendMessageStream (S depth) request false s = sendMessageStream 1 request false s.
Proof.
  cbn [sendMessageStream]. unfold sendMessageStream_body. rewrite !run_ask.
  apply stream_attempts_flat_ext.
Qed.

Lemma sendMessageStream_turns depth request fallbackEnabled s :
  exists k,
    at_most (turn_budget (tick s) + turn_budget k) s
      (sendMessageStream depth request fallbackEnabled s).2.
Proof.
  destruct depth as [|depth]; cbn [sendMessageStream];
    [exists 0%nat; apply at_most_refl|].
  unfold sendMessageStream_body. rewrite run_ask.
  refine (stream_attempts_bound (sendMessageStream depth) _ request fallbackEnabled
            (Z.to_nat (maxAttempts (getAccountCount (tick s))))
            {| tick := S (tick s); calls := calls s; trace := trace s;
               message_dedup := message_dedup s;
               stream_dedup := stream_dedup s |}).
  intros r s1. exists (tick s1). apply sendMessageStream_flat_turns.
Qed.

Lemma sendMessageStream_depth depth request fallbackEnabled s :
  sendMessageStream (S (S depth)) request fallbackEnabled s
  = sendMessageStream 2 request fallbackEnabled s.
Proof.
  change (sendMessageStream (S (S depth)))
    with (sendMessageStream_body (sendMessageStream (S depth))).
  change (sendMessageStream 2) with (sendMessageStream_body (sendMessageStream 1)).
  unfold sendMessageStream_body. rewrite !run_ask.
  apply stream_attempts_ext. intros r s1. apply sendMessageStream_flat_depth.
Qed.

End StreamTurns.

Section Termination.
Context `{W : World}.
Import Constants.

(** C2.  Every call of the non-streaming dispatcher [sendMessage] and of
    the streaming dispatcher [sendMessageStream] terminates, whatever the
    collaborators (upstream, timer, SSE parser, account manager) answer
    when they are called: nesting the dispatcher in itself twice is
    enough for the call to end by returning or by throwing, deeper
    nesting changes nothing, and with fallback disabled the dispatcher
    does not call itself at all.  The outer loop of a call takes at most
    [maxAttempts = max(MAX_RETRIES, accountCount + 1)] turns, with
    [MAX_RETRIES = 3] and the account count read when the call starts;
    with fallback enabled the only further turns are those of one nested
    call for the fallback model with fallback disabled, itself bounded by
    its own [maxAttempts].  When the turns are used up and no fallback
    applies, the call throws 'Max retries exceeded'. *)
Theorem dispatch_terminates (request : Request) (fallbackEnabled : bool)
  (s : State) :
  let maxAttempts k := Z.to_nat (Z.max 3 (getAccountCount k + 1)) in
  let nested k := if fallbackEnabled then maxAttempts k else 0%nat in
  (forall accountCount,
      MessageHandler.maxAttempts accountCount
      = Z.max MAX_RETRIES (accountCount + 1)
      /\ StreamingHandler.maxAttempts accountCount
         = Z.max MAX_RETRIES (accountCount + 1))
  /\ MAX_RETRIES = 3
  /\ (let run depth :=
        MessageHandler.sendMessage depth request fallbackEnabled s in
      let flat := MessageHandler.sendMessage 1 request false s in
      (run 2%nat).1 <> OutOfFuel
      /\ (forall depth, run (2 + depth)%nat = run 2%nat)
      /\ flat.1 <> OutOfFuel
      /\ (turns (trace flat.2)
          <= turns (trace s) + maxAttempts (tick s))%nat
      /\ (exists k,
            (turns (trace (run 2%nat).2)
             <= turns (trace s) + maxAttempts (tick s) + nested k)%nat)
      /\ (forall self,
            MessageHandler.attempts self request false 0 s
            = (Thrown (new_Error "Max retries exceeded"), s)))
  /\ (let run depth :=
        StreamingHandler.sendMessageStream depth request fallbackEnabled s
      in
      let flat := StreamingHandler.sendMessageStream 1 request false s in
      (run 2%nat).1 <> OutOfFuel
      /\ (forall depth, run (2 + depth)%nat = run 2%nat)
      /\ flat.1 <> OutOfFuel
      /\ (turns (trace flat.2)
          <= turns (trace s) + maxAttempts (tick s))%nat
      /\ (exists k,
            (turns (trace (run 2%nat).2)
             <= turns (trace s) + maxAttempts (tick s) + nested k)%nat)
      /\ (forall self,
            StreamingHandler.attempts self request false 0 s
            = (Thrown (new_Error "Max retries exceeded"), s))).
Proof.
  intros maxAttempts nested.
  split; [intros accountCount; split; reflexivity|].
  split; [reflexivity|]. split.
  - intros run flat. subst run flat. cbv beta.
    split; [apply total_sendMessage; destruct fallbackEnabled; lia|].
    split; [intros depth; apply sendMessage_depth|].
    split; [apply total_sendMessage; lia|].
    split; [apply (sendMessage_flat_turns 1 request s)|].
    split; [|intros self; reflexivity].
    subst nested. destruct fallbackEnabled.
    + destruct (sendMessage_turns 2 request true s) as [k Hk].
      exists k. unfold at_most, turn_budget in Hk. subst maxAttempts.
      cbv beta. unfold MAX_RETRIES in Hk. lia.
    + exists 0%nat. rewrite sendMessage_flat_depth.
      pose proof (sendMessage_flat_turns 1 request s) as H1.
      unfold at_most, turn_budget, MAX_RETRIES in H1. subst maxAttempts.
      cbv beta. lia.
  - intros run flat. subst run flat. cbv beta.
    split; [apply total_sendMessageStream; destruct fallbackEnabled; lia|].
    split; [intros depth; apply sendMessageStream_depth|].
    split; [apply total_sendMessageStream; lia|].
    split; [apply (sendMessageStream_flat_turns 1 request s)|].
    split; [|intros self; reflexivity].
    subst nested. destruct fallbackEnabled.
    + destruct (sendMessageStream_turns 2 request true s) as [k Hk].
      exists k. unfold at_most, turn_budget in Hk. subst maxAttempts.
      cbv beta. unfold MAX_RETRIES in Hk. lia.
    + exists 0%nat. rewrite sendMessageStream_flat_depth.
      pose proof (sendMessageStream_flat_turns 1 request s) as H1.
      unfold at_most, turn_budget, MAX_RETRIES in H1. subst maxAttempts.
      cbv beta. lia.
Qed.

End Termination.

(** Scenario 4 without end: three accounts stay locked for 90 s at every
    turn.  The dispatcher sleeps through max(3, 3 + 1) = 4 turns and throws
    'Max retries exceeded'; with a fallback model it then does the same
    once more for that model. *)
Example dispatch_uses_all_turns :
  let locked := scenario_world [] None None [] 90000 in
  let locked_with_fallback :=
    scenario_world [] None (Some "gemini-pro") [] 90000 in
  let flat :=
    MessageHandler.sendMessage (W := locked) 1 text_request false
      initial_state in
  let nested :=
    StreamingHandler.sendMessageStream (W := locked_with_fallback) 2
      text_request true initial_state in
  flat.1 = Thrown (new_Error "Max retries exceeded")
  /\ turns (trace flat.2) = 4%nat
  /\ nested.1 = Thrown (new_Error "Max retries exceeded")
  /\ turns (trace nested.2) = 8%nat.
Proof. vm_compute. repeat split. Qed.

(** * The rest of the cited files *)

(** ** Strings *)

Lemma prefix_app (needle hay : string) :
  String.prefix needle hay = true <-> exists after, hay = needle ++ after.
Proof.
  revert hay. induction needle as [|c needle IH]; intros hay.
  - split; [intros _; now exists hay | intros _; now destruct hay].
  - destruct hay as [|d hay]; simpl.
    + split; [discriminate | intros [after H]; discriminate].
    + destruct (Ascii.ascii_dec c d) as [->|Hne].
      * rewrite IH. split; intros [after H]; exists after;
          [now rewrite H | now inversion H].
      * split; [discriminate|]. intros [after H]. inversion H. congruence.
Qed.

(** [includes] is [String.prototype.includes]. *)
Lemma includes_contains (needle hay : string) :
  JS.includes needle hay = true <-> contains needle hay.
Proof.
  unfold contains. induction hay as [|d hay IH].
  - cbn [JS.includes]. rewrite orb_false_r, prefix_app. split.
    + intros [after H]. now exists "", after.
    + intros (before & after & H). exists after.
      destruct before; [exact H | discriminate].
  - cbn [JS.includes]. rewrite orb_true_iff, prefix_app, IH. split.
    + intros [[after H] | (before & after & H)].
      * now exists "", after.
      * exists (String d before), after. simpl. now rewrite H.
    + intros (before & after & H). destruct before as [|b before].
      * left. now exists after.
      * right. exists before, after. simpl in H. now inversion H.
Qed.

Lemma string_app_cons (c : ascii) (a b : string) :
  String c a ++ b = String c (a ++ b).
Proof. reflexivity. Qed.

Lemma string_app_nil (b : string) : "" ++ b = b.
Proof. reflexivity. Qed.

Lemma string_app_char (c : ascii) (b : string) :
  String c "" ++ b = String c b.
Proof. reflexivity. Qed.

Lemma string_app_assoc (a b c : string) : (a ++ b) ++ c = a ++ (b ++ c).
Proof.
  induction a as [|x a IH]; [reflexivity|].
  now rewrite !string_app_cons, IH.
Qed.

(** ** Helpers *)

Lemma contains_trans (a b c : string) :
  contains a b -> contains b c -> contains a c.
Proof.
  intros (p & q & ->) (p' & q' & ->). exists (p' ++ p), (q ++ q').
  now rewrite !string_app_assoc.
Qed.

Lemma includes_trans (a b c : string) :
  JS.includes a b = true -> JS.includes b c = true -> JS.includes a c = true.
Proof. rewrite !includes_contains. apply contains_trans. Qed.

(** X2.  In both handlers the first marker of [isModelCapacityExhausted]
    is covered by the second: a text is taken for exhausted capacity
    exactly when, in lower case, it contains capacity_exhausted, model is
    currently overloaded, or service temporarily unavailable. *)
Theorem isModelCapacityExhausted_markers `{World} (errorText : string) :
  let lower := toLowerCase errorText in
  let three :=
    JS.includes "capacity_exhausted" lower
    || JS.includes "model is currently overloaded" lower
    || JS.includes "service temporarily unavailable" lower in
  MessageHandler.isModelCapacityExhausted errorText = three
  /\ StreamingHandler.isModelCapacityExhausted errorText = three.
Proof.
  intros lower three. subst three.
  unfold MessageHandler.isModelCapacityExhausted,
    StreamingHandler.isModelCapacityExhausted. fold lower.
  assert (Hcovered : JS.includes "model_capacity_exhausted" lower = true ->
                     JS.includes "capacity_exhausted" lower = true).
  { apply includes_trans. reflexivity. }
  destruct (JS.includes "model_capacity_exhausted" lower);
    [rewrite Hcovered by reflexivity|]; split; reflexivity.
Qed.

(** ** Throttled fetch and jitter *)

Lemma do_fetch_run `{World} (url : string) (init : FetchInit) (s : State) :
  do_fetch url init s
  = let s' := {| tick := tick s; calls := S (calls s);
                 trace := (trace s ++ [fetch url init])%list;
                 message_dedup := message_dedup s;
                 stream_dedup := stream_dedup s |} in
    match upstream (calls s) url init with
    | Rejected e => (Thrown e, s')
    | Resolved r => (Ok r, s')
    end.
Proof.
  unfold do_fetch, call_upstream, emit, mbind, M_bind. simpl.
  destruct (upstream (calls s) url init); reflexivity.
Qed.

Section Throttled.
Context `{W : World}.
Import Throttle.

(** X3.  [throttledFetch] gives the answer of [fetch] for the same call,
    after at most one sleep: none when throttling is off or the
    configured delay is negative, the configured delay when it is
    positive, and 200 ms when it is missing or zero, so a delay of 0
    does not turn the pause off. *)
Theorem throttledFetch_delay (config : Config) (url : string)
  (options : FetchInit) (s : State) :
  let sleeps :=
    if requestThrottlingEnabled config then
      match requestDelayMs config with
      | None => [sleep 200]
      | Some d =>
          if d =? 0 then [sleep 200]
          else if d >? 0 then [sleep d] else []
      end
    else [] in
  let out := throttledFetch config url options s in
  out.1 = (do_fetch url options s).1
  /\ trace out.2 = (trace s ++ sleeps ++ [fetch url options])%list
  /\ calls out.2 = S (calls s).
Proof.
  intros sleeps out. subst sleeps out. unfold throttledFetch.
  pose proof (do_fetch_run url options) as Hfetch.
  assert (Hsleep : forall d,
    let o := (emit (sleep d) ≫= (fun _ => do_fetch url options)) s in
    o.1 = (do_fetch url options s).1
    /\ trace o.2 = (trace s ++ [sleep d] ++ [fetch url options])%list
    /\ calls o.2 = S (calls s)).
  { intros d. cbv zeta. rewrite run_emit, !Hfetch.
    cbn [tick calls trace message_dedup stream_dedup].
    destruct (upstream (calls s) url options); cbn [fst snd trace calls];
      rewrite <- ?app_assoc; repeat split; reflexivity. }
  assert (Hnone :
    let o := (mret tt ≫= (fun _ => do_fetch url options)) s in
    o.1 = (do_fetch url options s).1
    /\ trace o.2 = (trace s ++ [] ++ [fetch url options])%list
    /\ calls o.2 = S (calls s)).
  { cbv zeta. rewrite run_ret, !Hfetch.
    destruct (upstream (calls s) url options); cbn [fst snd trace calls];
      repeat split; reflexivity. }
  destruct (requestThrottlingEnabled config); [|exact Hnone].
  destruct (requestDelayMs config) as [d|]; cbn [JS.js_or].
  - destruct (d =? 0).
    + change (200 >? 0) with true. cbv iota. apply Hsleep.
    + destruct (d >? 0); [apply Hsleep | exact Hnone].
  - change (200 >? 0) with true. cbv iota. apply Hsleep.
Qed.

End Throttled.



(** ** Durations *)

Lemma uint_digits (d : Decimal.uint) :
  all_digits (NilEmpty.string_of_uint d) = true.
Proof. induction d; simpl; auto. Qed.

Lemma uint_nonempty (d : Decimal.uint) :
  d <> Decimal.Nil -> NilEmpty.string_of_uint d <> "".
Proof. destruct d; simpl; congruence. Qed.

(** A non-negative number prints as a non-empty run of digits. *)
Lemma show_digits (z : Z) :
  0 <= z -> all_digits (JS.show z) = true /\ JS.show z <> "".
Proof.
  intros Hz. unfold JS.show. destruct z as [|p|p]; [split; easy | | lia].
  cbn [Z.to_int NilZero.string_of_int]. unfold NilZero.string_of_uint.
  pose proof (DecimalPos.Unsigned.to_uint_nonnil p) as Hnil.
  destruct (Pos.to_uint p) eqn:E; try congruence;
    rewrite <- E; (split; [apply uint_digits | apply uint_nonempty; congruence]).
Qed.

Lemma show_inj (a b : Z) : JS.show a = JS.show b -> a = b.
Proof.
  unfold JS.show. intros H.
  assert (Hn : forall z, Z.to_int z <> Decimal.Pos Decimal.Nil
                         /\ Z.to_int z <> Decimal.Neg Decimal.Nil).
  { intros [|p|p]; cbn [Z.to_int]; split; try discriminate;
      intros [= E]; now apply DecimalPos.Unsigned.to_uint_nonnil in E. }
  apply (f_equal NilZero.int_of_string) in H.
  rewrite !NilZero.isi in H by apply Hn.
  injection H as E. now apply DecimalZ.to_int_inj.
Qed.

(** Two runs of digits, each followed by a character that is not a digit,
    agree only if they agree part by part. *)
Lemma digits_split (d1 d2 : string) (c1 c2 : ascii) (r1 r2 : string) :
  all_digits d1 = true -> all_digits d2 = true ->
  is_digit c1 = false -> is_digit c2 = false ->
  d1 ++ String c1 r1 = d2 ++ String c2 r2 ->
  d1 = d2 /\ c1 = c2 /\ r1 = r2.
Proof.
  revert d2. induction d1 as [|x d1 IH]; intros [|y d2] H1 H2 Hc1 Hc2 H.
  - rewrite !string_app_nil in H. now inversion H.
  - rewrite string_app_nil, string_app_cons in H. inversion H; subst.
    cbn [all_digits] in H2. apply andb_true_iff in H2 as [H2 _]. congruence.
  - rewrite string_app_nil, string_app_cons in H. inversion H; subst.
    cbn [all_digits] in H1. apply andb_true_iff in H1 as [H1 _]. congruence.
  - rewrite !string_app_cons in H. inversion H; subst.
    cbn [all_digits] in H1, H2.
    apply andb_true_iff in H1 as [_ H1]. apply andb_true_iff in H2 as [_ H2].
    destruct (IH d2 H1 H2 Hc1 Hc2) as (-> & -> & ->); [assumption|].
    repeat split.
Qed.

Lemma show_unit_split (a b : Z) (c1 c2 : ascii) (r1 r2 : string) :
  0 <= a -> 0 <= b -> is_digit c1 = false -> is_digit c2 = false ->
  JS.show a ++ String c1 r1 = JS.show b ++ String c2 r2 ->
  a = b /\ c1 = c2 /\ r1 = r2.
Proof.
  intros Ha Hb Hc1 Hc2 H.
  destruct (digits_split _ _ _ _ _ _ (proj1 (show_digits a Ha))
              (proj1 (show_digits b Hb)) Hc1 Hc2 H) as (E & -> & ->).
  apply show_inj in E. now subst.
Qed.

(** The parts of a non-negative duration. *)
Lemma duration_parts (ms : Z) :
  0 <= ms ->
  let seconds := ms / 1000 in
  let hours := seconds / 3600 in
  let minutes := Z.rem seconds 3600 / 60 in
  let secs := Z.rem seconds 60 in
  0 <= hours /\ 0 <= minutes < 60 /\ 0 <= secs < 60
  /\ seconds = 3600 * hours + 60 * minutes + secs.
Proof.
  intros Hms seconds hours minutes secs.
  assert (Hs : 0 <= seconds) by (apply Z.div_pos; lia).
  subst hours minutes secs.
  rewrite !Z.rem_mod_nonneg by lia.
  pose proof (Z.mod_pos_bound seconds 3600 ltac:(lia)).
  pose proof (Z.mod_pos_bound seconds 60 ltac:(lia)).
  pose proof (Z.div_mod seconds 3600 ltac:(lia)).
  pose proof (Z.div_mod (seconds mod 3600) 60 ltac:(lia)).
  assert ((seconds mod 3600) mod 60 = seconds mod 60).
  { rewrite <- (Z.mod_mod_divide seconds 3600 60);
      [reflexivity | exists 60; lia]. }
  repeat split; try (apply Z.div_pos; lia);
    try (apply Z.div_lt_upper_bound; lia); lia.
Qed.

(** X5.  [formatDuration] drops the part of a second and nothing else: two
    non-negative durations print alike exactly when they have the same
    whole seconds. *)
Theorem formatDuration_whole_seconds (a b : Z) (Ha : 0 <= a) (Hb : 0 <= b) :
  Helpers.formatDuration a = Helpers.formatDuration b
  <-> a / 1000 = b / 1000.
Proof.
  split; [|unfold Helpers.formatDuration; now intros ->].
  destruct (duration_parts a Ha) as (Hh & Hm & Hs & Ea).
  destruct (duration_parts b Hb) as (Hh' & Hm' & Hs' & Eb).
  unfold Helpers.formatDuration.
  set (ha := a / 1000 / 3600) in *. set (hb := b / 1000 / 3600) in *.
  set (ma := Z.rem (a / 1000) 3600 / 60) in *.
  set (mb := Z.rem (b / 1000) 3600 / 60) in *.
  set (sa := Z.rem (a / 1000) 60) in *.
  set (sb := Z.rem (b / 1000) 60) in *.
  rewrite Ea, Eb.
  destruct (Z.gtb_spec ha 0) as [Hha|Hha];
    destruct (Z.gtb_spec hb 0) as [Hhb|Hhb];
    [| destruct (Z.gtb_spec mb 0) as [Hmb|Hmb]
     | destruct (Z.gtb_spec ma 0) as [Hma|Hma]
     | destruct (Z.gtb_spec ma 0) as [Hma|Hma];
       destruct (Z.gtb_spec mb 0) as [Hmb|Hmb] ];
    intros Hfmt; rewrite ?string_app_char in Hfmt;
    repeat (apply show_unit_split in Hfmt;
            [| lia | lia | reflexivity | reflexivity];
            destruct Hfmt as (? & ? & Hfmt));
    try congruence; lia.
Qed.

Lemma formatDuration_whole_seconds_witness :
  Helpers.formatDuration 3725999 = Helpers.formatDuration 3725000.
Proof.
  apply (formatDuration_whole_seconds 3725999 3725000); [lia | lia |].
  reflexivity.
Defined.

(** ** Quota tracker *)

Section QuotaTrackerMore.
Import QuotaTracker.
Variable config : Config.
Variable now : Z.

(** X6.  No account is both low and critical on quota for a model; and
    when the quota data is fresh and the critical threshold is not above
    the low one, an account is low or critical exactly when its fraction
    is at most the low threshold. *)
Theorem quota_low_critical_classes (account : Account) (modelId : string) :
  isQuotaLow config account modelId
  && isQuotaCritical config now account modelId = false
  /\ (forall f,
        getQuotaFraction account modelId = Some f ->
        isQuotaFresh config now account = true ->
        (criticalThreshold config <=? lowThreshold config)%float = true ->
        isQuotaCritical config now account modelId
        || isQuotaLow config account modelId
        = (f <=? lowThreshold config)%float).
Proof.
  unfold isQuotaLow, isQuotaCritical. split.
  - destruct (getQuotaFraction account modelId) as [f|]; [|reflexivity].
    destruct (isQuotaFresh config now account); cbn [negb];
      [|apply andb_false_r].
    destruct (f <=? criticalThreshold config)%float eqn:Ec;
      [|apply andb_false_r].
    destruct (criticalThreshold config <? f)%float eqn:El;
      [|now rewrite !andb_false_r].
    apply ltb_leb_false in El. congruence.
  - intros f -> -> Hle. cbn [negb].
    destruct (f <=? criticalThreshold config)%float eqn:Ec.
    + symmetry. eapply leb_trans; eassumption.
    + cbn [orb].
      destruct (f <=? lowThreshold config)%float eqn:El; [|reflexivity].
      cbn [andb]. apply not_leb_ltb; [| |exact Ec].
      * apply (leb_is_number _ _ El).
      * apply (leb_is_number _ _ Hle).
Qed.

End QuotaTrackerMore.

(** ** Hybrid strategy *)

Section HybridStrategyMore.
Import HybridStrategy.
Variable config : Config.
Variable Date_now : Reading -> Z.

Lemma candidate_set_strict st accounts modelId c :
  In c (candidate_set config Date_now st accounts modelId) ->
  eligible config Date_now st modelId true c = true
  \/ (eligible config Date_now st modelId false c = true
      /\ List.filter (eligible config Date_now st modelId true)
           (indexed accounts) = []).
Proof.
  unfold candidate_set.
  destruct (List.filter (eligible config Date_now st modelId true) _) eqn:E.
  - intros Hin. apply filter_In in Hin. right. tauto.
  - rewrite <- E. intros Hin. apply filter_In in Hin. left. tauto.
Qed.

Lemma lookup_indexed (accounts : list Account) j a :
  accounts !! j = Some a ->
  In {| c_account := a; c_index := j |} (indexed accounts).
Proof.
  intros H. apply list_elem_of_In. unfold indexed.
  apply elem_of_lookup_imap. exists j, a. split; [reflexivity | exact H].
Qed.

(** Whatever the scores, NaN included, the head of the sorted array is
    one of the elements. *)
Lemma sort_head_in (l : list Scored) :
  l <> [] -> exists b rest, sort l = b :: rest /\ In b l.
Proof.
  induction l as [|x l IH]; [congruence|]. intros _.
  change (sort (x :: l)) with (insert_sorted x (sort l)).
  destruct l as [|y l].
  - exists x, []. split; [reflexivity | now left].
  - destruct IH as (b & rest & Hs & Hin); [congruence|].
    rewrite Hs. cbn [insert_sorted].
    destruct (0 <? compareFn x b)%float.
    + exists b, (insert_sorted x rest). split; [reflexivity | now right].
    + exists x, (b :: rest). split; [reflexivity | now left].
Qed.

(** X8.  Whatever the weights, the bucket capacity and the readings of
    the clock, [selectAccount] answers with no wait and leaves the array
    at its length; the account it returns is the one at the returned
    index with [lastUsed] set.  It passed the base usability test, the
    health test and the token test of the first filter and was not
    critical on quota there; or nobody passed the first filter, and it
    passed the three tests of the fallback filter, so that every account
    passing the three tests of the first filter was critical.  When it
    returns no account, the array and the trackers are untouched.  With
    one reading of the clock for the whole selection this says: the
    chosen account passed the three tests, and is critical on quota only
    when every account passing them is. *)
Theorem hybrid_selects_eligible (st : State) (accounts : list Account)
  (modelId : string) :
  let out := selectAccount config Date_now st accounts modelId in
  let usable reading a :=
    BaseStrategy.isAccountUsable (Date_now reading) a modelId
    && HealthTracker.isUsable (healthScore config) (healthTracker st)
         (email a)
    && TokenBucketTracker.hasTokens (tokenBucket config)
         (tokenBucketTracker st) (email a) in
  let critical j a :=
    QuotaTracker.isQuotaCritical (quotaConfig config)
      (Date_now (filter_quota j)) a modelId in
  waitMs out.1.1 = 0
  /\ length out.1.2 = length accounts
  /\ match account out.1.1 with
     | None => out.1.2 = accounts /\ out.2 = st /\ index out.1.1 = 0%nat
     | Some chosen =>
         let i := index out.1.1 in
         exists original,
           accounts !! i = Some original
           /\ chosen = set_lastUsed (Date_now on_select) original
           /\ ((usable (filter_usable i) original = true
                /\ critical i original = false)
               \/ (usable (fallback_usable i) original = true
                   /\ forall j other,
                        accounts !! j = Some other ->
                        usable (filter_usable j) other = true ->
                        critical j other = true))
           /\ ((forall reading, Date_now reading = Date_now on_select) ->
               usable on_select original = true
               /\ (critical i original = true ->
                   forall j other,
                     accounts !! j = Some other ->
                     usable on_select other = true ->
                     critical j other = true))
     end.
Proof.
  intros out usable critical. subst out. unfold selectAccount.
  rewrite getCandidates_candidate_set.
  destruct (length accounts =? 0)%nat; [cbn; auto|].
  destruct (candidate_set config Date_now st accounts modelId) as [|c0 cs]
    eqn:Ec; [cbn; auto|].
  cbn [length Nat.eqb].
  set (f := fun c => {| s_account := c_account c; s_index := c_index c;
                        s_score := calculateScore config st
                                     (Date_now (score_quota (c_index c)))
                                     (Date_now (score_lru (c_index c)))
                                     (c_account c) modelId |}).
  destruct (sort_head_in (map f (c0 :: cs))) as (b & rest & Hs & Hin);
    [discriminate|].
  rewrite Hs. cbv zeta. cbn [fst snd account index waitMs].
  apply in_map_iff in Hin as (c & <- & Hc). cbn [f s_account s_index].
  rewrite <- Ec in Hc.
  destruct (candidate_set_eligible config Date_now st accounts modelId c Hc)
    as [Hidx _].
  split; [reflexivity|]. split; [apply length_insert|].
  exists (c_account c). split; [now apply indexed_lookup|].
  split; [reflexivity|].
  assert (Hcases :
    (usable (filter_usable (c_index c)) (c_account c) = true
     /\ critical (c_index c) (c_account c) = false)
    \/ (usable (fallback_usable (c_index c)) (c_account c) = true
        /\ forall j other,
             accounts !! j = Some other ->
             usable (filter_usable j) other = true ->
             critical j other = true)).
  { destruct (candidate_set_strict st accounts modelId c Hc)
      as [Hel|[Hel Hnone]].
    - left. unfold eligible in Hel. cbn [negb orb] in Hel.
      apply andb_true_iff in Hel as [Hel Hq].
      split; [exact Hel|]. now apply negb_true_iff in Hq.
    - right. unfold eligible in Hel. cbn [negb orb] in Hel.
      rewrite andb_true_r in Hel. split; [exact Hel|].
      intros j other Hj Hother. apply lookup_indexed in Hj.
      destruct (critical j other) eqn:Eo; [reflexivity|].
      assert (In {| c_account := other; c_index := j |}
                (List.filter (eligible config Date_now st modelId true)
                   (indexed accounts))) as Hf.
      { apply filter_In. split; [exact Hj|]. unfold eligible.
        cbn [c_account c_index]. fold (usable (filter_usable j) other)
          (critical j other).
        now rewrite Hother, Eo. }
      rewrite Hnone in Hf. destruct Hf. }
  split; [exact Hcases|].
  intros Hclock. unfold usable in *.
  rewrite ?(Hclock (filter_usable _)), ?(Hclock (fallback_usable _))
    in Hcases.
  split; [tauto|].
  intros Hcrit j other Hj Hother.
  destruct Hcases as [[_ Hno]|[_ Hall]]; [congruence|].
  apply (Hall j other Hj). now rewrite (Hclock (filter_usable j)).
Qed.

End HybridStrategyMore.

(** ** Token counter *)

Section CountTokensMore.
Import CountTokens.
Variable encode : string -> option (list Z).
Variable buildCloudCodeRequest : Request -> string -> Error + string.
Variable ANTIGRAVITY_ENDPOINT_FALLBACKS : list string.
Variable fetch : nat -> string -> FetchInit -> FetchResult.

Let countTokens :=
  countTokens encode buildCloudCodeRequest ANTIGRAVITY_ENDPOINT_FALLBACKS
    fetch.
Let countTokensLocally := countTokensLocally encode.
Let estimateTextTokens := estimateTextTokens encode.
Let call_to (init : FetchInit) (endpoint : string) : string * FetchInit :=
  (endpoint ++ "/v1internal:generateContent", init).

Lemma try_endpoints_calls headers body endpoints k calls :
  exists n,
    (n <= length endpoints)%nat
    /\ (try_endpoints fetch headers body endpoints k calls).2
       = (calls ++ map (call_to (post headers body)) (take n endpoints))%list.
Proof.
  revert k calls. induction endpoints as [|endpoint rest IH];
    intros k calls.
  - exists 0%nat. cbn. split; [lia | now rewrite app_nil_r].
  - cbn [try_endpoints].
    change (endpoint ++ "/v1internal:generateContent", post headers body)
      with (call_to (post headers body) endpoint).
    set (call := call_to (post headers body) endpoint).
    assert (Hnext :
      exists n,
        (n <= length (endpoint :: rest))%nat
        /\ (try_endpoints fetch headers body rest (S k)
              (calls ++ [call])).2
           = (calls
              ++ map (call_to (post headers body))
                   (take n (endpoint :: rest)))%list).
    { destruct (IH (S k) (calls ++ [call])%list) as (n & Hn & E).
      exists (S n). split; [cbn; lia|]. rewrite E. cbn [take map].
      now rewrite <- app_assoc. }
    destruct (fetch k _ _) as [e|response]; [exact Hnext|].
    destruct (negb (ok response)); [exact Hnext|].
    destruct (json response) as [e|data]; [exact Hnext|].
    exists 1%nat. split; [cbn; lia|]. reflexivity.
Qed.

(** X9.  Whatever the request, the account manager and the option, the
    upstream calls of a count go to the endpoints in their listed order,
    from the first on, each endpoint at most once, and all carry the
    same options.  Without an account manager no call is made and the
    answer is the local estimate, also when counting by the API is
    asked for. *)
Theorem countTokens_endpoint_order (request : Request)
  (accountManager : option AccountManager) (useAPI : bool) :
  (exists n init,
      (n <= length ANTIGRAVITY_ENDPOINT_FALLBACKS)%nat
      /\ (countTokens request accountManager useAPI).2
         = map (fun endpoint =>
                  (endpoint ++ "/v1internal:generateContent", init))
             (take n ANTIGRAVITY_ENDPOINT_FALLBACKS))
  /\ countTokens request None useAPI
     = ({| input_tokens := countTokensLocally request |}, []).
Proof.
  split;
    [|subst countTokens countTokensLocally;
      unfold CountTokens.countTokens;
      destruct useAPI, (hasComplexContent request); reflexivity].
  pose (none := post {| h_token := ""; h_model := ""; h_accept := "" |} "").
  assert (Hnone : forall r : Result,
    exists n init,
      (n <= length ANTIGRAVITY_ENDPOINT_FALLBACKS)%nat
      /\ (r, @nil (string * FetchInit)).2
         = map (fun endpoint =>
                  (endpoint ++ "/v1internal:generateContent", init))
             (take n ANTIGRAVITY_ENDPOINT_FALLBACKS)).
  { intros r. exists 0%nat, none. split; [lia | reflexivity]. }
  subst countTokens. unfold CountTokens.countTokens.
  destruct (useAPI || _); [|apply Hnone].
  destruct accountManager as [am|]; [|apply Hnone].
  unfold countTokensViaAPI.
  destruct (pickNext am (model request)) as [account|]; [|apply Hnone].
  destruct (getTokenForAccount am account) as [e|token]; [apply Hnone|].
  destruct (getProjectForAccount am account token) as [e|project];
    [apply Hnone|].
  destruct (buildCloudCodeRequest (countRequest request) project)
    as [e|body]; [apply Hnone|].
  destruct (try_endpoints_calls
              {| h_token := token; h_model := model request;
                 h_accept := "application/json" |} body
              ANTIGRAVITY_ENDPOINT_FALLBACKS 0 []) as (n & Hn & E).
  exists n, (post {| h_token := token; h_model := model request;
                     h_accept := "application/json" |} body).
  split; [exact Hn|].
  destruct (try_endpoints fetch _ body ANTIGRAVITY_ENDPOINT_FALLBACKS 0 [])
    as [[e|tokens] calls]; cbn [snd] in *; exact E.
Qed.

Lemma estimateTextTokens_nonneg text :
  0 <= CountTokens.estimateTextTokens encode text.
Proof.
  unfold CountTokens.estimateTextTokens.
  destruct text as [[|c t]|]; try lia.
  destruct (encode (String c t)); [lia|].
  apply Z.div_pos; lia.
Qed.

Lemma sum_app (l1 l2 : list Z) : sum (l1 ++ l2) = sum l1 + sum l2.
Proof.
  unfold sum. induction l1 as [|x l1 IH]; cbn [foldr app]; lia.
Qed.

Lemma sum_nonneg_map {A} (f : A -> Z) (l : list A) (lo : Z) :
  (forall a, lo <= f a) -> lo * Z.of_nat (length l) <= sum (map f l).
Proof.
  intros Hf. unfold sum.
  induction l as [|a l IH]; cbn [map foldr length]; [lia|].
  specialize (Hf a). lia.
Qed.

Lemma block_tokens_nonneg block : 0 <= block_tokens encode block.
Proof.
  unfold block_tokens.
  pose proof estimateTextTokens_nonneg as H.
  destruct (String.eqb (b_type block) "tool_use").
  { pose proof (H (b_name block)). pose proof (H (b_input block)). lia. }
  destruct (String.eqb (b_type block) "tool_result").
  { destruct (b_content block); try apply H. lia. }
  destruct (String.eqb (b_type block) "thinking"); [apply H | lia].
Qed.

(** X10.  The local estimate adds up over the conversation: the estimate
    for the messages of two conversations put one after the other is the
    estimate for the first (with the system prompt and the tools) plus
    the estimate for the messages of the second alone; every message
    costs at least 4, and the model, [max_tokens] and [stream] do not
    count. *)
Theorem countTokensLocally_additive (request : Request)
  (first second : list Message) (m : string) :
  countTokensLocally (with_messages (first ++ second) request)
  = countTokensLocally (with_messages first request)
    + countTokensLocally (only_messages second)
  /\ 4 * Z.of_nat (length (messages request))
     <= countTokensLocally request
  /\ countTokensLocally (with_model m request)
     = countTokensLocally request
  /\ countTokensLocally (countRequest request)
     = countTokensLocally request
  /\ countTokensLocally (only_messages []) = 0.
Proof.
  subst countTokensLocally. unfold CountTokens.countTokensLocally.
  cbn [with_messages only_messages with_model countRequest messages
       system tools map].
  split; [rewrite map_app, sum_app; cbn [sum foldr]; lia|].
  split; [|repeat split; reflexivity].
  pose proof estimateTextTokens_nonneg as H.
  assert (Hsys : 0 <=
    match system request with
    | SystemAbsent => 0
    | SystemString s => CountTokens.estimateTextTokens encode (Some s)
    | SystemArray blocks =>
        sum (map (fun block =>
               if String.eqb (ib_type block) "text"
               then CountTokens.estimateTextTokens encode (ib_text block)
               else 0) blocks)
    end).
  { destruct (system request) as [|s|blocks]; [lia | apply H |].
    etransitivity; [|apply (sum_nonneg_map _ blocks 0)]; [lia|].
    intros b. destruct (String.eqb (ib_type b) "text"); [apply H | lia]. }
  assert (Htools : 0 <=
    sum (map (fun tool =>
           CountTokens.estimateTextTokens encode (t_name tool)
           + CountTokens.estimateTextTokens encode
               (Some (default "" (t_description tool)))
           + CountTokens.estimateTextTokens encode
               (Some (t_input_schema tool))) (tools request))).
  { etransitivity; [|apply (sum_nonneg_map _ (tools request) 0)]; [lia|].
    intros t. pose proof (H (t_name t)).
    pose proof (H (Some (default "" (t_description t)))).
    pose proof (H (Some (t_input_schema t))). lia. }
  match goal with
  | |- _ <= _ + sum (map ?f (messages request)) + _ =>
      pose proof (sum_nonneg_map f (messages request) 4) as Hm
  end.
  assert (4 * Z.of_nat (length (messages request))
          <= sum (map
               (fun message =>
                  4 + CountTokens.estimateTextTokens encode
                        (Some (extractText (content message)))
                  + match content message with
                    | ContentArray blocks =>
                        sum (map (block_tokens encode) blocks)
                    | _ => 0
                    end) (messages request))); [|lia].
  apply Hm. intros message.
  pose proof (H (Some (extractText (content message)))).
  destruct (content message) as [s|blocks|]; try lia.
  pose proof (sum_nonneg_map (block_tokens encode) blocks 0
                block_tokens_nonneg). lia.
Qed.

End CountTokensMore.

(** ** What the endpoint loop throws *)

Section Throws.

Lemma throws_only_ret {A} (a : A) P : throws_only (mret a) P.
Proof. intros s e s' E. discriminate. Qed.

Lemma throws_only_throw {A} (e : Error) (P : Error -> Prop) :
  P e -> throws_only (@throw A e) P.
Proof. intros H s e' s' E. inversion E; subst. exact H. Qed.

Lemma throws_only_bind {A B} (m : M A) (k : A -> M B) P :
  throws_only m P -> (forall a, throws_only (k a) P) ->
  throws_only (m ≫= k) P.
Proof.
  intros Hm Hk s e s' E. unfold mbind, M_bind in E.
  destruct (m s) as [[a|e1|] s1] eqn:Em; [|inversion E; subst|discriminate].
  - eapply Hk. exact E.
  - eapply Hm. exact Em.
Qed.

Lemma throws_only_try_catch {A} (m : M A) (h : Error -> M A) P :
  (forall e, throws_only (h e) P) -> throws_only (try_catch m h) P.
Proof.
  intros Hh s e s' E. unfold try_catch in E.
  destruct (m s) as [[a|e1|] s1] eqn:Em; try discriminate.
  eapply Hh. exact E.
Qed.

Lemma throws_only_out_of_fuel {A} P : throws_only (@out_of_fuel A) P.
Proof. intros s e s' E. discriminate. Qed.

End Throws.

Section EndpointThrows.
Context `{W : World}.

Lemma endpoint_turn_throws account request token body vars :
  throws_only
    (MessageHandler.endpoint_turn account request token body vars)
    (fun e => isRateLimitError e = true).
Proof.
  unfold MessageHandler.endpoint_turn. apply throws_only_try_catch.
  intros e. destruct (isRateLimitError e) eqn:E;
    [now apply throws_only_throw | apply throws_only_ret].
Qed.

Lemma stream_endpoint_turn_throws account request token body vars :
  throws_only
    (StreamingHandler.endpoint_turn account request token body vars)
    (fun e => isRateLimitError e = true \/ isEmptyResponseError e = true).
Proof.
  unfold StreamingHandler.endpoint_turn. apply throws_only_try_catch.
  intros e. destruct (isRateLimitError e) eqn:E;
    [apply throws_only_throw; now left|].
  destruct (isEmptyResponseError e) eqn:E';
    [apply throws_only_throw; now right | apply throws_only_ret].
Qed.

Lemma endpoint_loop_throws_only fuel account request token body vars :
  throws_only
    (MessageHandler.endpoint_loop fuel account request token body vars)
    (fun e => isRateLimitError e = true).
Proof.
  revert vars. induction fuel as [|fuel IH]; intros vars;
    cbn [MessageHandler.endpoint_loop];
    destruct (_ <? _)%nat; try apply throws_only_ret;
    [apply throws_only_out_of_fuel|].
  apply throws_only_bind; [apply endpoint_turn_throws|].
  intros [r|vars']; [apply throws_only_ret | apply IH].
Qed.

Lemma stream_endpoint_loop_throws_only fuel account request token body
  vars :
  throws_only
    (StreamingHandler.endpoint_loop fuel account request token body vars)
    (fun e => isRateLimitError e = true \/ isEmptyResponseError e = true).
Proof.
  revert vars. induction fuel as [|fuel IH]; intros vars;
    cbn [StreamingHandler.endpoint_loop];
    destruct (_ <? _)%nat; try apply throws_only_ret;
    [apply throws_only_out_of_fuel|].
  apply throws_only_bind; [apply stream_endpoint_turn_throws|].
  intros [r|vars']; [apply throws_only_ret | apply IH].
Qed.

(** X12.  With fuel for its turns, the endpoint loop of [sendMessage]
    ends, with a value or with an exception, and with an exception only
    for an error that [isRateLimitError] accepts; that of
    [sendMessageStream] likewise, only for one that [isRateLimitError]
    or [isEmptyResponseError] accepts.  Every other error thrown in the
    [try] body of a turn is caught: it becomes [lastError], the loop
    variables are otherwise those of the start of the turn, and the
    loop goes on with the next endpoint from the state the body left.
    A rejected fetch is thrown by the body as it is, right after the
    call. *)
Theorem endpoint_loop_throws (account : Account) (request : Request)
  (token body : string) (vars : LoopVars) (s : State) (extra : nat) :
  let loop fuel vars :=
    MessageHandler.endpoint_loop fuel account request token body vars in
  let stream_loop fuel vars :=
    StreamingHandler.endpoint_loop fuel account request token body vars in
  let enough := (loop_measure vars + extra)%nat in
  let in_range :=
    (endpointIndex vars < length ANTIGRAVITY_ENDPOINT_FALLBACKS)%nat in
  match (loop enough vars s).1 with
  | Ok _ => True
  | Thrown e => isRateLimitError e = true
  | OutOfFuel => False
  end
  /\ match (stream_loop enough vars s).1 with
     | Ok _ => True
     | Thrown e =>
         isRateLimitError e = true \/ isEmptyResponseError e = true
     | OutOfFuel => False
     end
  /\ (forall e s',
        MessageHandler.endpoint_try account request token body vars s
        = (Thrown e, s') ->
        isRateLimitError e = false ->
        MessageHandler.endpoint_turn account request token body vars s
        = (Ok (Continue (next_endpoint (Some e) vars)), s')
        /\ lastError (next_endpoint (Some e) vars) = Some e
        /\ endpointIndex (next_endpoint (Some e) vars)
           = S (endpointIndex vars)
        /\ (in_range ->
            forall fuel,
              loop (S fuel) vars s
              = loop fuel (next_endpoint (Some e) vars) s'))
  /\ (forall e s',
        StreamingHandler.endpoint_try account request token body vars s
        = (Thrown e, s') ->
        isRateLimitError e = false -> isEmptyResponseError e = false ->
        StreamingHandler.endpoint_turn account request token body vars s
        = (Ok (Continue (next_endpoint (Some e) vars)), s')
        /\ (in_range ->
            forall fuel,
              stream_loop (S fuel) vars s
              = stream_loop fuel (next_endpoint (Some e) vars) s'))
  /\ (forall e,
        upstream (calls s) (post_url request vars)
          (post_init request token body) = Rejected e ->
        MessageHandler.endpoint_try account request token body vars s
        = (Thrown e,
           posted (post_url request vars) (post_init request token body)
             s))
  /\ (forall e,
        upstream (calls s) (stream_post_url vars)
          (stream_init request token body) = Rejected e ->
        StreamingHandler.endpoint_try account request token body vars s
        = (Thrown e,
           posted (stream_post_url vars) (stream_init request token body)
             s)).
Proof.
  intros loop stream_loop enough in_range.
  subst loop stream_loop enough in_range. cbv beta.
  split; [|split; [|split; [|split; [|split]]]].
  - pose proof (total_endpoint_loop (loop_measure vars + extra) account
                  request token body vars ltac:(lia) s) as Htotal.
    destruct (MessageHandler.endpoint_loop _ _ _ _ _ _ s)
      as [[r|e|] s'] eqn:E; cbn [fst] in *; [exact I | | congruence].
    eapply endpoint_loop_throws_only. exact E.
  - pose proof (stream_total_endpoint_loop (loop_measure vars + extra)
                  account request token body vars ltac:(lia) s) as Htotal.
    destruct (StreamingHandler.endpoint_loop _ _ _ _ _ _ s)
      as [[r|e|] s'] eqn:E; cbn [fst] in *; [exact I | | congruence].
    eapply stream_endpoint_loop_throws_only. exact E.
  - intros e s' Htry Hother.
    assert (Hturn :
      MessageHandler.endpoint_turn account request token body vars s
      = (Ok (Continue (next_endpoint (Some e) vars)), s')).
    { unfold MessageHandler.endpoint_turn, try_catch.
      rewrite Htry, Hother. reflexivity. }
    split; [exact Hturn|]. split; [reflexivity|]. split; [reflexivity|].
    intros Hlt fuel. apply Nat.ltb_lt in Hlt.
    cbn [MessageHandler.endpoint_loop]. rewrite Hlt.
    unfold mbind at 1, M_bind at 1. rewrite Hturn. reflexivity.
  - intros e s' Htry Hother Hnonempty.
    assert (Hturn :
      StreamingHandler.endpoint_turn account request token body vars s
      = (Ok (Continue (next_endpoint (Some e) vars)), s')).
    { unfold StreamingHandler.endpoint_turn, try_catch.
      rewrite Htry, Hother, Hnonempty. reflexivity. }
    split; [exact Hturn|].
    intros Hlt fuel. apply Nat.ltb_lt in Hlt.
    cbn [StreamingHandler.endpoint_loop]. rewrite Hlt.
    unfold mbind at 1, M_bind at 1. rewrite Hturn. reflexivity.
  - intros e Hrejected. unfold MessageHandler.endpoint_try. cbv zeta.
    rewrite run_fetch. cbv zeta.
    fold (post_url request vars) (post_init request token body).
    unfold post_url, post_init in *. rewrite Hrejected. reflexivity.
  - intros e Hrejected. unfold StreamingHandler.endpoint_try. cbv zeta.
    rewrite run_fetch. cbv zeta.
    unfold stream_post_url, stream_init in *. rewrite Hrejected.
    reflexivity.
Qed.

End EndpointThrows.

(** The first POST is rejected: the error is not thrown on, the loop POSTs
    to the second endpoint, and the call returns its answer. *)
Example endpoint_loop_rejected_fetch :
  let W := rejecting_world in
  let out := MessageHandler.sendMessage (W := W) 1 text_request false
               initial_state in
  out.1 = Ok "Hello from upstream"
  /\ map (fun e => match e with fetch url _ => url | _ => "" end)
       (List.filter is_fetch (trace out.2))
     = [ "https://daily.example/v1internal:generateContent";
         "https://prod.example/v1internal:generateContent" ]
  /\ List.filter is_sleep (trace out.2) = [].
Proof. vm_compute. repeat split. Qed.

(** ** Upstream calls of a dispatch *)

Lemma fetches_snoc (t : list Effect) (e : Effect) :
  fetches (t ++ [e]) = (fetches t + (if is_fetch e then 1 else 0))%nat.
Proof.
  unfold fetches. rewrite List.filter_app, length_app. cbn [List.filter].
  destruct (is_fetch e); reflexivity.
Qed.

Lemma within_refl n s : within_fetches n s s.
Proof. unfold within_fetches. lia. Qed.

Lemma within_add a b s1 s2 s3 :
  within_fetches a s1 s2 -> within_fetches b s2 s3 ->
  within_fetches (a + b) s1 s3.
Proof. unfold within_fetches. lia. Qed.

Lemma within_weaken a b s1 s2 :
  (a <= b)%nat -> within_fetches a s1 s2 -> within_fetches b s1 s2.
Proof. unfold within_fetches. lia. Qed.

Lemma within_quiet {A} (m : M A) :
  (forall s, trace (m s).2 = trace s) -> steps (within_fetches 0) m.
Proof. intros Hm s. unfold within_fetches. rewrite Hm. lia. Qed.

Lemma within_emit e :
  is_fetch e = false /\ is_getAvailableAccounts e = false ->
  steps (within_fetches 0) (emit e).
Proof.
  intros [Hf Hp] s. unfold within_fetches, emit. cbn [snd trace].
  rewrite turns_snoc, fetches_snoc, Hf, Hp. lia.
Qed.

Lemma within_bind {A B} a b (m : M A) (k : A -> M B) :
  steps (within_fetches a) m -> (forall x, steps (within_fetches b) (k x)) ->
  steps (within_fetches (a + b)) (m ≫= k).
Proof.
  intros Hm Hk s. unfold mbind, M_bind. specialize (Hm s).
  destruct (m s) as [[x|e|] s']; simpl in *;
    try (eapply within_weaken; [|exact Hm]; lia).
  eapply within_add; [exact Hm | apply Hk].
Qed.

Lemma within_try_catch {A} a b (m : M A) (h : Error -> M A) :
  steps (within_fetches a) m -> (forall e, steps (within_fetches b) (h e)) ->
  steps (within_fetches (a + b)) (try_catch m h).
Proof.
  intros Hm Hh s. unfold try_catch. specialize (Hm s).
  destruct (m s) as [[x|e|] s']; simpl in *;
    try (eapply within_weaken; [|exact Hm]; lia).
  eapply within_add; [exact Hm | apply Hh].
Qed.

Lemma within_le {A} a b (m : M A) :
  (a <= b)%nat -> steps (within_fetches a) m -> steps (within_fetches b) m.
Proof. intros Hab Hm s. eapply within_weaken; [exact Hab | apply Hm]. Qed.

Lemma within_do_fetch `{World} url init :
  steps (within_fetches 1) (do_fetch url init).
Proof.
  intros s. rewrite do_fetch_run. cbv zeta.
  destruct (upstream (calls s) url init); unfold within_fetches;
    cbn [snd trace]; rewrite turns_snoc, fetches_snoc; cbn; lia.
Qed.

Lemma paced_refl c s : paced c s s.
Proof. unfold paced. lia. Qed.

Lemma paced_trans c s1 s2 s3 : paced c s1 s2 -> paced c s2 s3 -> paced c s1 s3.
Proof. unfold paced. lia. Qed.

Lemma within_paced c s1 s2 : within_fetches 0 s1 s2 -> paced c s1 s2.
Proof. unfold within_fetches, paced. lia. Qed.

(** A turn of the outer loop: the pool is read once, then at most [c]
    upstream calls. *)
Lemma paced_turn c model s s' :
  within_fetches c
    {| tick := tick s; calls := calls s;
       trace := ((trace s ++ [clearExpiredLimits])
                 ++ [getAvailableAccounts model])%list;
       message_dedup := message_dedup s; stream_dedup := stream_dedup s |}
    s' ->
  paced c s s'.
Proof.
  unfold within_fetches, paced. cbn [trace].
  rewrite !turns_snoc, !fetches_snoc. cbn. nia.
Qed.

Lemma paced_after_pool_check c model s :
  paced c s (after_pool_check model s).
Proof.
  unfold paced, after_pool_check. cbn [trace].
  change [clearExpiredLimits; getAvailableAccounts model]
    with ([clearExpiredLimits] ++ [getAvailableAccounts model])%list.
  rewrite app_assoc, !turns_snoc, !fetches_snoc. cbn. nia.
Qed.

(** Goals of the generic lemmas about the handlers, for a run that adds no
    upstream call and no turn. *)
Ltac within_side :=
  first [ exact (within_refl 0)
        | exact (fun s1 s2 s3 => within_add 0 0 s1 s2 s3)
        | exact within_emit
        | intros; apply within_quiet; reflexivity
        | intros e Hf Hp; split; assumption ].

Ltac within_go :=
  repeat (intros;
    first
      [ apply (steps_ret (within_fetches 0) (within_refl 0))
      | apply (steps_throw (within_fetches 0) (within_refl 0))
      | apply (steps_lift (within_fetches 0) (within_refl 0))
      | apply within_emit; split; reflexivity
      | apply within_quiet; reflexivity
      | apply (steps_bind (within_fetches 0)
                 (fun s1 s2 s3 => within_add 0 0 s1 s2 s3))
      | match goal with
        | |- steps _ (if ?b then _ else _) => destruct b
        | |- steps _ (match ?x with _ => _ end) => destruct x
        end ]).

Section MessageFetches.
Context `{W : World}.
Import Constants MessageHandler.

Lemma endpoint_turn_fetches account request token body vars :
  steps (within_fetches 1)
    (endpoint_turn account request token body vars).
Proof.
  unfold endpoint_turn. change 1%nat with (1 + 0)%nat.
  apply within_try_catch; [|within_go].
  unfold endpoint_try.
  apply (within_bind 1 0); [apply within_do_fetch|].
  intros response.
  destruct (negb (ok response));
    [destruct (status response =? 401);
     [|destruct (status response =? 429);
       [|destruct (status response >=? 400)]]|].
  - apply (handle_401_steps (within_fetches 0)
             (fun e => is_fetch e = false
                       /\ is_getAvailableAccounts e = false));
      within_side.
  - apply (handle_429_steps (within_fetches 0)
             (fun e => is_fetch e = false
                       /\ is_getAvailableAccounts e = false));
      within_side.
  - apply (handle_other_error_steps (within_fetches 0)
             (fun e => is_fetch e = false
                       /\ is_getAvailableAccounts e = false));
      within_side.
  - apply (read_answer_steps (within_fetches 0)
             (fun e => is_fetch e = false
                       /\ is_getAvailableAccounts e = false));
      within_side.
  - apply (read_answer_steps (within_fetches 0)
             (fun e => is_fetch e = false
                       /\ is_getAvailableAccounts e = false));
      within_side.
Qed.

Lemma endpoint_loop_fetches fuel account request token body vars s :
  within_fetches (loop_measure vars) s
    (endpoint_loop fuel account request token body vars s).2.
Proof.
  revert vars s. induction fuel as [|fuel IH]; intros vars s;
    cbn [endpoint_loop];
    destruct (Nat.ltb_spec (endpointIndex vars)
                (length ANTIGRAVITY_ENDPOINT_FALLBACKS)) as [Hlt|Hge];
    try (apply (within_weaken 0); [lia | apply within_refl]).
  unfold mbind, M_bind.
  pose proof (endpoint_turn_fetches account request token body vars s)
    as Hturn.
  pose proof (endpoint_turn_decreases account request token body vars Hlt s)
    as Hdec.
  assert (Hpos : (1 <= loop_measure vars)%nat)
    by (unfold loop_measure; lia).
  destruct (endpoint_turn account request token body vars s)
    as [[[r|vars']|e|] s1]; cbn [snd] in *;
    try (eapply within_weaken; [|exact Hturn]; lia).
  specialize (Hdec _ _ eq_refl). cbv beta iota in Hdec.
  eapply within_weaken; [|eapply within_add; [exact Hturn | apply IH]].
  lia.
Qed.

Lemma attempt_try_fetches account request :
  steps (within_fetches endpoint_fuel) (attempt_try account request).
Proof.
  unfold attempt_try.
  apply (within_le (0 + (0 + (0 + (endpoint_fuel + 0))))); [lia|].
  apply within_bind; [within_go|]. intros token.
  apply within_bind; [within_go|]. intros project.
  apply within_bind; [within_go|]. intros payload.
  apply within_bind.
  - intros s. eapply within_weaken; [|apply endpoint_loop_fetches].
    unfold loop_measure, endpoint_fuel. cbn. lia.
  - intros [r|vars]; [within_go|]. unfold after_endpoints. within_go.
Qed.

Lemma attempt_catch_fetches account model error :
  steps (within_fetches 0) (attempt_catch account model error).
Proof.
  apply (attempt_catch_steps (within_fetches 0)
           (fun e => is_fetch e = false
                     /\ is_getAvailableAccounts e = false));
    within_side.
Qed.

(** A turn of the outer loop with fallback disabled. *)
Lemma attempt_flat_paced self request s :
  paced endpoint_fuel s (attempt self request false s).2.
Proof.
  unfold attempt. rewrite !run_emit.
  cbn [tick calls trace message_dedup stream_dedup].
  apply (paced_turn endpoint_fuel (model request)).
  match goal with
  | |- within_fetches _ ?s2 (?m ?s2).2 =>
      assert (Hrest : steps (within_fetches endpoint_fuel) m);
        [|exact (Hrest s2)]
  end.
  change endpoint_fuel with (0 + endpoint_fuel)%nat.
  apply within_bind; [within_go|]. intros available.
  destruct (length available =? 0)%nat.
  - apply (within_le 0); [lia|]. unfold no_accounts. within_go.
  - apply (within_le (0 + (endpoint_fuel + 0))); [lia|].
    apply within_bind; [within_go|]. intros [[account|] waitMs].
    + apply within_try_catch; [apply attempt_try_fetches|].
      intros error.
      apply (steps_bind (within_fetches 0)
               (fun s1 s2 s3 => within_add 0 0 s1 s2 s3));
        [apply attempt_catch_fetches | within_go].
    + apply (within_le 0); [lia|]. within_go.
Qed.

Section Outer.
Variable self : Request -> bool -> M string.
Hypothesis self_paced :
  forall request, steps (paced endpoint_fuel) (self request false).

Lemma attempt_paced request fallbackEnabled :
  steps (paced endpoint_fuel) (attempt self request fallbackEnabled).
Proof.
  intros s. rewrite attempt_equation.
  destruct (turn_falls_back request fallbackEnabled s) as [fm|];
    [|apply attempt_flat_paced].
  eapply paced_trans; [apply paced_after_pool_check|].
  apply (steps_bind (paced endpoint_fuel) (paced_trans endpoint_fuel));
    [apply self_paced|].
  intros r. apply (steps_ret _ (paced_refl endpoint_fuel)).
Qed.

Lemma attempts_paced request fallbackEnabled remaining :
  steps (paced endpoint_fuel)
    (attempts self request fallbackEnabled remaining).
Proof.
  induction remaining as [|remaining IH]; cbn [attempts].
  - unfold exhausted.
    destruct (if fallbackEnabled then getFallbackModel (model request)
              else None);
      [apply self_paced
      | apply (steps_throw _ (paced_refl endpoint_fuel))].
  - apply (steps_bind _ (paced_trans endpoint_fuel));
      [apply attempt_paced|].
    intros [r|]; [apply (steps_ret _ (paced_refl endpoint_fuel))|].
    exact IH.
Qed.
End Outer.

Lemma sendMessage_paced depth request fallbackEnabled :
  steps (paced endpoint_fuel) (sendMessage depth request fallbackEnabled).
Proof.
  revert request fallbackEnabled.
  induction depth as [|depth IH]; intros request fallbackEnabled;
    cbn [sendMessage];
    [apply (steps_out_of_fuel _ (paced_refl endpoint_fuel))|].
  unfold sendMessage_body.
  apply (steps_bind _ (paced_trans endpoint_fuel)).
  - intros s. apply within_paced. apply within_quiet. reflexivity.
  - intros count. apply attempts_paced. intros r. apply IH.
Qed.

End MessageFetches.

Section StreamFetches.
Context `{W : World}.
Import Constants StreamingHandler.

Lemma yield_all_fetches events : steps (within_fetches 0) (yield_all events).
Proof.
  induction events as [|event rest IH]; cbn [yield_all foldr];
    [within_go|].
  apply (steps_bind (within_fetches 0)
           (fun s1 s2 s3 => within_add 0 0 s1 s2 s3));
    [within_go | intros _; exact IH].
Qed.

Lemma emitEmptyResponseFallback_fetches model :
  steps (within_fetches 0) (emitEmptyResponseFallback model).
Proof.
  unfold emitEmptyResponseFallback.
  apply (steps_bind (within_fetches 0)
           (fun s1 s2 s3 => within_add 0 0 s1 s2 s3)); [within_go|].
  intros bytes. apply yield_all_fetches.
Qed.

Lemma stream_clear_fetches model :
  steps (within_fetches 0) (clearRateLimitTimestamp model).
Proof. apply within_quiet. reflexivity. Qed.

Lemma retry_not_ok_fetches account model url init response :
  steps (within_fetches 1) (retry_not_ok account model url init response).
Proof.
  unfold retry_not_ok.
  destruct (status response =? 429); [apply (within_le 0); [lia|]; within_go|].
  destruct (status response =? 401); [apply (within_le 0); [lia|]; within_go|].
  destruct (status response >=? 500);
    [|apply (within_le 0); [lia|]; within_go].
  apply (within_bind 0 1); [within_go|]. intros _.
  apply (within_bind 1 0); [apply within_do_fetch|]. intros again.
  within_go.
Qed.

Lemma stream_with_retries_fetches remaining account model url init
  response :
  steps (within_fetches (2 * (remaining - 1)))
    (stream_with_retries remaining account model url init response).
Proof.
  revert response.
  induction remaining as [|remaining IH]; intros response;
    cbn [stream_with_retries]; [within_go|].
  destruct (streamSSEResponse response model) as [events thrown].
  apply (within_bind 0 (2 * (S remaining - 1)));
    [apply yield_all_fetches|]. intros _.
  destruct thrown as [streamError|].
  - destruct (negb (isEmptyResponseError streamError));
      [apply (within_le 0); [lia|]; within_go|].
    destruct (MAX_EMPTY_RESPONSE_RETRIES - Z.of_nat remaining
              >=? MAX_EMPTY_RESPONSE_RETRIES) eqn:Elast.
    + apply (within_le 0); [lia|].
      apply (steps_bind (within_fetches 0)
               (fun s1 s2 s3 => within_add 0 0 s1 s2 s3));
        [apply emitEmptyResponseFallback_fetches | within_go].
    + assert (1 <= remaining)%nat as Hpos.
      { rewrite Z.geb_leb in Elast. apply Z.leb_gt in Elast.
      clear - Elast. lia. }
      apply (within_le (0 + (1 + (1 + 2 * (remaining - 1))))); [lia|].
      apply within_bind; [within_go|]. intros _.
      apply within_bind; [apply within_do_fetch|]. intros refetched.
      apply within_bind; [|intros next; apply IH].
      destruct (negb (ok refetched));
        [apply retry_not_ok_fetches | apply (within_le 0); [lia|]; within_go].
  - apply (within_le 0); [lia|].
    apply (steps_bind (within_fetches 0)
             (fun s1 s2 s3 => within_add 0 0 s1 s2 s3));
      [apply stream_clear_fetches | within_go].
Qed.

Lemma stream_endpoint_turn_fetches account request token body vars :
  steps (within_fetches stream_turn_fetches)
    (endpoint_turn account request token body vars).
Proof.
  unfold endpoint_turn.
  apply (within_le (stream_turn_fetches + 0)); [lia|].
  apply within_try_catch; [|within_go].
  unfold endpoint_try.
  apply (within_bind 1 (2 * Z.to_nat MAX_EMPTY_RESPONSE_RETRIES));
    [apply within_do_fetch|].
  intros response.
  destruct (negb (ok response));
    [apply (within_le 0); [lia|];
     destruct (status response =? 401);
     [|destruct (status response =? 429)]|].
  - apply (stream_handle_401_steps (within_fetches 0)
             (fun e => is_fetch e = false
                       /\ is_getAvailableAccounts e = false));
      within_side.
  - apply (stream_handle_429_steps (within_fetches 0)
             (fun e => is_fetch e = false
                       /\ is_getAvailableAccounts e = false));
      within_side.
  - apply (stream_handle_other_error_steps (within_fetches 0)
             (fun e => is_fetch e = false
                       /\ is_getAvailableAccounts e = false));
      within_side.
  - apply (within_le
             (2 * (S (Z.to_nat MAX_EMPTY_RESPONSE_RETRIES) - 1) + 0));
      [lia|].
    apply within_bind; [apply stream_with_retries_fetches|].
    intros [done|]; within_go.
Qed.

Lemma stream_endpoint_loop_fetches fuel account request token body vars s :
  within_fetches (stream_turn_fetches * loop_measure vars) s
    (endpoint_loop fuel account request token body vars s).2.
Proof.
  revert vars s. induction fuel as [|fuel IH]; intros vars s;
    cbn [endpoint_loop];
    destruct (Nat.ltb_spec (endpointIndex vars)
                (length ANTIGRAVITY_ENDPOINT_FALLBACKS)) as [Hlt|Hge];
    try (apply (within_weaken 0); [lia | apply within_refl]).
  unfold mbind, M_bind.
  pose proof (stream_endpoint_turn_fetches account request token body
                vars s) as Hturn.
  pose proof (stream_endpoint_turn_decreases account request token body
                vars Hlt s) as Hdec.
  assert (Hpos : (1 <= loop_measure vars)%nat)
    by (unfold loop_measure; lia).
  destruct (endpoint_turn account request token body vars s)
    as [[[r|vars']|e|] s1]; cbn [snd] in *;
    try (eapply within_weaken; [|exact Hturn]; nia).
  specialize (Hdec _ _ eq_refl). cbv beta iota in Hdec.
  eapply within_weaken; [|eapply within_add; [exact Hturn | apply IH]].
  nia.
Qed.

Lemma stream_attempt_try_fetches account request :
  steps (within_fetches stream_attempt_fetches)
    (attempt_try account request).
Proof.
  unfold attempt_try.
  apply (within_le (0 + (0 + (0 + (stream_attempt_fetches + 0)))));
    [lia|].
  apply within_bind; [within_go|]. intros token.
  apply within_bind; [within_go|]. intros project.
  apply within_bind; [within_go|]. intros payload.
  apply within_bind.
  - intros s. eapply within_weaken; [|apply stream_endpoint_loop_fetches].
    unfold stream_attempt_fetches, loop_measure, endpoint_fuel. cbn. lia.
  - intros [r|vars]; [within_go|]. unfold after_endpoints. within_go.
Qed.

Lemma stream_attempt_catch_fetches account model error :
  steps (within_fetches 0) (attempt_catch account model error).
Proof.
  apply (stream_attempt_catch_steps (within_fetches 0)
           (fun e => is_fetch e = false
                     /\ is_getAvailableAccounts e = false));
    within_side.
Qed.

Lemma stream_attempt_flat_paced self request s :
  paced stream_attempt_fetches s (attempt self request false s).2.
Proof.
  unfold attempt. rewrite !run_emit.
  cbn [tick calls trace message_dedup stream_dedup].
  apply (paced_turn stream_attempt_fetches (model request)).
  match goal with
  | |- within_fetches _ ?s2 (?m ?s2).2 =>
      assert (Hrest : steps (within_fetches stream_attempt_fetches) m);
        [|exact (Hrest s2)]
  end.
  apply (within_le (0 + stream_attempt_fetches)); [lia|].
  apply within_bind; [within_go|]. intros available.
  destruct (length available =? 0)%nat.
  - apply (within_le 0); [lia|]. unfold no_accounts. within_go.
  - apply (within_le (0 + (stream_attempt_fetches + 0))); [lia|].
    apply within_bind; [within_go|]. intros [[account|] waitMs].
    + apply within_try_catch; [apply stream_attempt_try_fetches|].
      intros error.
      apply (steps_bind (within_fetches 0)
               (fun s1 s2 s3 => within_add 0 0 s1 s2 s3));
        [apply stream_attempt_catch_fetches | within_go].
    + apply (within_le 0); [lia|]. within_go.
Qed.

Section Outer.
Variable self : Request -> bool -> M unit.
Hypothesis self_paced :
  forall request,
    steps (paced stream_attempt_fetches) (self request false).

Lemma stream_attempt_paced request fallbackEnabled :
  steps (paced stream_attempt_fetches)
    (attempt self request fallbackEnabled).
Proof.
  intros s. rewrite stream_attempt_equation.
  destruct (turn_falls_back request fallbackEnabled s) as [fm|];
    [|apply stream_attempt_flat_paced].
  eapply paced_trans; [apply paced_after_pool_check|].
  apply (steps_bind (paced stream_attempt_fetches)
           (paced_trans stream_attempt_fetches));
    [apply self_paced|].
  intros r. apply (steps_ret _ (paced_refl stream_attempt_fetches)).
Qed.

Lemma stream_attempts_paced request fallbackEnabled remaining :
  steps (paced stream_attempt_fetches)
    (attempts self request fallbackEnabled remaining).
Proof.
  induction remaining as [|remaining IH]; cbn [attempts].
  - unfold exhausted.
    destruct (if fallbackEnabled then getFallbackModel (model request)
              else None);
      [apply self_paced
      | apply (steps_throw _ (paced_refl stream_attempt_fetches))].
  - apply (steps_bind _ (paced_trans stream_attempt_fetches));
      [apply stream_attempt_paced|].
    intros [r|];
      [apply (steps_ret _ (paced_refl stream_attempt_fetches))|].
    exact IH.
Qed.
End Outer.

Lemma sendMessageStream_paced depth request fallbackEnabled :
  steps (paced stream_attempt_fetches)
    (sendMessageStream depth request fallbackEnabled).
Proof.
  revert request fallbackEnabled.
  induction depth as [|depth IH]; intros request fallbackEnabled;
    cbn [sendMessageStream];
    [apply (steps_out_of_fuel _ (paced_refl stream_attempt_fetches))|].
  unfold sendMessageStream_body.
  apply (steps_bind _ (paced_trans stream_attempt_fetches)).
  - intros s. apply within_paced. apply within_quiet. reflexivity.
  - intros count. apply stream_attempts_paced. intros r. apply IH.
Qed.

End StreamFetches.

Lemma paced_bound c s s' B :
  paced c s s' -> at_most B s s' ->
  (fetches (trace s') <= fetches (trace s) + c * B)%nat.
Proof.
  unfold paced, at_most. intros [H1 H2] H3.
  assert (c * turns (trace s') <= c * (turns (trace s) + B))%nat
    by (apply Nat.mul_le_mono_l; lia).
  rewrite Nat.mul_add_distr_l in *. lia.
Qed.

Section UpstreamCalls.
Context `{W : World}.
Import Constants.

(** X13.  Upstream calls are bounded.  Once an account is selected, one
    attempt of [sendMessage] makes at most one call per endpoint plus 4
    (three capacity retries and one short retry), and one attempt of
    [sendMessageStream] at most 7 times as many (each turn may re-issue
    the POST three times after an empty response, and each of these once
    more after a 5xx).  A whole dispatch makes at most that many calls
    for each turn of its outer loop, so at most that many times
    [max(3, accountCount + 1)], counted once more for the nested call
    when fallback is enabled. *)
Theorem dispatch_upstream_calls (request : Request)
  (fallbackEnabled : bool) (account : Account) (s : State) :
  let per_attempt := (length ANTIGRAVITY_ENDPOINT_FALLBACKS + 4)%nat in
  let maxAttempts k := Z.to_nat (Z.max 3 (getAccountCount k + 1)) in
  let nested k := if fallbackEnabled then maxAttempts k else 0%nat in
  (fetches (trace (MessageHandler.attempt_try account request s).2)
   <= fetches (trace s) + per_attempt)%nat
  /\ (fetches (trace (StreamingHandler.attempt_try account request s).2)
      <= fetches (trace s) + 7 * per_attempt)%nat
  /\ (exists k,
        (fetches
           (trace (MessageHandler.sendMessage 2 request fallbackEnabled
                     s).2)
         <= fetches (trace s)
            + per_attempt * (maxAttempts (tick s) + nested k))%nat)
  /\ (exists k,
        (fetches
           (trace (StreamingHandler.sendMessageStream 2 request
                     fallbackEnabled s).2)
         <= fetches (trace s)
            + 7 * per_attempt * (maxAttempts (tick s) + nested k))%nat).
Proof.
  intros per_attempt maxAttempts nested.
  assert (Hfuel : MessageHandler.endpoint_fuel = per_attempt).
  { subst per_attempt.
    unfold MessageHandler.endpoint_fuel, MAX_CAPACITY_RETRIES.
    change (Z.to_nat 3) with 3%nat. lia. }
  assert (Hsfuel : stream_attempt_fetches = (7 * per_attempt)%nat).
  { subst per_attempt.
    unfold stream_attempt_fetches, stream_turn_fetches,
      StreamingHandler.endpoint_fuel, MAX_CAPACITY_RETRIES,
      MAX_EMPTY_RESPONSE_RETRIES.
    change (Z.to_nat 3) with 3%nat. lia. }
  split; [|split; [|split]].
  - pose proof (attempt_try_fetches account request s) as [_ H].
    rewrite Hfuel in H. exact H.
  - pose proof (stream_attempt_try_fetches account request s) as [_ H].
    rewrite Hsfuel in H. exact H.
  - pose proof (sendMessage_paced 2 request fallbackEnabled s) as Hpaced.
    rewrite Hfuel in Hpaced. subst nested.
    destruct fallbackEnabled.
    + destruct (sendMessage_turns 2 request true s) as [k Hk].
      exists k. apply paced_bound; assumption.
    + exists 0%nat. apply paced_bound; [assumption|].
      rewrite Nat.add_0_r. apply (sendMessage_flat_turns 2 request s).
  - pose proof (sendMessageStream_paced 2 request fallbackEnabled s)
      as Hpaced.
    rewrite Hsfuel in Hpaced. subst nested.
    destruct fallbackEnabled.
    + destruct (sendMessageStream_turns 2 request true s) as [k Hk].
      exists k. apply paced_bound; assumption.
    + exists 0%nat. apply paced_bound; [assumption|].
      rewrite Nat.add_0_r.
      apply (sendMessageStream_flat_turns 2 request s).
Qed.

End UpstreamCalls.

(** ** What an attempt does to the account manager *)

Lemma adds_only_refl allowed s : adds_only allowed s s.
Proof. exists []. split; [now rewrite app_nil_r | constructor]. Qed.

Lemma adds_only_trans allowed s1 s2 s3 :
  adds_only allowed s1 s2 -> adds_only allowed s2 s3 ->
  adds_only allowed s1 s3.
Proof.
  intros (t1 & H1 & F1) (t2 & H2 & F2). exists (t1 ++ t2)%list. split.
  - now rewrite H2, H1, app_assoc.
  - apply Forall_app. split; assumption.
Qed.

Lemma adds_only_emit (allowed : Effect -> Prop) e :
  allowed e -> steps (adds_only allowed) (emit e).
Proof.
  intros He s. exists [e]. split; [reflexivity|].
  constructor; [exact He | constructor].
Qed.

Lemma adds_only_quiet allowed {A} (m : M A) :
  (forall s, trace (m s).2 = trace s) -> steps (adds_only allowed) m.
Proof.
  intros Hm s. exists []. split; [now rewrite Hm, app_nil_r | constructor].
Qed.

Lemma adds_only_do_fetch `{World} (allowed : Effect -> Prop) url init :
  allowed (fetch url init) -> steps (adds_only allowed) (do_fetch url init).
Proof.
  intros He s. rewrite do_fetch_run. cbv zeta. exists [fetch url init].
  destruct (upstream (calls s) url init); cbn [snd trace];
    (split; [reflexivity | constructor; [exact He | constructor]]).
Qed.

Lemma js_or_nonzero (x : option Z) (d : Z) : d <> 0 -> JS.js_or x d <> 0.
Proof.
  intros Hd. unfold JS.js_or. destruct x as [v|]; [|exact Hd].
  destruct (Z.eqb_spec v 0); assumption.
Qed.

Ltac only_step :=
  first
    [ apply (steps_ret _ (adds_only_refl _))
    | apply (steps_throw _ (adds_only_refl _))
    | apply (steps_lift _ (adds_only_refl _))
    | solve [ apply adds_only_emit;
              cbn [marks_known_wait for_account fi_signal post];
              first [ exact I | reflexivity | split; reflexivity
                    | discriminate
                    | apply js_or_nonzero; cbv; discriminate
                    | eexists; split;
                      [reflexivity | first [ discriminate
                                           | assumption
                                           | apply js_or_nonzero; cbv;
                                             discriminate ]] ] ]
    | solve [ apply adds_only_do_fetch;
              cbn [marks_known_wait for_account fi_signal post];
              first [ exact I | reflexivity ] ]
    | apply adds_only_quiet; reflexivity
    | match goal with
      | |- steps _ (if ?b then _ else _) => destruct b
      | |- steps _ (match ?x with _ => _ end) => destruct x
      | |- steps _ (let _ := _ in _) => cbv zeta
      | |- steps _ (_ ≫= _) => apply (steps_bind _ (adds_only_trans _))
      | |- steps _ (try_catch _ _) =>
          apply (steps_try_catch _ (adds_only_trans _))
      end ].

Ltac only_go := repeat (intros; only_step).

Section MessageAccount.
Context `{W : World}.
Import Constants MessageHandler.
Variable account : Account.
Variable request : Request.

Let R := adds_only (for_account account (model request)).

Lemma only_rate_limit_decision vars resetMs errorText :
  steps R (rate_limit_decision account (model request) vars resetMs
             errorText).
Proof.
  unfold rate_limit_decision, shouldSkipRetryDueToDedup,
    recordRateLimitTimestamp, R.
  only_go.
Qed.

Lemma only_endpoint_turn token body vars :
  steps R (endpoint_turn account request token body vars).
Proof.
  unfold endpoint_turn, endpoint_try, handle_401, handle_429,
    handle_other_error, read_answer, clearRateLimitTimestamp.
  pose proof only_rate_limit_decision as Hdecision. unfold R in *.
  repeat (intros; first [ apply Hdecision | only_step ]).
Qed.

Lemma only_endpoint_loop fuel token body vars :
  steps R (endpoint_loop fuel account request token body vars).
Proof.
  revert vars. induction fuel as [|fuel IH]; intros vars;
    cbn [endpoint_loop]; destruct (_ <? _)%nat; unfold R in *;
    try (only_go; fail).
  apply (steps_bind _ (adds_only_trans _));
    [apply only_endpoint_turn|].
  intros [r|vars']; [only_go | apply IH].
Qed.

Lemma only_attempt :
  steps R
    (try_catch (attempt_try account request)
       (fun error =>
          attempt_catch account (model request) error ;; mret None)).
Proof.
  pose proof only_endpoint_loop as Hloop. unfold R in *.
  unfold attempt_try, after_endpoints, attempt_catch, extended_cooldown.
  repeat (intros; first [ apply Hloop | only_step ]).
Qed.

End MessageAccount.

Section StreamAccount.
Context `{W : World}.
Import Constants StreamingHandler.
Variable account : Account.
Variable request : Request.

Let R := adds_only (for_account account (model request)).

Lemma stream_only_yield_all events : steps R (yield_all events).
Proof.
  unfold R. induction events as [|event rest IH]; cbn [yield_all foldr];
    [only_go|].
  apply (steps_bind _ (adds_only_trans _)); [only_go | intros _; exact IH].
Qed.

Lemma stream_only_rate_limit_decision vars resetMs errorText :
  steps R (rate_limit_decision account (model request) vars resetMs
             errorText).
Proof.
  unfold rate_limit_decision, shouldSkipRetryDueToDedup,
    recordRateLimitTimestamp, R.
  only_go.
Qed.

Lemma stream_only_with_retries remaining url headers body response :
  steps R (stream_with_retries remaining account (model request) url
             (post headers body) response).
Proof.
  pose proof stream_only_yield_all as Hyield. unfold R in *.
  revert response.
  induction remaining as [|remaining IH]; intros response;
    cbn [stream_with_retries]; [only_go|].
  unfold emitEmptyResponseFallback, retry_not_ok,
    clearRateLimitTimestamp.
  repeat (intros; first [ apply Hyield | apply IH | only_step ]).
Qed.

Lemma stream_only_endpoint_turn token body vars :
  steps R (endpoint_turn account request token body vars).
Proof.
  unfold endpoint_turn, endpoint_try, handle_401, handle_429,
    handle_other_error.
  pose proof stream_only_rate_limit_decision as Hdecision.
  pose proof stream_only_with_retries as Hretries. unfold R in *.
  repeat (intros;
    first [ apply Hdecision | apply Hretries | only_step ]).
Qed.

Lemma stream_only_endpoint_loop fuel token body vars :
  steps R (endpoint_loop fuel account request token body vars).
Proof.
  revert vars. induction fuel as [|fuel IH]; intros vars;
    cbn [endpoint_loop]; destruct (_ <? _)%nat; unfold R in *;
    try (only_go; fail).
  apply (steps_bind _ (adds_only_trans _));
    [apply stream_only_endpoint_turn|].
  intros [r|vars']; [only_go | apply IH].
Qed.

Lemma stream_only_attempt :
  steps R
    (try_catch (attempt_try account request)
       (fun error =>
          attempt_catch account (model request) error ;; mret None)).
Proof.
  pose proof stream_only_endpoint_loop as Hloop. unfold R in *.
  unfold attempt_try, after_endpoints, attempt_catch, extended_cooldown.
  repeat (intros; first [ apply Hloop | only_step ]).
Qed.

End StreamAccount.

Section AttemptAccount.
Context `{W : World}.

(** X14.  Once an account is selected, everything an attempt of either
    dispatcher does to the account manager is done to that account and
    for the model of the request: every mark, invalidation, cache reset
    and notification names them, the pool is not read again, and every
    upstream call is made without a signal. *)
Theorem attempt_touches_selected_account (account : Account)
  (request : Request) (s : State) :
  (exists t,
      trace
        (try_catch (MessageHandler.attempt_try account request)
           (fun error =>
              MessageHandler.attempt_catch account (model request) error
              ;; mret None) s).2
      = (trace s ++ t)%list
      /\ Forall (for_account account (model request)) t)
  /\ (exists t,
      trace
        (try_catch (StreamingHandler.attempt_try account request)
           (fun error =>
              StreamingHandler.attempt_catch account (model request)
                error ;; mret None) s).2
      = (trace s ++ t)%list
      /\ Forall (for_account account (model request)) t).
Proof.
  split; [apply only_attempt | apply stream_only_attempt].
Qed.

End AttemptAccount.

Section KnownWaits.
Context `{W : World}.
Import Constants MessageHandler.

Let R := adds_only marks_known_wait.

Lemma known_rate_limit_decision account model vars resetMs errorText :
  steps R (rate_limit_decision account model vars resetMs errorText).
Proof.
  unfold rate_limit_decision, shouldSkipRetryDueToDedup,
    recordRateLimitTimestamp, R.
  destruct resetMs as [v|]; cbn [JS.truthy default from_option id];
    [destruct (Z.eqb_spec v 0) as [->|Hv]|]; cbn [negb andb]; only_go.
Qed.

Lemma known_endpoint_turn account request token body vars :
  steps R (endpoint_turn account request token body vars).
Proof.
  unfold endpoint_turn, endpoint_try, handle_401, handle_429,
    handle_other_error, read_answer, clearRateLimitTimestamp.
  pose proof known_rate_limit_decision as Hdecision. unfold R in *.
  repeat (intros; first [ apply Hdecision | only_step ]).
Qed.

(** X15.  In the endpoint loop of [sendMessage] every rate-limit mark
    carries a wait that is known and not zero, and no sleep is for 0 ms:
    a reset time of 0 or none is replaced by the default of its branch
    before it is used. *)
Theorem endpoint_loop_known_waits (fuel : nat) (account : Account)
  (request : Request) (token body : string) (vars : LoopVars)
  (s : State) :
  exists t,
    trace (endpoint_loop fuel account request token body vars s).2
    = (trace s ++ t)%list
    /\ Forall marks_known_wait t.
Proof.
  revert vars s. induction fuel as [|fuel IH]; intros vars s;
    cbn [endpoint_loop]; destruct (_ <? _)%nat;
    try (exists []; split; [now rewrite app_nil_r | constructor]).
  apply (steps_bind (adds_only marks_known_wait) (adds_only_trans _)
           (endpoint_turn account request token body vars)).
  - apply known_endpoint_turn.
  - intros [r|vars']; [only_go | intros s1; apply IH].
Qed.

End KnownWaits.

(** ** A request that goes through at once *)

Lemma run_bind_ok {A B} (m : M A) (k : A -> M B) (s s' : State) (a : A) :
  m s = (Ok a, s') -> (m ≫= k) s = k a s'.
Proof. intros E. unfold mbind, M_bind. now rewrite E. Qed.

Lemma run_try_ok {A} (m : M A) (h : Error -> M A) (s s' : State) (a : A) :
  m s = (Ok a, s') -> try_catch m h s = (Ok a, s').
Proof. intros E. unfold try_catch. now rewrite E. Qed.

Section FirstTryMessage.
Context `{W : World}.
Import Constants MessageHandler.

Lemma maxAttempts_succ accountCount :
  exists n, Z.to_nat (maxAttempts accountCount) = S n.
Proof.
  unfold maxAttempts, MAX_RETRIES.
  exists (Z.to_nat (Z.max 3 (accountCount + 1)) - 1)%nat. lia.
Qed.

Lemma first_endpoint :
  ANTIGRAVITY_ENDPOINT_FALLBACKS <> [] ->
  (endpointIndex initial_vars
   <? length ANTIGRAVITY_ENDPOINT_FALLBACKS)%nat = true.
Proof.
  intros H. apply Nat.ltb_lt.
  destruct ANTIGRAVITY_ENDPOINT_FALLBACKS; [congruence | cbn; lia].
Qed.

(** The turn that is answered with an ok status. *)
Lemma ok_turn account request token body vars s r data result :
  isThinkingModel (model request) = false ->
  upstream (calls s) (generate_url vars)
    (generate_init request token body) = Resolved r ->
  ok r = true ->
  response_json r = inr data ->
  convertGoogleToAnthropic data (model request) = inr result ->
  endpoint_turn account request token body vars s
  = (Ok (Return result),
     {| tick := tick s; calls := S (calls s);
        trace := (trace s ++ [fetch (generate_url vars)
                                (generate_init request token body);
                              notifySuccess (email account)
                                (model request)])%list;
        message_dedup := delete (model request) (message_dedup s);
        stream_dedup := stream_dedup s |}).
Proof.
  intros Hthink Hup Hok Hjson Hconvert.
  unfold endpoint_turn, try_catch, endpoint_try. rewrite Hthink.
  fold (generate_url vars). fold (generate_init request token body).
  rewrite run_fetch. cbv zeta. rewrite Hup, Hok. cbn [negb].
  unfold read_answer. rewrite Hthink, Hjson.
  cbv [lift clearRateLimitTimestamp get_dedup set_dedup mbind M_bind mret
       M_ret emit tick calls trace message_dedup stream_dedup].
  rewrite Hconvert. rewrite <- app_assoc. reflexivity.
Qed.

Lemma attempt_try_first account request s token project body r data
  result :
  isThinkingModel (model request) = false ->
  ANTIGRAVITY_ENDPOINT_FALLBACKS <> [] ->
  getTokenForAccount (tick s) account = inr token ->
  getProjectForAccount (S (tick s)) account token = inr project ->
  buildCloudCodeRequest request project = inr body ->
  upstream (calls s) (generate_url initial_vars)
    (generate_init request token body) = Resolved r ->
  ok r = true ->
  response_json r = inr data ->
  convertGoogleToAnthropic data (model request) = inr result ->
  attempt_try account request s
  = (Ok (Some result),
     {| tick := S (S (tick s)); calls := S (calls s);
        trace := (trace s ++ [fetch (generate_url initial_vars)
                                (generate_init request token body);
                              notifySuccess (email account)
                                (model request)])%list;
        message_dedup := delete (model request) (message_dedup s);
        stream_dedup := stream_dedup s |}).
Proof.
  intros Hthink Hendpoint Htoken Hproject Hbuild Hanswer Hok Hjson
    Hconvert.
  unfold attempt_try. run. rewrite Htoken. cbn [lift]. run.
  rewrite Hproject. cbn [lift]. run. rewrite Hbuild. cbn [lift]. run.
  unfold endpoint_fuel. rewrite Nat.add_1_r. cbn [endpoint_loop].
  rewrite (first_endpoint Hendpoint). rewrite run_assoc.
  erewrite run_bind_ok;
    [|apply (ok_turn account request token body initial_vars _ r data
               result); cbn [tick calls]; assumption].
  reflexivity.
Qed.

(** X16.  A request for a model that is not a thinking model, with an
    account in the pool that the strategy selects, a token, a project
    and a request body for it, and an upstream that answers the first
    POST to the first endpoint with an ok status and a body that parses
    and converts: [sendMessage] returns the converted answer after that
    one upstream call, without a sleep and without a mark; it notifies
    the strategy of the success and drops the dedup entry of the
    model. *)
Theorem sendMessage_first_try (depth : nat) (request : Request)
  (fallbackEnabled : bool) (s : State) (available : list Account)
  (account : Account) (waitMs : Z) (token project body data result : string)
  (r : Response)
  (Hthinking : isThinkingModel (model request) = false)
  (Hendpoint : ANTIGRAVITY_ENDPOINT_FALLBACKS <> [])
  (Hpool : availableAccounts (S (tick s)) (model request) = available)
  (Hsome : available <> [])
  (Hselect : selectAccount (S (S (tick s))) (model request)
             = (Some account, waitMs))
  (Htoken : getTokenForAccount (S (S (S (tick s)))) account = inr token)
  (Hproject : getProjectForAccount (S (S (S (S (tick s))))) account token
              = inr project)
  (Hbuild : buildCloudCodeRequest request project = inr body)
  (Hanswer : upstream (calls s) (generate_url initial_vars)
               (generate_init request token body) = Resolved r)
  (Hok : ok r = true)
  (Hjson : response_json r = inr data)
  (Hconvert : convertGoogleToAnthropic data (model request) = inr result) :
  sendMessage (S depth) request fallbackEnabled s
  = (Ok result,
     answered_at_once s
       [ clearExpiredLimits; getAvailableAccounts (model request);
         fetch (generate_url initial_vars)
           (generate_init request token body);
         notifySuccess (email account) (model request) ]
       (delete (model request) (message_dedup s)) (stream_dedup s)).
Proof.
  cbn [sendMessage]. unfold sendMessage_body. rewrite run_ask.
  destruct (maxAttempts_succ (getAccountCount (tick s))) as [n ->].
  cbn [attempts].
  match goal with
  | |- (attempt ?self _ _ ≫= _) ?s1 = (_, ?s2) =>
      assert (Hattempt :
        attempt self request fallbackEnabled s1 = (Ok (Some result), s2))
  end.
  { unfold attempt. run. rewrite Hpool.
    assert ((length available =? 0)%nat = false) as ->
      by (destruct available; [congruence | reflexivity]).
    run. rewrite Hselect.
    erewrite run_try_ok;
      [|apply (attempt_try_first account request _ token project body r
                 data result); cbn [tick calls]; assumption].
    cbn [tick calls trace message_dedup stream_dedup].
    unfold answered_at_once. rewrite <- !app_assoc. reflexivity. }
  rewrite (run_bind_ok _ _ _ _ _ Hattempt). reflexivity.
Qed.

End FirstTryMessage.

Lemma sendMessage_first_try_witness :
  (MessageHandler.sendMessage
     (W := scenario_world [answer_200] None None [some_account] 0)
     1 text_request false initial_state).1
  = Ok "Hello from upstream".
Proof.
  rewrite (sendMessage_first_try
             (W := scenario_world [answer_200] None None [some_account] 0)
             0 text_request false initial_state [some_account] some_account
             0 "token" "project" "payload for project"
             "Hello from upstream" "Hello from upstream" answer_200);
    try reflexivity; discriminate.
Defined.

Section FirstTryStream.
Context `{W : World}.
Import Constants StreamingHandler.

Lemma stream_maxAttempts_succ accountCount :
  exists n, Z.to_nat (maxAttempts accountCount) = S n.
Proof.
  unfold maxAttempts, MAX_RETRIES.
  exists (Z.to_nat (Z.max 3 (accountCount + 1)) - 1)%nat. lia.
Qed.

Lemma stream_attempt_try_first account request s token project body r
  events :
  ANTIGRAVITY_ENDPOINT_FALLBACKS <> [] ->
  getTokenForAccount (tick s) account = inr token ->
  getProjectForAccount (S (tick s)) account token = inr project ->
  buildCloudCodeRequest request project = inr body ->
  upstream (calls s) stream_url (stream_init request token body)
  = Resolved r ->
  ok r = true ->
  streamSSEResponse r (model request) = (events, None) ->
  attempt_try account request s
  = (Ok (Some tt),
     {| tick := S (S (tick s)); calls := S (calls s);
        trace := (trace s
                  ++ [fetch stream_url (stream_init request token body)]
                  ++ map yield events
                  ++ [notifySuccess (email account) (model request)])%list;
        message_dedup := message_dedup s;
        stream_dedup := delete (model request) (stream_dedup s) |}).
Proof.
  intros Hendpoint Htoken Hproject Hbuild Hanswer Hok Hstream.
  unfold attempt_try. run. rewrite Htoken. cbn [lift]. run.
  rewrite Hproject. cbn [lift]. run. rewrite Hbuild. cbn [lift]. run.
  unfold endpoint_fuel. rewrite Nat.add_1_r. cbn [endpoint_loop].
  rewrite (first_endpoint Hendpoint). rewrite run_assoc.
  match goal with
  | |- (endpoint_turn _ _ _ _ _ ≫= _) ?s1 = (_, ?s2) =>
      assert (Hturn :
        endpoint_turn account request token body initial_vars s1
        = (Ok (Return tt), s2))
  end.
  { unfold endpoint_turn, try_catch, endpoint_try.
    cbn [endpointIndex initial_vars].
    fold stream_url. fold (stream_init request token body).
    rewrite run_fetch. cbv zeta.
    cbn [tick calls trace message_dedup stream_dedup].
    rewrite Hanswer, Hok. cbn [negb].
    change (S (Z.to_nat MAX_EMPTY_RESPONSE_RETRIES)) with 4%nat.
    cbn [stream_with_retries]. rewrite Hstream.
    rewrite run_assoc, run_yield_all.
    cbv [clearRateLimitTimestamp get_dedup set_dedup mbind M_bind mret
         M_ret emit tick calls trace message_dedup stream_dedup].
    rewrite <- !app_assoc. reflexivity. }
  rewrite (run_bind_ok _ _ _ _ _ Hturn). reflexivity.
Qed.

(** X17.  With an account in the pool that the strategy selects, a
    token, a project and a request body for it, and an upstream that
    answers the first POST to the first endpoint with an ok status and a
    stream the parser reads to its end: [sendMessageStream] yields the
    events of that stream in their order and nothing else, after that
    one upstream call, without a sleep and without a mark; it notifies
    the strategy of the success and drops the dedup entry of the
    model. *)
Theorem sendMessageStream_first_try (depth : nat) (request : Request)
  (fallbackEnabled : bool) (s : State) (available : list Account)
  (account : Account) (waitMs : Z) (token project body : string)
  (r : Response) (events : list StreamEvent)
  (Hendpoint : ANTIGRAVITY_ENDPOINT_FALLBACKS <> [])
  (Hpool : availableAccounts (S (tick s)) (model request) = available)
  (Hsome : available <> [])
  (Hselect : selectAccount (S (S (tick s))) (model request)
             = (Some account, waitMs))
  (Htoken : getTokenForAccount (S (S (S (tick s)))) account = inr token)
  (Hproject : getProjectForAccount (S (S (S (S (tick s))))) account token
              = inr project)
  (Hbuild : buildCloudCodeRequest request project = inr body)
  (Hanswer : upstream (calls s) stream_url
               (stream_init request token body) = Resolved r)
  (Hok : ok r = true)
  (Hstream : streamSSEResponse r (model request) = (events, None)) :
  sendMessageStream (S depth) request fallbackEnabled s
  = (Ok tt,
     answered_at_once s
       ([ clearExpiredLimits; getAvailableAccounts (model request);
          fetch stream_url (stream_init request token body) ]
        ++ map yield events
        ++ [ notifySuccess (email account) (model request) ])
       (message_dedup s) (delete (model request) (stream_dedup s))).
Proof.
  cbn [sendMessageStream]. unfold sendMessageStream_body. rewrite run_ask.
  destruct (stream_maxAttempts_succ (getAccountCount (tick s))) as [n ->].
  cbn [attempts].
  match goal with
  | |- (attempt ?self _ _ ≫= _) ?s1 = (_, ?s2) =>
      assert (Hattempt :
        attempt self request fallbackEnabled s1 = (Ok (Some tt), s2))
  end.
  { unfold attempt. run. rewrite Hpool.
    assert ((length available =? 0)%nat = false) as ->
      by (destruct available; [congruence | reflexivity]).
    run. rewrite Hselect.
    erewrite run_try_ok;
      [|apply (stream_attempt_try_first account request _ token project
                 body r events); cbn [tick calls]; assumption].
    cbn [tick calls trace message_dedup stream_dedup].
    unfold answered_at_once. rewrite <- !app_assoc. reflexivity. }
  rewrite (run_bind_ok _ _ _ _ _ Hattempt). reflexivity.
Qed.

End FirstTryStream.

Lemma sendMessageStream_first_try_witness :
  (StreamingHandler.sendMessageStream
     (W := scenario_world [answer_200] None None [some_account] 0)
     1 text_request false initial_state).1
  = Ok tt.
Proof.
  rewrite (sendMessageStream_first_try
             (W := scenario_world [answer_200] None None [some_account] 0)
             0 text_request false initial_state [some_account] some_account
             0 "token" "project" "payload for project" answer_200
             [content_block_delta 0 "text_delta" "Hello from upstream"]);
    try reflexivity; discriminate.
Defined.

(** ** The sweeper of the dedup maps *)

Section Sweeper.
Context `{W : World}.
Import Constants.

Lemma message_sweep_lookup s model t :
  message_dedup (MessageHandler.sweep s).2 !! model = Some t
  <-> message_dedup s !! model = Some t
      /\ Date_now (tick s) - 60000 <= t.
Proof.
  unfold MessageHandler.sweep.
  cbv [mbind M_bind ask MessageHandler.get_dedup MessageHandler.set_dedup
       snd].
  cbn [message_dedup]. rewrite map_lookup_filter_Some. cbn [snd].
  split; intros [H1 H2]; (split; [exact H1 | lia]).
Qed.

Lemma stream_sweep_lookup s model t :
  stream_dedup (StreamingHandler.sweep s).2 !! model = Some t
  <-> stream_dedup s !! model = Some t
      /\ Date_now (tick s) - 60000 <= t.
Proof.
  unfold StreamingHandler.sweep.
  cbv [mbind M_bind ask StreamingHandler.get_dedup
       StreamingHandler.set_dedup snd].
  cbn [stream_dedup]. rewrite map_lookup_filter_Some. cbn [snd].
  split; intros [H1 H2]; (split; [exact H1 | lia]).
Qed.

(** X18.  The sweeper of either handler removes exactly the timestamps
    that are more than 60 s old and changes no other entry; and when the
    clock does not run backwards, sweeping never changes what
    [shouldSkipRetryDueToDedup] answers afterwards: the answer is yes
    exactly when the map before the sweep held a timestamp of the model
    from within the window. *)
Theorem sweep_keeps_recent (model : string) (s : State)
  (Hclock : Date_now (tick s) <= Date_now (S (tick s))) :
  (forall m t,
      message_dedup (MessageHandler.sweep s).2 !! m = Some t
      <-> message_dedup s !! m = Some t
          /\ Date_now (tick s) - 60000 <= t)
  /\ (forall m t,
      stream_dedup (StreamingHandler.sweep s).2 !! m = Some t
      <-> stream_dedup s !! m = Some t
          /\ Date_now (tick s) - 60000 <= t)
  /\ ((MessageHandler.shouldSkipRetryDueToDedup model
         (MessageHandler.sweep s).2).1 = Ok true
      <-> exists t, message_dedup s !! model = Some t /\ t <> 0
                    /\ Date_now (S (tick s)) - t
                       < RATE_LIMIT_DEDUP_WINDOW_MS)
  /\ ((StreamingHandler.shouldSkipRetryDueToDedup model
         (StreamingHandler.sweep s).2).1 = Ok true
      <-> exists t, stream_dedup s !! model = Some t /\ t <> 0
                    /\ Date_now (S (tick s)) - t
                       < RATE_LIMIT_DEDUP_WINDOW_MS).
Proof.
  split; [intros m t; apply message_sweep_lookup|].
  split; [intros m t; apply stream_sweep_lookup|].
  unfold RATE_LIMIT_DEDUP_WINDOW_MS. split.
  - rewrite message_shouldSkip_true. unfold RATE_LIMIT_DEDUP_WINDOW_MS.
    change (tick (MessageHandler.sweep s).2) with (S (tick s)).
    split; intros (t & Ht & Hnz & Hwin); exists t.
    + apply message_sweep_lookup in Ht as [Ht _]. auto.
    + split; [|auto]. apply message_sweep_lookup. split; [exact Ht | lia].
  - rewrite stream_shouldSkip_true. unfold RATE_LIMIT_DEDUP_WINDOW_MS.
    change (tick (StreamingHandler.sweep s).2) with (S (tick s)).
    split; intros (t & Ht & Hnz & Hwin); exists t.
    + apply stream_sweep_lookup in Ht as [Ht _]. auto.
    + split; [|auto]. apply stream_sweep_lookup. split; [exact Ht | lia].
Qed.

End Sweeper.

Lemma sweep_keeps_recent_witness :
  (MessageHandler.shouldSkipRetryDueToDedup
     (W := scenario_world [] None None [] 0) "claude-sonnet"
     (MessageHandler.sweep (W := scenario_world [] None None [] 0)
        recent_dedup_state).2).1
  = Ok true.
Proof.
  destruct (sweep_keeps_recent (W := scenario_world [] None None [] 0)
              "claude-sonnet" recent_dedup_state) as (_ & _ & H & _).
  - now vm_compute.
  - apply H. exists 1699999999500. split; [reflexivity|].
    split; [discriminate | now vm_compute].
Defined.

(** ** Failing over the endpoints *)

Section FailoverProofs.
Context `{W : World}.
Import Constants MessageHandler.

Variable account : Account.
Variable request : Request.
Variables token body : string.
Variable r : Response.
Hypothesis Hthinking : isThinkingModel (model request) = false.
Hypothesis Hupstream : forall k url init, upstream k url init = Resolved r.
Hypothesis Hstatus : 400 <= status r /\ status r <> 401 /\ status r <> 429.

Let error : Error :=
  new_Error ("API error " ++ JS.show (status r) ++ ": " ++ text r).

Lemma other_error_turn vars s :
  endpoint_turn account request token body vars s
  = (Ok (Continue (next_endpoint (Some error) vars)),
     {| tick := tick s; calls := S (calls s);
        trace := (trace s
                  ++ fetch (generate_url vars)
                       (generate_init request token body)
                  :: (if status r >=? 500 then [sleep 1000] else []))%list;
        message_dedup := message_dedup s;
        stream_dedup := stream_dedup s |}).
Proof.
  destruct Hstatus as (H400 & H401 & H429).
  unfold endpoint_turn, try_catch, endpoint_try. rewrite Hthinking.
  fold (generate_url vars). fold (generate_init request token body).
  rewrite run_fetch. cbv zeta. rewrite Hupstream.
  assert (ok r = false) as ->.
  { unfold ok. apply andb_false_iff. right. apply Z.leb_gt. lia. }
  cbn [negb].
  assert ((status r =? 401) = false) as -> by now apply Z.eqb_neq.
  assert ((status r =? 429) = false) as -> by now apply Z.eqb_neq.
  assert ((status r >=? 400) = true) as ->
    by (rewrite Z.geb_leb; now apply Z.leb_le).
  unfold handle_other_error. fold error.
  destruct (Z.eqb_spec (status r) 403) as [E403|N403];
    [|destruct (Z.eqb_spec (status r) 404) as [E404|N404]];
    cbn [orb].
  - assert ((status r >=? 500) = false) as ->
      by (rewrite Z.geb_leb; apply Z.leb_gt; lia).
    run. reflexivity.
  - assert ((status r >=? 500) = false) as ->
      by (rewrite Z.geb_leb; apply Z.leb_gt; lia).
    run. reflexivity.
  - destruct (status r >=? 500); run; [|reflexivity].
    cbn [tick calls trace]. now rewrite <- app_assoc.
Qed.

Lemma failover_loop fuel vars s :
  (length ANTIGRAVITY_ENDPOINT_FALLBACKS - endpointIndex vars <= fuel)%nat ->
  endpoint_loop fuel account request token body vars s
  = (Ok (Continue (failed_over error vars)),
     {| tick := tick s;
        calls := (calls s + (length ANTIGRAVITY_ENDPOINT_FALLBACKS
                             - endpointIndex vars))%nat;
        trace := (trace s
                  ++ failover_trace request token body (status r)
                       (drop (endpointIndex vars)
                          ANTIGRAVITY_ENDPOINT_FALLBACKS))%list;
        message_dedup := message_dedup s;
        stream_dedup := stream_dedup s |}).
Proof.
  revert vars s. induction fuel as [|fuel IH]; intros vars s Hfuel.
  - cbn [endpoint_loop].
    destruct (Nat.ltb_spec (endpointIndex vars)
                (length ANTIGRAVITY_ENDPOINT_FALLBACKS)) as [Hlt|Hge];
      [lia|].
    unfold failed_over.
    replace (endpointIndex vars <? length ANTIGRAVITY_ENDPOINT_FALLBACKS)%nat
      with false by (symmetry; apply Nat.ltb_ge; lia).
    rewrite Nat.max_l by lia. rewrite drop_ge by lia.
    replace (length ANTIGRAVITY_ENDPOINT_FALLBACKS - endpointIndex vars)%nat
      with 0%nat by lia.
    cbn [failover_trace flat_map]. rewrite app_nil_r, Nat.add_0_r.
    destruct vars, s; reflexivity.
  - destruct (Nat.ltb_spec (endpointIndex vars)
                (length ANTIGRAVITY_ENDPOINT_FALLBACKS)) as [Hlt|Hge].
    + rewrite endpoint_loop_turn by exact Hlt.
      rewrite other_error_turn.
      rewrite IH by (cbn [next_endpoint endpointIndex]; lia).
      cbn [tick calls trace message_dedup stream_dedup next_endpoint
           endpointIndex retriedOnce capacityRetryCount lastError].
      f_equal.
      * f_equal. unfold failed_over.
        cbn [next_endpoint endpointIndex retriedOnce capacityRetryCount
             lastError].
        replace (endpointIndex vars
                 <? length ANTIGRAVITY_ENDPOINT_FALLBACKS)%nat
          with true by (symmetry; apply Nat.ltb_lt; lia).
        rewrite (Nat.max_r (endpointIndex vars)) by lia.
        rewrite (Nat.max_r (S (endpointIndex vars))) by lia.
        destruct (S (endpointIndex vars)
                  <? length ANTIGRAVITY_ENDPOINT_FALLBACKS)%nat;
          reflexivity.
      * destruct (lookup_lt_is_Some_2 ANTIGRAVITY_ENDPOINT_FALLBACKS
                    (endpointIndex vars) Hlt) as [endpoint Hendpoint].
        rewrite (drop_S _ _ _ Hendpoint).
        cbn [failover_trace flat_map].
        unfold generate_url. rewrite nth_lookup, Hendpoint.
        cbn [default from_option id].
        f_equal; [lia|].
        rewrite <- !app_assoc. reflexivity.
    + cbn [endpoint_loop].
      replace (endpointIndex vars
               <? length ANTIGRAVITY_ENDPOINT_FALLBACKS)%nat
        with false by (symmetry; apply Nat.ltb_ge; lia).
      unfold failed_over.
      replace (endpointIndex vars
               <? length ANTIGRAVITY_ENDPOINT_FALLBACKS)%nat
        with false by (symmetry; apply Nat.ltb_ge; lia).
      rewrite Nat.max_l by lia. rewrite drop_ge by lia.
      replace (length ANTIGRAVITY_ENDPOINT_FALLBACKS
               - endpointIndex vars)%nat with 0%nat by lia.
      cbn [failover_trace flat_map]. rewrite app_nil_r, Nat.add_0_r.
      destruct vars, s; reflexivity.
Qed.

End FailoverProofs.

Section FailoverContract.
Context `{W : World}.
Import Constants MessageHandler.

(** X19.  The non-streaming endpoint loop fails over in order.  When the
    model is not a thinking model and every upstream call is answered
    with the same error status that is at least 400 and neither 401 nor
    429, the loop POSTs once to each endpoint in the listed order,
    sleeping one second after each answer when the status is a 5xx and
    not at all otherwise, marks nothing, and ends with the API error of
    the last endpoint as the last error, which the attempt then
    throws. *)
Theorem endpoint_failover (account : Account) (request : Request)
  (token body : string) (r : Response) (s : State)
  (Hthinking : isThinkingModel (model request) = false)
  (Hupstream : forall k url init, upstream k url init = Resolved r)
  (Hstatus : 400 <= status r /\ status r <> 401 /\ status r <> 429) :
  let error :=
    new_Error ("API error " ++ JS.show (status r) ++ ": " ++ text r) in
  let out :=
    endpoint_loop endpoint_fuel account request token body initial_vars s
  in
  out.1 = Ok (Continue (failed_over error initial_vars))
  /\ trace out.2
     = (trace s ++ failover_trace request token body (status r)
                    ANTIGRAVITY_ENDPOINT_FALLBACKS)%list
  /\ calls out.2 = (calls s + length ANTIGRAVITY_ENDPOINT_FALLBACKS)%nat
  /\ (ANTIGRAVITY_ENDPOINT_FALLBACKS <> [] ->
      (after_endpoints account (model request)
         (failed_over error initial_vars) out.2).1 = Thrown error).
Proof.
  intros error out. subst out.
  rewrite (failover_loop account request token body r Hthinking Hupstream
             Hstatus)
    by (unfold endpoint_fuel; cbn [endpointIndex initial_vars]; lia).
  cbn [fst snd trace calls endpointIndex initial_vars].
  rewrite drop_0, Nat.sub_0_r.
  repeat split.
  intros Hendpoint. unfold after_endpoints, failed_over.
  rewrite (first_endpoint Hendpoint). reflexivity.
Qed.

End FailoverContract.

Lemma endpoint_failover_witness :
  trace
    (MessageHandler.endpoint_loop (W := always_answers unavailable_503)
       (MessageHandler.endpoint_fuel (W := always_answers unavailable_503))
       some_account text_request "token" "payload" initial_vars
       initial_state).2
  = [ fetch "https://daily.example/v1internal:generateContent"
        (generate_init text_request "token" "payload");
      sleep 1000;
      fetch "https://prod.example/v1internal:generateContent"
        (generate_init text_request "token" "payload");
      sleep 1000 ].
Proof.
  destruct (endpoint_failover (W := always_answers unavailable_503)
              some_account text_request "token" "payload" unavailable_503
              initial_state) as (_ & H & _).
  - reflexivity.
  - reflexivity.
  - repeat split; [now vm_compute | discriminate | discriminate].
  - rewrite H. reflexivity.
Defined.

(** ** A short rate limit, then the answer *)

Section ShortRetry.
Context `{W : World}.
Import Constants MessageHandler.

(** The turn that meets a short rate limit for the first time, with no
    dedup entry for the model. *)
Lemma short_turn account request token body vars s r v :
  isThinkingModel (model request) = false ->
  upstream (calls s) (generate_url vars)
    (generate_init request token body) = Resolved r ->
  status r = 429 ->
  isModelCapacityExhausted (text r) = false ->
  parseResetTime r (text r) = Some v ->
  0 < v <= DEFAULT_COOLDOWN_MS ->
  message_dedup s !! model request = None ->
  retriedOnce vars = false ->
  endpoint_turn account request token body vars s
  = (Ok (Continue (retry_short vars)),
     {| tick := S (tick s); calls := S (calls s);
        trace := (trace s ++ [fetch (generate_url vars)
                                (generate_init request token body);
                              sleep v])%list;
        message_dedup :=
          <[model request := Date_now (tick s)]> (message_dedup s);
        stream_dedup := stream_dedup s |}).
Proof.
  intros Hthink Hup Hstatus Hcap Hreset Hv Hdedup Honce.
  unfold endpoint_turn, try_catch, endpoint_try. rewrite Hthink.
  fold (generate_url vars). fold (generate_init request token body).
  rewrite run_fetch. cbv zeta. rewrite Hup.
  unfold ok. rewrite Hstatus.
  cbn [Z.leb Z.compare Pos.compare Pos.compare_cont andb negb Z.eqb
       Pos.eqb].
  unfold handle_429. rewrite Hcap, Hreset. cbn [andb].
  unfold rate_limit_decision, shouldSkipRetryDueToDedup.
  cbv [get_dedup mbind M_bind mret M_ret].
  cbn [message_dedup]. rewrite Hdedup. cbn [JS.truthy negb].
  assert ((v =? 0) = false) as Hnz by (apply Z.eqb_neq; lia).
  rewrite Hnz. cbn [negb andb default from_option id].
  assert ((v >? DEFAULT_COOLDOWN_MS) = false) as ->
    by (apply not_true_is_false; intros H; apply Z.gtb_lt in H; lia).
  rewrite Honce. cbn [negb JS.js_or]. rewrite Hnz.
  cbv [recordRateLimitTimestamp get_dedup set_dedup ask emit mbind M_bind
       mret M_ret tick calls trace message_dedup stream_dedup].
  rewrite <- app_assoc. reflexivity.
Qed.

(** X20.  A short rate limit, then the answer.  When the first POST of a
    dispatch is answered 429 with a reset time of at most 10 s that is
    not a capacity error, the model has no dedup entry, and the second
    POST to the same endpoint is answered ok: [sendMessage] sleeps the
    reset time once, POSTs again to the same endpoint and returns the
    converted answer; no account is marked, and the dedup entry
    recorded before the retry is gone when the call returns. *)
Theorem sendMessage_short_retry (depth : nat) (request : Request)
  (fallbackEnabled : bool) (s : State) (available : list Account)
  (account : Account) (waitMs v : Z)
  (token project body data result : string) (limited r : Response)
  (Hthinking : isThinkingModel (model request) = false)
  (Hendpoint : ANTIGRAVITY_ENDPOINT_FALLBACKS <> [])
  (Hpool : availableAccounts (S (tick s)) (model request) = available)
  (Hsome : available <> [])
  (Hselect : selectAccount (S (S (tick s))) (model request)
             = (Some account, waitMs))
  (Htoken : getTokenForAccount (S (S (S (tick s)))) account = inr token)
  (Hproject : getProjectForAccount (S (S (S (S (tick s))))) account token
              = inr project)
  (Hbuild : buildCloudCodeRequest request project = inr body)
  (Hfirst : upstream (calls s) (generate_url initial_vars)
              (generate_init request token body) = Resolved limited)
  (Hlimited : status limited = 429
              /\ isModelCapacityExhausted (text limited) = false
              /\ parseResetTime limited (text limited) = Some v
              /\ 0 < v <= DEFAULT_COOLDOWN_MS)
  (Hdedup : message_dedup s !! model request = None)
  (Hsecond : upstream (S (calls s)) (generate_url initial_vars)
               (generate_init request token body) = Resolved r)
  (Hok : ok r = true)
  (Hjson : response_json r = inr data)
  (Hconvert : convertGoogleToAnthropic data (model request) = inr result) :
  let post_it :=
    fetch (generate_url initial_vars) (generate_init request token body)
  in
  let out := sendMessage (S depth) request fallbackEnabled s in
  out.1 = Ok result
  /\ trace out.2
     = (trace s
        ++ [ clearExpiredLimits; getAvailableAccounts (model request);
             post_it; sleep v; post_it;
             notifySuccess (email account) (model request) ])%list
  /\ calls out.2 = S (S (calls s))
  /\ message_dedup out.2 = message_dedup s.
Proof.
  intros post_it out. subst post_it out.
  destruct Hlimited as (Hstatus & Hcap & Hreset & Hv).
  assert (Hrun :
    sendMessage (S depth) request fallbackEnabled s
    = (Ok result,
       {| tick := S (S (S (S (S (S (tick s)))))); calls := S (S (calls s));
          trace := (trace s
                    ++ [ clearExpiredLimits;
                         getAvailableAccounts (model request);
                         fetch (generate_url initial_vars)
                           (generate_init request token body);
                         sleep v;
                         fetch (generate_url initial_vars)
                           (generate_init request token body);
                         notifySuccess (email account)
                           (model request) ])%list;
          message_dedup := message_dedup s;
          stream_dedup := stream_dedup s |}));
    [|rewrite Hrun; repeat split].
  cbn [sendMessage]. unfold sendMessage_body. rewrite run_ask.
  destruct (maxAttempts_succ (getAccountCount (tick s))) as [n ->].
  cbn [attempts].
  match goal with
  | |- (attempt ?self _ _ ≫= _) ?s1 = (_, ?s2) =>
      assert (Hattempt :
        attempt self request fallbackEnabled s1 = (Ok (Some result), s2))
  end.
  { unfold attempt. run. rewrite Hpool.
    assert ((length available =? 0)%nat = false) as ->
      by (destruct available; [congruence | reflexivity]).
    run. rewrite Hselect.
    match goal with
    | |- try_catch _ _ ?s1 = _ =>
        assert (Htry :
          attempt_try account request s1
          = (Ok (Some result),
             {| tick := S (S (S (tick s1))); calls := S (S (calls s1));
                trace := (trace s1
                          ++ [ fetch (generate_url initial_vars)
                                 (generate_init request token body);
                               sleep v;
                               fetch (generate_url initial_vars)
                                 (generate_init request token body);
                               notifySuccess (email account)
                                 (model request) ])%list;
                message_dedup := message_dedup s;
                stream_dedup := stream_dedup s |}))
    end.
    { unfold attempt_try. run. rewrite Htoken. cbn [lift]. run.
      rewrite Hproject. cbn [lift]. run. rewrite Hbuild. cbn [lift]. run.
      unfold endpoint_fuel.
      replace (length ANTIGRAVITY_ENDPOINT_FALLBACKS
               + Z.to_nat MAX_CAPACITY_RETRIES + 1)%nat
        with (S (S (length ANTIGRAVITY_ENDPOINT_FALLBACKS + 2)))
        by (unfold MAX_CAPACITY_RETRIES; lia).
      erewrite run_bind_ok.
      2:{ rewrite endpoint_loop_turn
            by (apply Nat.ltb_lt, first_endpoint; exact Hendpoint).
          rewrite (short_turn account request token body initial_vars _
                     limited v); cbn [tick calls message_dedup];
            try assumption; try reflexivity.
          rewrite endpoint_loop_turn
            by (apply Nat.ltb_lt, first_endpoint; exact Hendpoint).
          change (generate_url (retry_short initial_vars))
            with (generate_url initial_vars).
          rewrite (ok_turn account request token body
                     (retry_short initial_vars) _ r data result);
            cbn [tick calls]; try assumption; reflexivity. }
      cbn [tick calls trace message_dedup stream_dedup mret M_ret].
      rewrite <- !app_assoc. cbn [app].
      rewrite delete_insert_eq. rewrite delete_id by exact Hdedup.
      reflexivity. }
    rewrite (run_try_ok _ _ _ _ _ Htry).
    cbn [tick calls trace message_dedup stream_dedup].
    rewrite <- !app_assoc. reflexivity. }
  rewrite (run_bind_ok _ _ _ _ _ Hattempt). reflexivity.
Qed.

End ShortRetry.

(** Scenario 1 of the specification: a 429 with a reset time of 3 s, then
    a 200. *)
Lemma sendMessage_short_retry_witness :
  (MessageHandler.sendMessage
     (W := scenario_world [quota_429; answer_200] (Some 3000) None
             [some_account] 0)
     1 text_request false initial_state).1
  = Ok "Hello from upstream".
Proof.
  destruct (sendMessage_short_retry
              (W := scenario_world [quota_429; answer_200] (Some 3000) None
                      [some_account] 0)
              0 text_request false initial_state [some_account] some_account
              0 3000 "token" "project" "payload for project"
              "Hello from upstream" "Hello from upstream" quota_429
              answer_200) as (H & _);
    [ .. | exact H ];
    first [ reflexivity | discriminate
          | repeat split; first [ reflexivity | now vm_compute ] ].
Defined.
